(** * MAPL_GridCompSpecs_ACG: schema, rule engine, digestion and emission

    A shallow embedding of [Apps/MAPL_GridCompSpecs_ACG.py].  Python strings
    are modelled as [string] (sequences of 8-bit characters, case mapping and
    white space on the ASCII range), Python values as [pyval], dictionaries
    as insertion-ordered association lists, exceptions as the [Raise] branch
    of [result], and the mutable [MAPL_DataSpec] object by explicit state
    passing.

    [str.upper], [str.lower] and [str.strip] of Python also act on
    characters beyond ASCII (U+00A0 is white space, the upper case of U+0131
    is [I]); [PyStr.upper], [PyStr.lower] and [PyStr.strip] are these
    functions on ASCII text ([is_ascii]) and leave every other character as
    it is.  Where a statement rests on a character being left as it is, it
    is made of ASCII text. *)

From Stdlib Require Import String Ascii List ZArith Bool Lia DecimalString.
Import ListNotations.

Local Open Scope string_scope.
Local Open Scope Z_scope.

(* ================================================================== *)
(** ** Python strings *)

Module PyStr.

Definition code (c : ascii) : nat := nat_of_ascii c.

Definition is_upper (c : ascii) : bool :=
  (Nat.leb 65 (code c) && Nat.leb (code c) 90)%bool.

Definition is_lower (c : ascii) : bool :=
  (Nat.leb 97 (code c) && Nat.leb (code c) 122)%bool.

(** [str.lower] and [str.upper] of one character of the ASCII range: the 26
    letters change case; the characters from 128 on are left as they are
    (Python maps some of them, too). *)
Definition to_lower (c : ascii) : ascii :=
  if is_upper c then ascii_of_nat (code c + 32) else c.

Definition to_upper (c : ascii) : ascii :=
  if is_lower c then ascii_of_nat (code c - 32) else c.

(** [str.isspace] on the ASCII range: TAB, LF, VT, FF, CR, the four
    separators FS, GS, RS, US, and the blank.  No character from 128 on is
    counted (Python counts U+0085, U+00A0 and others). *)
Definition isspace (c : ascii) : bool :=
  ((Nat.leb 9 (code c) && Nat.leb (code c) 13)
   || (Nat.leb 28 (code c) && Nat.leb (code c) 32))%bool.

Fixpoint map (f : ascii -> ascii) (s : string) : string :=
  match s with
  | EmptyString => EmptyString
  | String c s' => String (f c) (map f s')
  end.

(** [s.upper()] and [s.lower()] *)
Definition upper : string -> string := map to_upper.
Definition lower : string -> string := map to_lower.

(** [s.capitalize()] *)
Definition capitalize (s : string) : string :=
  match s with
  | EmptyString => EmptyString
  | String c s' => String (to_upper c) (lower s')
  end.

Fixpoint mem (c : ascii) (chars : string) : bool :=
  match chars with
  | EmptyString => false
  | String d chars' => (Ascii.eqb c d || mem c chars')%bool
  end.

Fixpoint lstrip_by (p : ascii -> bool) (s : string) : string :=
  match s with
  | EmptyString => EmptyString
  | String c s' => if p c then lstrip_by p s' else s
  end.

Fixpoint rstrip_by (p : ascii -> bool) (s : string) : string :=
  match s with
  | EmptyString => EmptyString
  | String c s' =>
      match rstrip_by p s' with
      | EmptyString => if p c then EmptyString else String c EmptyString
      | r => String c r
      end
  end.

Definition strip_by (p : ascii -> bool) (s : string) : string :=
  rstrip_by p (lstrip_by p s).

(** [s.strip()] *)
Definition strip : string -> string := strip_by isspace.

(** [s.strip(chars)] *)
Definition strip_chars (chars : string) : string -> string :=
  strip_by (fun c => mem c chars).

(** [s.split(sep)] for a one-character separator *)
Fixpoint split (sep : ascii) (s : string) : list string :=
  match s with
  | EmptyString => [EmptyString]
  | String c s' =>
      if Ascii.eqb c sep then EmptyString :: split sep s'
      else match split sep s' with
           | w :: ws => String c w :: ws
           | [] => [String c EmptyString]
           end
  end.

(** [s.replace(old, new)] for a one-character [old] *)
Fixpoint replace (old : ascii) (new : string) (s : string) : string :=
  match s with
  | EmptyString => EmptyString
  | String c s' =>
      if Ascii.eqb c old then new ++ replace old new s'
      else String c (replace old new s')
  end.

(** [sep.join(parts)] *)
Fixpoint join (sep : string) (parts : list string) : string :=
  match parts with
  | [] => EmptyString
  | [p] => p
  | p :: ps => p ++ sep ++ join sep ps
  end.

Fixpoint repeat (s : string) (n : nat) : string :=
  match n with
  | O => EmptyString
  | S n' => s ++ repeat s n'
  end.

(** [s * n]: empty for [n <= 0] *)
Definition mul (s : string) (n : Z) : string := repeat s (Z.to_nat n).

(** [x in xs] for a collection of strings *)
Definition contains (xs : list string) (x : string) : bool :=
  existsb (String.eqb x) xs.

Definition LF : string := String (ascii_of_nat 10) EmptyString.

End PyStr.

(* ================================================================== *)
(** ** Python values, exceptions *)

(** The values stored in a spec dictionary: [None], a [str], or the [int]
    rank. *)
Inductive pyval : Type :=
| VNone
| VStr (s : string)
| VInt (n : Z).

Definition pyval_eqb (a b : pyval) : bool :=
  match a, b with
  | VNone, VNone => true
  | VStr s, VStr t => String.eqb s t
  | VInt n, VInt m => Z.eqb n m
  | _, _ => false
  end.

(** Truth value of [if value] *)
Definition truthy (v : pyval) : bool :=
  match v with
  | VNone => false
  | VStr s => negb (String.eqb s "")
  | VInt n => negb (Z.eqb n 0)
  end.

(** [str(value)] *)
Definition py_str (v : pyval) : string :=
  match v with
  | VNone => "None"
  | VStr s => s
  | VInt n => NilZero.string_of_int (Z.to_int n)
  end.

(* ================================================================== *)
(** ** Emit functions *)

(** [identity_emit = lambda value: value] *)
Definition identity_emit (value : string) : pyval := VStr value.

(** [string_emit = lambda value: ("'" + value + "'") if value else None] *)
Definition string_emit (value : string) : pyval :=
  if truthy (VStr value) then VStr ("'" ++ value ++ "'") else VNone.

(** [array_emit = lambda value: ('[' + value + ']') if value else None] *)
Definition array_emit (value : string) : pyval :=
  if truthy (VStr value) then VStr ("[" ++ value ++ "]") else VNone.

(** [mangle_name]: the wildcard becomes the run-time component name *)
Definition mangle_name (name : string) : pyval :=
  if truthy (VStr name)
  then string_emit (PyStr.replace "*" "'//trim(comp_name)//'" name)
  else VNone.

(** [make_internal_name]: the wildcard is dropped *)
Definition make_internal_name (name : string) : pyval :=
  if truthy (VStr name) then VStr (PyStr.replace "*" "" name) else VNone.

Fixpoint str_lookup {A : Type} (key : string) (d : list (string * A)) : option A :=
  match d with
  | [] => None
  | (k, v) :: d' => if String.eqb key k then Some v else str_lookup key d'
  end.

(** [make_entry_emit(dictionary)]:
    [lambda key: dictionary[key] if key in dictionary else None] *)
Definition make_entry_emit (dictionary : list (string * string)) (key : string) : pyval :=
  match str_lookup key dictionary with
  | Some entry => VStr entry
  | None => VNone
  end.

Definition DIMS_OPTIONS : list (string * Z * string) :=
  [ ("MAPL_DimsVertOnly", 1, "z");
    ("MAPL_DimsHorzOnly", 2, "xy");
    ("MAPL_DimsHorzVert", 3, "xyz") ].

Definition DIMS_EMIT : string -> pyval :=
  make_entry_emit (List.map (fun '(entry, _, alias) => (alias, entry)) DIMS_OPTIONS).

Definition RANKS : list (string * Z) :=
  List.map (fun '(entry, rank, _) => (entry, rank)) DIMS_OPTIONS.

Definition VLOCATION_EMIT : string -> pyval :=
  make_entry_emit
    [ ("C", "MAPL_VlocationCenter"); ("E", "MAPL_VlocationEdge");
      ("N", "MAPL_VlocationNone") ].

Definition RESTART_EMIT : string -> pyval :=
  make_entry_emit
    [ ("OPT", "MAPL_RestartOptional"); ("SKIP", "MAPL_RestartSkip");
      ("REQ", "MAPL_RestartRequired"); ("BOOT", "MAPL_RestartBoot");
      ("SKIPI", "MAPL_RestartSkipInitial") ].

Definition ADD2EXPORT_EMIT : string -> pyval :=
  make_entry_emit [ ("T", ".true."); ("F", ".false.") ].

(** The emit functions are compared by identity when the enumeration looks
    for aliases, so the schema stores them by name. *)
Inductive emitter : Type :=
| E_identity_emit
| E_string_emit
| E_array_emit
| E_mangle_name
| E_make_internal_name
| E_DIMS_EMIT
| E_VLOCATION_EMIT
| E_RESTART_EMIT
| E_ADD2EXPORT_EMIT.

Definition emitter_eqb (a b : emitter) : bool :=
  match a, b with
  | E_identity_emit, E_identity_emit
  | E_string_emit, E_string_emit
  | E_array_emit, E_array_emit
  | E_mangle_name, E_mangle_name
  | E_make_internal_name, E_make_internal_name
  | E_DIMS_EMIT, E_DIMS_EMIT
  | E_VLOCATION_EMIT, E_VLOCATION_EMIT
  | E_RESTART_EMIT, E_RESTART_EMIT
  | E_ADD2EXPORT_EMIT, E_ADD2EXPORT_EMIT => true
  | _, _ => false
  end.

Definition run_emitter (e : emitter) : string -> pyval :=
  match e with
  | E_identity_emit => identity_emit
  | E_string_emit => string_emit
  | E_array_emit => array_emit
  | E_mangle_name => mangle_name
  | E_make_internal_name => make_internal_name
  | E_DIMS_EMIT => DIMS_EMIT
  | E_VLOCATION_EMIT => VLOCATION_EMIT
  | E_RESTART_EMIT => RESTART_EMIT
  | E_ADD2EXPORT_EMIT => ADD2EXPORT_EMIT
  end.

(* ================================================================== *)
(** ** The option schema: [class OptionType(Enum)] and [Option] *)

(** The value tuple of a member after [OptionType.__init__] has filled in
    the defaults ([emit = identity_emit], [mandatory = False],
    [output = True]).  On the table below two tuples are equal exactly when
    their completed forms are. *)
Record OptionValue : Type := mkValue {
  v_name_key : string;
  v_emit : emitter;
  v_mandatory : bool;
  v_output : bool
}.

Definition OptionValue_eqb (a b : OptionValue) : bool :=
  (String.eqb (v_name_key a) (v_name_key b)
   && emitter_eqb (v_emit a) (v_emit b)
   && Bool.eqb (v_mandatory a) (v_mandatory b)
   && Bool.eqb (v_output a) (v_output b))%bool.

(** A member of the enumeration: its canonical name and its value. *)
Record Option : Type := mkOption {
  name : string;
  value : OptionValue
}.

Definition name_key (o : Option) : string := v_name_key (value o).
Definition emit (o : Option) : string -> pyval := run_emitter (v_emit (value o)).
Definition mandatory (o : Option) : bool := v_mandatory (value o).
Definition output (o : Option) : bool := v_output (value o).

(** Members are compared by identity; a member is determined by its name
    and value. *)
Definition Option_eqb (a b : Option) : bool :=
  (String.eqb (name a) (name b) && OptionValue_eqb (value a) (value b))%bool.

(** [OptionType.__call__] *)
Definition Option_call (o : Option) (v : string) : pyval := emit o v.

Definition tup1 (k : string) : OptionValue := mkValue k E_identity_emit false true.
Definition tup2 (k : string) (e : emitter) : OptionValue := mkValue k e false true.
Definition tup3 (k : string) (e : emitter) (m : bool) : OptionValue := mkValue k e m true.
Definition tup4 (k : string) (e : emitter) (m o : bool) : OptionValue := mkValue k e m o.

(** The [names] dictionary handed to [Enum], in source order. *)
Definition Option_names : list (string * OptionValue) :=
  [ ("SHORT_NAME", tup3 "short_name" E_mangle_name true);
    ("NAME", tup3 "short_name" E_mangle_name true);
    ("LONG_NAME", tup3 "long_name" E_string_emit true);
    ("LONG NAME", tup3 "long_name" E_string_emit true);
    ("UNITS", tup3 "units" E_string_emit true);
    ("DIMS", tup3 "dims" E_DIMS_EMIT true);
    ("VLOCATION", tup2 "vlocation" E_VLOCATION_EMIT);
    ("VLOC", tup2 "vlocation" E_VLOCATION_EMIT);
    ("ADD2EXPORT", tup2 "add2export" E_ADD2EXPORT_EMIT);
    ("ADDEXP", tup2 "add2export" E_ADD2EXPORT_EMIT);
    ("RESTART", tup2 "restart" E_RESTART_EMIT);
    ("UNGRIDDED", tup2 "ungridded" E_array_emit);
    ("UNGRID", tup2 "ungridded" E_array_emit);
    ("FRIENDLYTO", tup2 "friendlyto" E_string_emit);
    ("FRIEND2", tup2 "friendlyto" E_string_emit);
    ("PRECISION", tup1 "precision");
    ("PREC", tup1 "precision");
    ("NUM_SUBTILES", tup1 "num_subtitles");
    ("NUMSUBS", tup1 "num_subtitles");
    ("AVERAGING_INTERVAL", tup1 "averaging_interval");
    ("AVINT", tup1 "averaging_interval");
    ("REFRESH_INTERVAL", tup1 "refresh_interval");
    ("HALOWIDTH", tup1 "halowidth");
    ("DEFAULT", tup1 "default");
    ("FIELD_TYPE", tup1 "field_type");
    ("STAGGERING", tup1 "staggering");
    ("ROTATION", tup1 "rotation");
    ("DATATYPE", tup1 "datatype");
    ("ATTR_INAMES", tup1 "attr_inames");
    ("ATT_RNAMES", tup1 "att_rnames");
    ("ATTR_IVALUES", tup1 "attr_ivalues");
    ("ATTR_RVALUES", tup1 "attr_rvalues");
    ("UNGRIDDED_NAME", tup1 "ungridded_name");
    ("UNGRIDDED_UNIT", tup1 "ungridded_unit");
    ("UNGRIDDED_COORDS", tup1 "ungridded_coords");
    ("CONDITION", tup4 "condition" E_identity_emit false false);
    ("COND", tup4 "condition" E_identity_emit false false);
    ("ALLOC", tup4 "alloc" E_identity_emit false false);
    ("MANGLED_NAME", tup4 "mangled_name" E_mangle_name false false);
    ("INTERNAL_NAME", tup4 "internal_name" E_make_internal_name false false);
    ("RANK", tup4 "rank" E_identity_emit false false) ].

(** What [Enum] does with the table: an entry whose value equals the value
    of an earlier member becomes another name of that member; any other
    entry becomes a new member.  The result is the list of members in
    definition order and the map from every name to its member. *)
Definition find_member (v : OptionValue) (members : list Option) : option Option :=
  List.find (fun m => OptionValue_eqb (value m) v) members.

Fixpoint build_enum (entries : list (string * OptionValue))
    (members : list Option) (member_map : list (string * Option))
  : list Option * list (string * Option) :=
  match entries with
  | [] => (members, member_map)
  | (n, v) :: rest =>
      match find_member v members with
      | Some canonical => build_enum rest members (member_map ++ [(n, canonical)])
      | None =>
          let m := mkOption n v in
          build_enum rest (members ++ [m]) (member_map ++ [(n, m)])
      end
  end.

(** [list(Option)] *)
Definition Option_members : list Option :=
  Eval vm_compute in fst (build_enum Option_names [] []).

(** [Option.__members__] *)
Definition Option_member_map : list (string * Option) :=
  Eval vm_compute in snd (build_enum Option_names [] []).

(** The members the code refers to by attribute. *)
Definition SHORT_NAME : Option := mkOption "SHORT_NAME" (tup3 "short_name" E_mangle_name true).
Definition LONG_NAME : Option := mkOption "LONG_NAME" (tup3 "long_name" E_string_emit true).
Definition UNITS : Option := mkOption "UNITS" (tup3 "units" E_string_emit true).
Definition DIMS : Option := mkOption "DIMS" (tup3 "dims" E_DIMS_EMIT true).
Definition VLOCATION : Option := mkOption "VLOCATION" (tup2 "vlocation" E_VLOCATION_EMIT).
Definition UNGRIDDED : Option := mkOption "UNGRIDDED" (tup2 "ungridded" E_array_emit).
Definition PRECISION : Option := mkOption "PRECISION" (tup1 "precision").
Definition CONDITION : Option := mkOption "CONDITION" (tup4 "condition" E_identity_emit false false).
Definition ALLOC : Option := mkOption "ALLOC" (tup4 "alloc" E_identity_emit false false).
Definition MANGLED_NAME : Option :=
  mkOption "MANGLED_NAME" (tup4 "mangled_name" E_mangle_name false false).
Definition INTERNAL_NAME : Option :=
  mkOption "INTERNAL_NAME" (tup4 "internal_name" E_make_internal_name false false).
Definition RANK : Option := mkOption "RANK" (tup4 "rank" E_identity_emit false false).

(** [OptionType.get_mandatory_options] *)
Definition get_mandatory_options : list Option :=
  List.filter (fun m => mandatory m) Option_members.

(* ================================================================== *)
(** ** Exceptions and results *)

(** The key a failed dictionary lookup reports. *)
Inductive pykey : Type :=
| KName (s : string)        (* a member name, [Option[...]] *)
| KOption (o : Option)      (* a spec key, [values[...]] *)
| KValue (v : pyval).       (* a dims token, [RANKS[...]] *)

(** The exceptions the code can raise.  The two [RuntimeError]s are told
    apart by their raise site: [MissingMandatoryOption] is the one raised by
    [digest], [RuleViolation] the one raised by a rule's check. *)
Inductive exn : Type :=
| KeyError (k : pykey)
| MissingMandatoryOption (msg : string)
| RuleViolation (msg : string)
| ValueError (msg : string)
| TypeError
| AttributeError.

Inductive result (A : Type) : Type :=
| Ok (a : A)
| Raise (e : exn).

Arguments Ok {A} a.
Arguments Raise {A} e.

Definition bind {A B : Type} (r : result A) (k : A -> result B) : result B :=
  match r with
  | Ok a => k a
  | Raise e => Raise e
  end.

Notation "x <- r ;; k" := (bind r (fun x => k))
  (at level 61, r at next level, right associativity).

(** [Option[name]] *)
Definition Option_getitem (n : string) : result Option :=
  match str_lookup n Option_member_map with
  | Some o => Ok o
  | None => Raise (KeyError (KName n))
  end.

(* ================================================================== *)
(** ** Dictionaries keyed by options

    A Python [dict] keeps its keys in insertion order; assigning to a key
    that is already there keeps the key's place. *)

Definition dict : Type := list (Option * pyval).

Fixpoint dict_get (k : Option) (d : dict) : option pyval :=
  match d with
  | [] => None
  | (k', v) :: d' => if Option_eqb k k' then Some v else dict_get k d'
  end.

(** [d[k] = v] *)
Fixpoint dict_set (k : Option) (v : pyval) (d : dict) : dict :=
  match d with
  | [] => [(k, v)]
  | (k', v') :: d' =>
      if Option_eqb k k' then (k', v) :: d' else (k', v') :: dict_set k v d'
  end.

(** [del d[k]], used to build records that lack a key *)
Fixpoint dict_remove (k : Option) (d : dict) : dict :=
  match d with
  | [] => []
  | (k', v') :: d' =>
      if Option_eqb k k' then d' else (k', v') :: dict_remove k d'
  end.

(** [k in d] *)
Definition dict_contains (k : Option) (d : dict) : bool :=
  match dict_get k d with
  | Some _ => true
  | None => false
  end.

(** [d[k]] *)
Definition dict_getitem (k : Option) (d : dict) : result pyval :=
  match dict_get k d with
  | Some v => Ok v
  | None => Raise (KeyError (KOption k))
  end.

(** [d.get(k)] *)
Definition dict_get_default (k : Option) (d : dict) : pyval :=
  match dict_get k d with
  | Some v => v
  | None => VNone
  end.

(* ================================================================== *)
(** ** The rule engine *)

(** [operator.eq] and [operator.ne], the two relations the code defines
    ([equals], [does_not_equal]). *)
Inductive relop : Type :=
| equals
| does_not_equal.

Definition apply_relop (op : relop) (l r : pyval) : bool :=
  match op with
  | equals => pyval_eqb l r
  | does_not_equal => negb (pyval_eqb l r)
  end.

(** An operand of a relation: an [Option], looked up in the values, or a
    literal. *)
Inductive operand : Type :=
| Ref (o : Option)
| Lit (v : pyval).

Definition operand_value (x : operand) (values : dict) : result pyval :=
  match x with
  | Ref o => dict_getitem o values
  | Lit v => Ok v
  end.

(** [relation(relop, lhs, rhs, values)] *)
Definition relation (op : relop) (lhs rhs : operand) (values : dict) : result bool :=
  l <- operand_value lhs values ;;
  r <- operand_value rhs values ;;
  Ok (apply_relop op l r).

(** [condition = namedtuple('condition', 'option rel expected message')] *)
Record condition : Type := mkCondition {
  c_option : Option;
  c_rel : relop;
  c_expected : operand;
  c_message : string
}.

(** The joiner handed to [Rule]: the builtin [all], the builtin [any], or
    anything else. *)
Inductive joiner_fn : Type :=
| py_all
| py_any
| py_other.

(** [joiners = {all: (' and ', False), any: (' or ', True)}] *)
Definition joiners (j : joiner_fn) : option (string * bool) :=
  match j with
  | py_all => Some (" and ", false)
  | py_any => Some (" or ", true)
  | py_other => None
  end.

(** [joiner(results)] *)
Definition apply_joiner (j : joiner_fn) (results : list bool) : bool :=
  match j with
  | py_all => forallb (fun b => b) results
  | py_any => existsb (fun b => b) results
  | py_other => false
  end.

(** What the closure [rule_check] captures. *)
Record Rule : Type := mkRule {
  processed_conditions : list condition;
  joiner : joiner_fn;
  rule_joiner : string;
  break_on_true : bool
}.

(** [Rule.__init__] *)
Definition Rule_init (conditions : list condition) (j : joiner_fn) : result Rule :=
  match joiners j with
  | Some (rj, brk) => Ok (mkRule conditions j rj brk)
  | None => Raise (ValueError "Invalid joiner")
  end.

(** [Rule.predicate(option, rel, expected)(values)] *)
Definition predicate (c : condition) (values : dict) : result bool :=
  relation (c_rel c) (Ref (c_option c)) (c_expected c) values.

(** [l.append(x)] *)
Definition list_append {A : Type} (l : list A) (x : A) : list A := (l ++ [x])%list.

(** The [for] loop of [rule_check], with its two accumulators. *)
Fixpoint rule_loop (conds : list condition) (brk : bool) (values : dict)
    (messages : list string) (results : list bool)
  : result (list string * list bool) :=
  match conds with
  | [] => Ok (messages, results)
  | next_condition :: rest =>
      test_result <- predicate next_condition values ;;
      let results' := list_append results test_result in
      if test_result then
        let messages' :=
          list_append messages
            (name_key (c_option next_condition) ++ " " ++ c_message next_condition) in
        if brk then Ok (messages', results')
        else rule_loop rest brk values messages' results'
      else rule_loop rest brk values messages results'
  end.

(** [Rule.check], that is the closure [rule_check] *)
Definition Rule_check (r : Rule) (values : dict) : result unit :=
  acc <- rule_loop (processed_conditions r) (break_on_true r) values [] [] ;;
  let '(messages, results) := acc in
  if apply_joiner (joiner r) results
  then Raise (RuleViolation (PyStr.join (rule_joiner r) messages))
  else Ok tt.

Definition rule_HorzVert_None : list condition :=
  [ mkCondition DIMS equals (Lit (VStr "MAPL_DimsHorzVert")) "is equal to MAPL_DimsHorzVert";
    mkCondition VLOCATION equals (Lit (VStr "MAPL_VlocationNone"))
      "is equal to MAPL_VlocationNone" ].

Definition rule_HorzOnly_notNone : list condition :=
  [ mkCondition DIMS equals (Lit (VStr "MAPL_DimsHorzOnly")) "is equal to MAPL_DimsHorzOnly";
    mkCondition VLOCATION does_not_equal (Lit (VStr "MAPL_VlocationNone"))
      "is not equal to MAPL_VlocationNone" ].

Fixpoint check_rules (rules : list Rule) (values : dict) : result unit :=
  match rules with
  | [] => Ok tt
  | rule :: rest => _ <- Rule_check rule values ;; check_rules rest values
  end.

(** [check_option_values]: both rules use the default joiner [all] *)
Definition check_option_values (values : dict) : result unit :=
  rule1 <- Rule_init rule_HorzVert_None py_all ;;
  rule2 <- Rule_init rule_HorzOnly_notNone py_all ;;
  check_rules [rule1; rule2] values.

(* ================================================================== *)
(** ** Digestion *)

(** [RANKS[dims]] *)
Definition RANKS_getitem (dims : pyval) : result Z :=
  match dims with
  | VStr d =>
      match str_lookup d RANKS with
      | Some rank => Ok rank
      | None => Raise (KeyError (KValue dims))
      end
  | _ => Raise (KeyError (KValue dims))
  end.

(** [compute_rank(dims, ungridded)] *)
Definition compute_rank (dims ungridded : pyval) : result Z :=
  extra_rank <-
    (if truthy ungridded then
       match ungridded with
       | VStr u => Ok (Z.of_nat (List.length (PyStr.split "," (PyStr.strip_chars "][" u))))
       | _ => Raise AttributeError
       end
     else Ok 0) ;;
  base <- RANKS_getitem dims ;;
  Ok (base + extra_rank).

(** A raw row: the columns of one spec with their cells, in order. *)
Definition raw_spec : Type := list (string * string).

(** The variables of the body of [digest] for one spec. *)
Record digest_vars : Type := mkVars {
  option_values : dict;
  dims : pyval;
  ungridded : pyval
}.

(** One turn of [for column in spec] *)
Definition digest_column (st : digest_vars) (col : string * string) : result digest_vars :=
  let '(column, column_value) := col in
  option <- Option_getitem (PyStr.upper column) ;;
  let option_value := Option_call option column_value in
  let values := dict_set option option_value (option_values st) in
  if Option_eqb option SHORT_NAME then
    let values := dict_set MANGLED_NAME (Option_call MANGLED_NAME column_value) values in
    let values := dict_set INTERNAL_NAME (Option_call INTERNAL_NAME column_value) values in
    Ok (mkVars values (dims st) (ungridded st))
  else if Option_eqb option DIMS then
    Ok (mkVars values option_value (ungridded st))
  else if Option_eqb option UNGRIDDED then
    Ok (mkVars values (dims st) option_value)
  else Ok (mkVars values (dims st) (ungridded st)).

Fixpoint digest_columns (spec : raw_spec) (st : digest_vars) : result digest_vars :=
  match spec with
  | [] => Ok st
  | col :: rest => st' <- digest_column st col ;; digest_columns rest st'
  end.

(** [for option in mandatory_options: if option not in option_values: raise] *)
Fixpoint check_mandatory (options : list Option) (values : dict) : result unit :=
  match options with
  | [] => Ok tt
  | option :: rest =>
      if dict_contains option values then check_mandatory rest values
      else Raise (MissingMandatoryOption (name option ++ " is missing from spec."))
  end.

Definition digest_init : digest_vars := mkVars [] VNone VNone.

(** The body of [for spec in specs[category]]: one raw row to one record *)
Definition digest_spec (spec : raw_spec) : result dict :=
  st <- digest_columns spec digest_init ;;
  _ <- check_mandatory get_mandatory_options (option_values st) ;;
  rank <- compute_rank (dims st) (ungridded st) ;;
  let values := dict_set RANK (VInt rank) (option_values st) in
  _ <- check_option_values values ;;
  Ok values.

Fixpoint digest_category (specs : list raw_spec) : result (list dict) :=
  match specs with
  | [] => Ok []
  | spec :: rest =>
      values <- digest_spec spec ;;
      category_specs <- digest_category rest ;;
      Ok (values :: category_specs)
  end.

(** [digest(specs)] *)
Fixpoint digest (specs : list (string * list raw_spec)) : result (list (string * list dict)) :=
  match specs with
  | [] => Ok []
  | (category, rows) :: rest =>
      category_specs <- digest_category rows ;;
      digested_specs <- digest rest ;;
      Ok ((category, category_specs) :: digested_specs)
  end.

(* ================================================================== *)
(** ** Boolean canonicalization *)

Definition TRUE_VALUE : string := ".true.".
Definition FALSE_VALUE : string := ".false.".

Definition TRUE_VALUES : list string :=
  [ TRUE_VALUE; "t"; "true"; ".t."; "yes"; "y"; "si"; "oui"; "sim" ].

Definition FALSE_VALUES : list string :=
  [ FALSE_VALUE; "f"; "false"; ".f."; "no"; "n"; "no"; "non"; "nao" ].

(** [get_fortran_logical(value_in)] *)
Definition get_fortran_logical (value_in : pyval) : result string :=
  match value_in with
  | VNone => Raise (ValueError "'None' is not valid for get_fortran_logical.")
  | VStr s =>
      if PyStr.contains TRUE_VALUES (PyStr.lower (PyStr.strip s)) then Ok TRUE_VALUE
      else if PyStr.contains FALSE_VALUES (PyStr.lower (PyStr.strip s)) then Ok FALSE_VALUE
      else Raise (ValueError ("Unrecognized logical: " ++ s))
  | VInt _ => Raise AttributeError
  end.

(* ================================================================== *)
(** ** Emission: [class MAPL_DataSpec]

    A method that changes [self.indent] returns the object it leaves
    behind together with its text. *)

(** [text + value]: only a [str] can be appended to a [str] *)
Definition str_add (text : string) (v : pyval) : result string :=
  match v with
  | VStr s => Ok (text ++ s)
  | _ => Raise TypeError
  end.

(** [sep.join(items)] on a list of values *)
Fixpoint as_strs (items : list pyval) : result (list string) :=
  match items with
  | [] => Ok []
  | VStr s :: rest => strs <- as_strs rest ;; Ok (s :: strs)
  | _ :: _ => Raise TypeError
  end.

Definition join_values (sep : string) (items : list pyval) : result string :=
  strs <- as_strs items ;; Ok (PyStr.join sep strs).

Module MAPL_DataSpec.

Record t : Type := mk {
  category : string;
  indent : Z;
  mangled_name : pyval;
  internal_name : pyval;
  condition : pyval;
  spec_values : dict
}.

Definition DELIMITER : string := ", ".
Definition TERMINATOR : string := "_RC)".

(** [__init__(self, category, spec_values, indent=3)] *)
Definition init (category : string) (spec_values : dict) (indent : Z) : result t :=
  mangled <- dict_getitem MANGLED_NAME spec_values ;;
  internal <- dict_getitem INTERNAL_NAME spec_values ;;
  Ok (mk category indent mangled internal
        (dict_get_default CONDITION spec_values) spec_values).

(** [self.indent = n] *)
Definition set_indent (self : t) (n : Z) : t :=
  mk (category self) n (mangled_name self) (internal_name self)
     (condition self) (spec_values self).

Definition newline (self : t) : string :=
  PyStr.LF ++ PyStr.mul " " (indent self).

Definition continue_line (self : t) : string :=
  "&" ++ newline self ++ "& ".

Definition emit_header (self : t) : result (string * t) :=
  let text := newline self in
  let condition := condition self in
  if truthy condition then
    let self := set_indent self (indent self + 3) in
    text <- str_add (text ++ "if (") condition ;;
    Ok (text ++ ") then" ++ newline self, self)
  else Ok (text, self).

Definition emit_arg (self : t) (option : Option) : result string :=
  let value := dict_get_default option (spec_values self) in
  if truthy value then
    text <- str_add (name_key option ++ "=") value ;;
    Ok (text ++ DELIMITER ++ continue_line self)
  else Ok "".

(** [for option in self.spec_values: if option.output: ...] *)
Fixpoint emit_args_loop (self : t) (keys : list Option) (text : string) : result string :=
  match keys with
  | [] => Ok text
  | option :: rest =>
      if output option then
        arg <- emit_arg self option ;;
        emit_args_loop self rest (text ++ arg)
      else emit_args_loop self rest text
  end.

Definition emit_args (self : t) : result (string * t) :=
  let self := set_indent self (indent self + 5) in
  let text :=
    "call MAPL_Add" ++ PyStr.capitalize (category self) ++ "Spec(gc,"
    ++ continue_line self in
  text <- emit_args_loop self (List.map fst (spec_values self)) text ;;
  let text := text ++ TERMINATOR ++ newline self in
  let self := set_indent self (indent self - 5) in
  Ok (text, self).

Definition emit_trailer (nullify : bool) (self : t) : result (string * t) :=
  if truthy (condition self) then
    let self := set_indent self (indent self - 3) in
    let name := internal_name self in
    let text := newline self in
    text <-
      (if nullify then
         let text := text ++ "else" ++ newline self in
         text <- str_add (text ++ "   nullify(") name ;;
         Ok (text ++ ")" ++ newline self)
       else Ok text) ;;
    Ok (text ++ "endif" ++ newline self, self)
  else Ok (newline self, self).

(** [emit_header() + emit_args() + emit_trailer(nullify=False)] *)
Definition emit_specs (self : t) : result (string * t) :=
  h <- emit_header self ;;
  a <- emit_args (snd h) ;;
  tr <- emit_trailer false (snd a) ;;
  Ok (fst h ++ fst a ++ fst tr, snd tr).

(** [self.spec_values[Option.RANK] - 1] needs an [int] *)
Definition rank_of (self : t) : result Z :=
  rank <- dict_getitem RANK (spec_values self) ;;
  match rank with
  | VInt n => Ok n
  | _ => Raise TypeError
  end.

Definition emit_declare_pointers (self : t) : result (string * t) :=
  rank <- rank_of self ;;
  let dimension := "dimension(:" ++ PyStr.mul ",:" (rank - 1) ++ ")" in
  let text := newline self ++ "real" in
  let text :=
    if dict_contains PRECISION (spec_values self) then
      let kind := dict_get_default PRECISION (spec_values self) in
      text ++ "(kind=" ++ py_str kind ++ ")"
    else text in
  text <- str_add (text ++ ", pointer, " ++ dimension ++ " :: ") (internal_name self) ;;
  Ok (text, self).

Definition emit_pointer_alloc (self : t) : result (list string) :=
  let key := ALLOC in
  let value := dict_get_default key (spec_values self) in
  if truthy value then
    match value with
    | VStr s =>
        let value := PyStr.lower (PyStr.strip s) in
        if (0 <? Z.of_nat (String.length value)) then
          logical <- get_fortran_logical (VStr value) ;;
          Ok [name_key key ++ "=" ++ logical]
        else Ok []
    | _ => Raise AttributeError
    end
  else Ok [].

Definition emit_get_pointers (self : t) : result (string * t) :=
  h <- emit_header self ;;
  let self := snd h in
  let first := fst h ++ "call MAPL_GetPointer(" ++ category self in
  alloc <- emit_pointer_alloc self ;;
  tr <- emit_trailer true self ;;
  text <- join_values DELIMITER
            ([VStr first; internal_name self; mangled_name self]
             ++ List.map VStr alloc ++ [VStr (TERMINATOR ++ fst tr)])%list ;;
  Ok (text, snd tr).

End MAPL_DataSpec.

(* ================================================================== *)
(** ** The words of the specification

    Definitions that follow the specification's text rather than the
    code; the theorems below compare the code against them. *)

(** "base-rank is a fixed small lookup (vertical-only -> 1,
    horizontal-only -> 2, horizontal+vertical -> 3)" *)
Definition baseRank (d : string) : option Z :=
  if String.eqb d "MAPL_DimsVertOnly" then Some 1
  else if String.eqb d "MAPL_DimsHorzOnly" then Some 2
  else if String.eqb d "MAPL_DimsHorzVert" then Some 3
  else None.

Fixpoint count_char (c : ascii) (s : string) : nat :=
  match s with
  | EmptyString => O
  | String d s' => if Ascii.eqb d c then S (count_char c s') else count_char c s'
  end.

(** "the number of comma-separated tokens": one more than the number of
    commas *)
Definition commaCount (body : string) : Z := Z.of_nat (S (count_char "," body)).

(** A column with one of the names of option [o] occurs in the row. *)
Definition resolves_to (o : Option) (column : string) : bool :=
  match Option_getitem (PyStr.upper column) with
  | Ok o' => Option_eqb o' o
  | Raise _ => false
  end.

Definition has_column (o : Option) (spec : raw_spec) : bool :=
  existsb (fun col => resolves_to o (fst col)) spec.

(** Every column name of the row is a name of the schema. *)
Definition resolves (column : string) : bool :=
  match Option_getitem (PyStr.upper column) with
  | Ok _ => true
  | Raise _ => false
  end.

Definition all_resolve (spec : raw_spec) : bool :=
  forallb (fun col => resolves (fst col)) spec.

(** The two joiner kinds of the specification. *)
Inductive JoinerKind : Type :=
| AllMustHold
| AnyMayHold.

Definition kind_of (j : joiner_fn) : option JoinerKind :=
  match j with
  | py_all => Some AllMustHold
  | py_any => Some AnyMayHold
  | py_other => None
  end.

(** The value an operand stands for in a map that supplies it. *)
Definition operand_denotes (x : operand) (values : dict) : pyval :=
  match x with
  | Ref o => dict_get_default o values
  | Lit v => v
  end.

(** The individual result of a condition. *)
Definition holds (values : dict) (c : condition) : bool :=
  apply_relop (c_rel c) (dict_get_default (c_option c) values)
    (operand_denotes (c_expected c) values).

Definition supplied (values : dict) (x : operand) : bool :=
  match x with
  | Ref o => dict_contains o values
  | Lit _ => true
  end.

(** The map supplies every attribute named in the conditions. *)
Definition supplies (values : dict) (conds : list condition) : bool :=
  forallb (fun c => dict_contains (c_option c) values && supplied values (c_expected c))%bool
    conds.

(** "stop iterating at the first true result" *)
Fixpoint upto_first_true (values : dict) (conds : list condition) : list condition :=
  match conds with
  | [] => []
  | c :: rest => if holds values c then [c] else c :: upto_first_true values rest
  end.

(** The conditions that are evaluated. *)
Definition evaluated (k : JoinerKind) (values : dict) (conds : list condition)
  : list condition :=
  match k with
  | AllMustHold => conds
  | AnyMayHold => upto_first_true values conds
  end.

(** "AllMustHold aggregate is true iff every evaluated condition was true;
    AnyMayHold aggregate is true iff at least one was true" *)
Definition aggregate (k : JoinerKind) (values : dict) (conds : list condition) : bool :=
  match k with
  | AllMustHold => forallb (holds values) (evaluated k values conds)
  | AnyMayHold => existsb (holds values) (evaluated k values conds)
  end.

Definition separator (k : JoinerKind) : string :=
  match k with
  | AllMustHold => " and "
  | AnyMayHold => " or "
  end.

Definition phrase (c : condition) : string :=
  name_key (c_option c) ++ " " ++ c_message c.

(** "the join of each condition's (attribute-name + " " + message) for
    every condition whose individual result was true" *)
Definition violation_message (k : JoinerKind) (values : dict) (conds : list condition)
  : string :=
  PyStr.join (separator k)
    (List.map phrase (List.filter (holds values) (evaluated k values conds))).

Definition Rule_check_spec (k : JoinerKind) (values : dict) (conds : list condition)
  : result unit :=
  if aggregate k values conds
  then Raise (RuleViolation (violation_message k values conds))
  else Ok tt.




(** A dimension list with [n] dimensions: [:,:,...,:] *)
Definition dimension_list (n : nat) : string := PyStr.join "," (List.repeat ":" n).

(** The kind qualifier of a declaration. *)
Definition kind_qualifier (values : dict) : string :=
  match dict_get PRECISION values with
  | Some kind => "(kind=" ++ py_str kind ++ ")"
  | None => ""
  end.

(** The long and the short spelling of the keys that have both. *)
Definition alias_pairs : list (string * string) :=
  [ ("SHORT_NAME", "NAME"); ("LONG_NAME", "LONG NAME"); ("VLOCATION", "VLOC");
    ("ADD2EXPORT", "ADDEXP"); ("UNGRIDDED", "UNGRID"); ("FRIENDLYTO", "FRIEND2");
    ("PRECISION", "PREC"); ("NUM_SUBTILES", "NUMSUBS");
    ("AVERAGING_INTERVAL", "AVINT"); ("CONDITION", "COND") ].

Definition is_alias_pair (a b : string) : bool :=
  existsb (fun p => String.eqb a (fst p) && String.eqb b (snd p))%bool alias_pairs.

(** Two column names spell the same key: equal up to case, or the long and
    the short spelling of one key up to case. *)
Definition same_key (c1 c2 : string) : bool :=
  (String.eqb (PyStr.upper c1) (PyStr.upper c2)
   || is_alias_pair (PyStr.upper c1) (PyStr.upper c2)
   || is_alias_pair (PyStr.upper c2) (PyStr.upper c1))%bool.

(** Two rows that differ only in the spelling of their column names. *)
Definition same_row (spec1 spec2 : raw_spec) : Prop :=
  Forall2 (fun a b => same_key (fst a) (fst b) = true /\ snd a = snd b) spec1 spec2.

(** The record holds the token under the attribute. *)
Definition attribute_is (o : Option) (token : string) (values : dict) : Prop :=
  dict_get o values = Some (VStr token).

(** The record holds a value under the attribute, and the value ([None]
    included) is not the token. *)
Definition attribute_is_not (o : Option) (token : string) (values : dict) : Prop :=
  exists v, dict_get o values = Some v /\ v <> VStr token.

(** The first of the options that no column of the row names. *)
Definition first_missing (options : list Option) (spec : raw_spec) : option Option :=
  List.find (fun o => negb (has_column o spec)) options.


(** "a row whose columns all resolve but that omits the units column fails
    with a missing-mandatory-option error that names units" *)
Definition omitted_units_is_named (spec : raw_spec) : Prop :=
  all_resolve spec = true -> has_column UNITS spec = false ->
  digest_spec spec = Raise (MissingMandatoryOption (name UNITS ++ " is missing from spec.")).



Definition row_no_units_no_long_name : raw_spec :=
  [ ("NAME", "T"); ("DIMS", "xyz"); ("VLOC", "C") ].

Definition row_no_units : raw_spec :=
  [ ("NAME", "T"); ("LONG NAME", "temperature"); ("DIMS", "q"); ("VLOC", "C") ].




(** The step by which a conditional guard moves the indent. *)
Definition guard_step (condition : pyval) : Z := if truthy condition then 3 else 0.

Definition row_full : raw_spec :=
  [ ("NAME", "T*"); ("LONG NAME", "temperature"); ("UNITS", "K"); ("DIMS", "xyz");
    ("VLOC", "C"); ("UNGRID", "a,b"); ("COND", "do_it"); ("PREC", "8");
    ("ALLOC", " Yes ") ].

(** The object the generator builds for [row_full] in the export category. *)
Definition spec_full : result MAPL_DataSpec.t :=
  record <- digest_spec row_full ;; MAPL_DataSpec.init "export" record 3.

(** The text of the pointer declaration the generator writes for a record. *)
Definition declare_text (category : string) (values : dict) (indent : Z) : result string :=
  self <- MAPL_DataSpec.init category values indent ;;
  r <- MAPL_DataSpec.emit_declare_pointers self ;;
  Ok (fst r).

Definition row_long_spellings : raw_spec :=
  [ ("SHORT_NAME", "T*"); ("LONG_NAME", "temperature"); ("UNITS", "K"); ("DIMS", "z");
    ("VLOCATION", "C"); ("UNGRIDDED", "a,b"); ("CONDITION", "do_it") ].

Definition row_short_spellings : raw_spec :=
  [ ("name", "T*"); ("Long Name", "temperature"); ("units", "K"); ("dims", "z");
    ("vloc", "C"); ("ungrid", "a,b"); ("cond", "do_it") ].

(* ================================================================== *)
(** ** Invariants, outcomes and sample rows used by the theorems *)

(** The two local variables of [digest] always hold what the dictionary
    holds under [DIMS] and [UNGRIDDED]. *)
Definition tracked (st : digest_vars) : Prop :=
  dims st = dict_get_default DIMS (option_values st)
  /\ ungridded st = dict_get_default UNGRIDDED (option_values st).

(** Every value a row puts into the dictionary is [None] or a [str]. *)
Definition none_or_str (v : pyval) : Prop := v = VNone \/ exists s, v = VStr s.

Definition all_none_or_str (d : dict) : Prop :=
  forall k v, dict_get k d = Some v -> none_or_str v.

Definition row_vert_two_ungridded : raw_spec :=
  [ ("NAME", "T"); ("LONG NAME", "temperature"); ("UNITS", "K");
    ("DIMS", "z"); ("VLOC", "C"); ("UNGRID", "a,b") ].

Definition HorzVert_None_message : string :=
  "dims is equal to MAPL_DimsHorzVert" ++ " and " ++ "vlocation is equal to MAPL_VlocationNone".

Definition HorzOnly_notNone_message : string :=
  "dims is equal to MAPL_DimsHorzOnly" ++ " and "
  ++ "vlocation is not equal to MAPL_VlocationNone".

(** The outcome of digestion for a row that is past the mandatory check. *)
Definition outcome_by_rules (d : string) (vloc : option pyval) (record : dict) : result dict :=
  match vloc with
  | None => Raise (KeyError (KOption VLOCATION))
  | Some vv =>
      if (String.eqb d "MAPL_DimsHorzVert"
          && pyval_eqb vv (VStr "MAPL_VlocationNone"))%bool
      then Raise (RuleViolation HorzVert_None_message)
      else if (String.eqb d "MAPL_DimsHorzOnly"
               && negb (pyval_eqb vv (VStr "MAPL_VlocationNone")))%bool
      then Raise (RuleViolation HorzOnly_notNone_message)
      else Ok record
  end.

Definition row_HorzVert_None : raw_spec :=
  [ ("NAME", "T"); ("LONG NAME", "temperature"); ("UNITS", "K");
    ("DIMS", "xyz"); ("VLOC", "N") ].

Definition values_HorzVert_None : dict :=
  [ (DIMS, VStr "MAPL_DimsHorzVert"); (VLOCATION, VStr "MAPL_VlocationNone") ].

(** The two derived names are stored whenever the short name is. *)
Definition derived_names_present (d : dict) : Prop :=
  dict_contains SHORT_NAME d = true ->
  dict_contains MANGLED_NAME d = true /\ dict_contains INTERNAL_NAME d = true.

(** The values of the options that go into the registration call are
    [None] or a [str]. *)
Definition output_values_str (d : dict) : Prop :=
  forall k v, output k = true -> dict_get k d = Some v -> none_or_str v.

(* ================================================================== *)
(** ** Further definitions: the enumeration, the last cell of a key *)

(** No string occurs twice. *)
Fixpoint distinct (l : list string) : bool :=
  match l with
  | [] => true
  | x :: rest => (negb (PyStr.contains rest x) && distinct rest)%bool
  end.

(** The cell of the last column of the row that names option [o]. *)
Fixpoint last_cell (o : Option) (spec : raw_spec) : option string :=
  match spec with
  | [] => None
  | (column, cell) :: rest =>
      match last_cell o rest with
      | Some later => Some later
      | None => if resolves_to o column then Some cell else None
      end
  end.

Definition row_units_twice : raw_spec :=
  [ ("NAME", "T"); ("LONG NAME", "temperature"); ("UNITS", "K");
    ("DIMS", "xyz"); ("VLOC", "C"); ("units", "degC") ].


(** A row with a column that the schema does not know, after the
    mandatory columns were left out. *)
Definition row_unknown_column : raw_spec :=
  [ ("NAME", "T"); ("COLOUR", "red"); ("DIMS", "xyz") ].

(** [m in members], decided *)
Definition is_member (members : list Option) (m : Option) : bool :=
  existsb (Option_eqb m) members.

(** The conditions of the first validator, to be joined with [any]. *)
Definition rule_any_two : list condition :=
  [ mkCondition DIMS equals (Lit (VStr "MAPL_DimsHorzVert")) "is equal to MAPL_DimsHorzVert";
    mkCondition VLOCATION equals (Lit (VStr "MAPL_VlocationNone"))
      "is equal to MAPL_VlocationNone" ].


(** The object with other values in its dictionary. *)
Definition with_spec_values (self : MAPL_DataSpec.t) (values : dict) : MAPL_DataSpec.t :=
  MAPL_DataSpec.mk (MAPL_DataSpec.category self) (MAPL_DataSpec.indent self)
    (MAPL_DataSpec.mangled_name self) (MAPL_DataSpec.internal_name self)
    (MAPL_DataSpec.condition self) values.

(** The object with another condition. *)
Definition with_condition (self : MAPL_DataSpec.t) (condition : pyval) : MAPL_DataSpec.t :=
  MAPL_DataSpec.mk (MAPL_DataSpec.category self) (MAPL_DataSpec.indent self)
    (MAPL_DataSpec.mangled_name self) (MAPL_DataSpec.internal_name self)
    condition (MAPL_DataSpec.spec_values self).

(** An entry that the registration call shows: an output option with a
    true value. *)
Definition shown (entry : Option * pyval) : bool :=
  (output (fst entry) && truthy (snd entry))%bool.

(** The text of a fragment, without the object it leaves behind. *)
Definition text_of (r : result (string * MAPL_DataSpec.t)) : result string :=
  x <- r ;; Ok (fst x).

(** The line break at a given indent. *)
Definition newline_at (indent : Z) : string := PyStr.LF ++ PyStr.mul " " indent.

(** The loop of [emit_args] run on the entries of a dictionary, each with
    its own value. *)
Fixpoint args_of_entries (continue_line : string) (entries : dict) (text : string)
  : result string :=
  match entries with
  | [] => Ok text
  | (option, value) :: rest =>
      if shown (option, value) then
        arg <- str_add (name_key option ++ "=") value ;;
        args_of_entries continue_line rest
          (text ++ arg ++ MAPL_DataSpec.DELIMITER ++ continue_line)
      else args_of_entries continue_line rest text
  end.

(** A row whose short-name cell is empty. *)
Definition row_empty_name : raw_spec :=
  [ ("NAME", ""); ("LONG NAME", "temperature"); ("UNITS", "K");
    ("DIMS", "xyz"); ("VLOC", "C") ].

(* ================================================================== *)
(** ** Reading the specs: [read_specs]

    The rows are taken as [csv.reader] yields them, one list of cells for
    each line and the empty list for a blank line; [read_specs] is the
    function of these rows.  A generator over the shared reader is a
    function of the rows that are left; the loop [while True] runs on a
    fuel that the rows bound. *)

Definition csv_row : Type := list string.

(** The two exceptions of the reader that [read_specs] can end with. *)
Inductive read_exn : Type :=
| StopIteration
| IndexError.

Inductive read_result (A : Type) : Type :=
| Read (a : A)
| Fail (e : read_exn).

Arguments Read {A} a.
Arguments Fail {A} e.

Definition read_bind {A B : Type} (r : read_result A) (k : A -> read_result B)
  : read_result B :=
  match r with
  | Read a => k a
  | Fail e => Fail e
  end.

(** [d[k] = v] for a dictionary with string keys *)
Fixpoint str_set {A : Type} (k : string) (v : A) (d : list (string * A))
  : list (string * A) :=
  match d with
  | [] => [(k, v)]
  | (k', v') :: d' =>
      if String.eqb k k' then (k', v) :: d' else (k', v') :: str_set k v d'
  end.

(** [s.split()]: the words between runs of white space *)
Fixpoint split_ws (s : string) : list string :=
  match s with
  | EmptyString => []
  | String c s' =>
      if PyStr.isspace c then split_ws s'
      else match s' with
           | EmptyString => [String c EmptyString]
           | String d _ =>
               if PyStr.isspace d then String c EmptyString :: split_ws s'
               else match split_ws s' with
                    | w :: ws => String c w :: ws
                    | [] => [String c EmptyString]
                    end
           end
  end.

(** [l[n]] *)
Definition item {A : Type} (l : list A) (n : nat) : read_result A :=
  match nth_error l n with
  | Some a => Read a
  | None => Fail IndexError
  end.

(** [row[0].startswith('#')] *)
Definition is_comment (row : csv_row) : bool :=
  match row with
  | cell :: _ => String.prefix "#" cell
  | [] => false
  end.

(** What [next(gen)] gives: a row, or the end of the generator, each with
    the rows left in the reader. *)
Inductive gen_step : Type :=
| Yield (row : csv_row) (rest : list csv_row)
| Stop (rest : list csv_row).

(** [csv_record_reader]: the generator run from its local
    [prev_row_blank] to its next [yield] or to its end. *)
Fixpoint csv_record_reader (prev_row_blank : bool) (rows : list csv_row) : gen_step :=
  match rows with
  | [] => Stop []
  | row :: rest =>
      if negb (Nat.eqb (List.length row) 0) then
        if is_comment row then csv_record_reader prev_row_blank rest
        else Yield (List.map PyStr.strip row) rest
      else if negb prev_row_blank then Stop rest
      else csv_record_reader prev_row_blank rest
  end.

(** [for row in reader]: every row the generator yields until it ends, and
    the rows left in the reader. *)
Fixpoint records (prev_row_blank : bool) (rows : list csv_row)
  : list csv_row * list csv_row :=
  match rows with
  | [] => ([], [])
  | row :: rest =>
      if negb (Nat.eqb (List.length row) 0) then
        if is_comment row then records prev_row_blank rest
        else (List.map PyStr.strip row :: fst (records false rest),
              snd (records false rest))
      else if negb prev_row_blank then ([], rest)
      else records prev_row_blank rest
  end.

(** [dict(zip(columns, row))] *)
Definition dict_of_pairs (pairs : list (string * string)) : raw_spec :=
  fold_left (fun d kv => str_set (fst kv) (snd kv) d) pairs [].

(** [dataframe(reader, columns)], on the rows the reader yields *)
Definition dataframe (yielded : list csv_row) (columns : list string) : list raw_spec :=
  List.map (fun row => dict_of_pairs (List.combine columns row)) yielded.

Definition specs_dict : Type := list (string * list raw_spec).

(** The loop [while True] of [read_specs].  [None] when the fuel ends. *)
Fixpoint read_blocks (fuel : nat) (rows : list csv_row) (specs : specs_dict)
  : option (read_result specs_dict) :=
  match fuel with
  | O => None
  | S fuel' =>
      match csv_record_reader true rows with
      | Stop _ => Some (Read specs)
      | Yield row1 rest1 =>
          match read_bind (item row1 0) (fun cell => item (split_ws cell) 1) with
          | Fail e => Some (Fail e)
          | Read category =>
              match csv_record_reader false rest1 with
              | Stop _ => Some (Read specs)
              | Yield bare_columns rest2 =>
                  let bare_columns := List.map PyStr.strip bare_columns in
                  let columns := List.map PyStr.upper bare_columns in
                  let df := dataframe (fst (records false rest2)) columns in
                  read_blocks fuel' (snd (records false rest2))
                    (str_set category df specs)
              end
          end
      end
  end.

(** [read_specs], after [csv.reader] *)
Definition read_specs (rows : list csv_row) : option (read_result specs_dict) :=
  match csv_record_reader true rows with
  | Stop _ => Some (Fail StopIteration)
  | Yield row1 rest1 =>
      match read_bind (item row1 0) (fun cell => item (PyStr.split " " cell) 1) with
      | Fail e => Some (Fail e)
      | Read schema_version =>
          match csv_record_reader false rest1 with
          | Stop _ => Some (Fail StopIteration)
          | Yield row2 rest2 =>
              match read_bind (item row2 0) (fun cell => item (PyStr.split " " cell) 1) with
              | Fail e => Some (Fail e)
              | Read component => read_blocks (S (List.length rest2)) rest2 []
              end
          end
      end
  end.

(** The rows that are no comment. *)
Definition without_comments (rows : list csv_row) : list csv_row :=
  List.filter (fun row => negb (is_comment row)) rows.

(** A small state file: header, one block, a comment, a second block. *)
Definition sample_rows : list csv_row :=
  [ ["schema_version: 2.0.0"]; ["component: Sample"]; [];
    ["category: IMPORT"];
    [" name "; "units"; "dims"; "vloc"; "long name"];
    ["# a comment"];
    ["T"; "K"; "xyz"; "C"; "temperature"];
    ["PS"; "Pa"; "xy"; "N"];
    [];
    ["category: EXPORT"];
    ["NAME"; "UNITS"; "DIMS"; "VLOC"; "LONG NAME"; "UNGRID"];
    ["Q*"; "1"; "z"; "E"; "humidity"; "a,b"] ].

(** A row dictionary as [read_specs] builds it: no column twice, column
    names in upper case, cells stripped. *)
Definition read_row_ok (row : raw_spec) : Prop :=
  NoDup (List.map fst row)
  /\ forall k v, In (k, v) row -> PyStr.upper k = k /\ PyStr.strip v = v.

Definition read_specs_ok (specs : specs_dict) : Prop :=
  NoDup (List.map fst specs)
  /\ forall category rows, In (category, rows) specs -> Forall read_row_ok rows.


(* ================================================================== *)
(** ** ASCII text *)




(* ================================================================== *)
(** ** The wildcard, in other words *)

(** [name] with every occurrence of the character [c] taken out. *)
Fixpoint without_char (c : ascii) (name : string) : string :=
  match name with
  | EmptyString => EmptyString
  | String d rest =>
      if Ascii.eqb d c then without_char c rest else String d (without_char c rest)
  end.

(** The pieces of [name] between its wildcards, joined by the expression of
    the component name at run time. *)
Definition with_component_name (name : string) : string :=
  PyStr.join "'//trim(comp_name)//'" (PyStr.split "*" name).

(* ================================================================== *)
(** ** The pointer declaration, as claimed *)

(** "The pointer-declaration fragment declares a pointer variable", for the
    record of a row: the declaration of the object built from the record is
    produced. *)
Definition declaration_is_produced (spec : raw_spec) : Prop :=
  forall (record : dict) (category : string) (indent : Z) (self : MAPL_DataSpec.t),
    digest_spec spec = Ok record ->
    MAPL_DataSpec.init category record indent = Ok self ->
    exists text : string, MAPL_DataSpec.emit_declare_pointers self = Ok (text, self).

(* ================================================================== *)
(** ** Equality tests and dictionaries *)

Lemma emitter_eqb_eq (a b : emitter) : emitter_eqb a b = true <-> a = b.
Proof.
  split.
  - destruct a, b; simpl; intro H; try reflexivity; discriminate H.
  - intros ->. destruct b; reflexivity.
Qed.

Lemma OptionValue_eqb_eq (a b : OptionValue) : OptionValue_eqb a b = true <-> a = b.
Proof.
  destruct a as [k1 e1 m1 o1], b as [k2 e2 m2 o2]. unfold OptionValue_eqb. simpl.
  rewrite !andb_true_iff, String.eqb_eq, emitter_eqb_eq, !Bool.eqb_true_iff.
  split.
  - intros [[[-> ->] ->] ->]. reflexivity.
  - intros H. injection H as -> -> -> ->. auto.
Qed.

Lemma Option_eqb_eq (a b : Option) : Option_eqb a b = true <-> a = b.
Proof.
  destruct a as [n1 v1], b as [n2 v2]. unfold Option_eqb. simpl.
  rewrite andb_true_iff, String.eqb_eq, OptionValue_eqb_eq.
  split.
  - intros [-> ->]. reflexivity.
  - intros H. injection H as -> ->. auto.
Qed.

Lemma Option_eqb_refl (a : Option) : Option_eqb a a = true.
Proof. apply Option_eqb_eq. reflexivity. Qed.

Lemma Option_eqb_neq (a b : Option) : Option_eqb a b = false <-> a <> b.
Proof.
  rewrite <- Option_eqb_eq. destruct (Option_eqb a b); split; congruence.
Qed.

Lemma Option_eqb_sym (a b : Option) : Option_eqb a b = Option_eqb b a.
Proof.
  destruct (Option_eqb a b) eqn:E.
  - apply Option_eqb_eq in E. subst. symmetry. apply Option_eqb_refl.
  - symmetry. apply Option_eqb_neq. apply Option_eqb_neq in E. congruence.
Qed.

Lemma dict_get_set_same (k : Option) (v : pyval) (d : dict) :
  dict_get k (dict_set k v d) = Some v.
Proof.
  induction d as [|[k' v'] d IH]; simpl.
  - rewrite Option_eqb_refl. reflexivity.
  - destruct (Option_eqb k k') eqn:E; simpl; rewrite E; auto.
Qed.

Lemma dict_get_set_other (k k' : Option) (v : pyval) (d : dict) :
  Option_eqb k' k = false -> dict_get k' (dict_set k v d) = dict_get k' d.
Proof.
  intro N. induction d as [|[k0 v0] d IH]; simpl.
  - rewrite N. reflexivity.
  - destruct (Option_eqb k k0) eqn:E; simpl.
    + apply Option_eqb_eq in E. subst k0. rewrite N. reflexivity.
    + rewrite IH. reflexivity.
Qed.

Lemma dict_get_remove_other (k k' : Option) (d : dict) :
  Option_eqb k' k = false -> dict_get k' (dict_remove k d) = dict_get k' d.
Proof.
  intro N. induction d as [|[k0 v0] d IH]; simpl; auto.
  destruct (Option_eqb k k0) eqn:E; simpl.
  - apply Option_eqb_eq in E. subst k0. rewrite N. reflexivity.
  - rewrite IH. reflexivity.
Qed.

Lemma dict_contains_set (k k' : Option) (v : pyval) (d : dict) :
  dict_contains k' (dict_set k v d) = (Option_eqb k' k || dict_contains k' d)%bool.
Proof.
  unfold dict_contains. destruct (Option_eqb k' k) eqn:E.
  - apply Option_eqb_eq in E. subst. rewrite dict_get_set_same. reflexivity.
  - rewrite dict_get_set_other by assumption. reflexivity.
Qed.

Lemma dict_get_default_set_same (k : Option) (v : pyval) (d : dict) :
  dict_get_default k (dict_set k v d) = v.
Proof. unfold dict_get_default. rewrite dict_get_set_same. reflexivity. Qed.

Lemma dict_get_default_set_other (k k' : Option) (v : pyval) (d : dict) :
  Option_eqb k' k = false -> dict_get_default k' (dict_set k v d) = dict_get_default k' d.
Proof. intro N. unfold dict_get_default. rewrite dict_get_set_other by assumption. reflexivity. Qed.

(** The enumeration resolves each name the code uses to the member of that
    name, and each second spelling to the member of the first. *)
Lemma Option_members_by_name :
  Option_getitem "SHORT_NAME" = Ok SHORT_NAME /\ Option_getitem "LONG_NAME" = Ok LONG_NAME
  /\ Option_getitem "UNITS" = Ok UNITS /\ Option_getitem "DIMS" = Ok DIMS
  /\ Option_getitem "VLOCATION" = Ok VLOCATION /\ Option_getitem "UNGRIDDED" = Ok UNGRIDDED
  /\ Option_getitem "PRECISION" = Ok PRECISION /\ Option_getitem "CONDITION" = Ok CONDITION
  /\ Option_getitem "ALLOC" = Ok ALLOC /\ Option_getitem "MANGLED_NAME" = Ok MANGLED_NAME
  /\ Option_getitem "INTERNAL_NAME" = Ok INTERNAL_NAME /\ Option_getitem "RANK" = Ok RANK.
Proof. repeat split. Qed.

Lemma get_mandatory_options_eq :
  get_mandatory_options = [SHORT_NAME; LONG_NAME; UNITS; DIMS].
Proof. reflexivity. Qed.

(* ================================================================== *)
(** ** Strings: counting, stripping, splitting *)

Lemma count_char_app (c : ascii) (s t : string) :
  count_char c (s ++ t) = (count_char c s + count_char c t)%nat.
Proof.
  induction s as [|d s IH]; simpl; auto.
  destruct (Ascii.eqb d c); simpl; rewrite IH; reflexivity.
Qed.

Lemma count_char_lstrip (p : ascii -> bool) (c : ascii) (s : string) :
  p c = false -> count_char c (PyStr.lstrip_by p s) = count_char c s.
Proof.
  intro Hc. induction s as [|d s IH]; simpl; auto.
  destruct (p d) eqn:Hd; simpl; auto.
  destruct (Ascii.eqb d c) eqn:E; auto.
  apply Ascii.eqb_eq in E. congruence.
Qed.

Lemma count_char_rstrip (p : ascii -> bool) (c : ascii) (s : string) :
  p c = false -> count_char c (PyStr.rstrip_by p s) = count_char c s.
Proof.
  intro Hc. induction s as [|d s IH]; simpl; auto.
  destruct (PyStr.rstrip_by p s) as [|e r] eqn:R.
  - simpl in IH. destruct (p d) eqn:Hd; simpl.
    + destruct (Ascii.eqb d c) eqn:E; auto.
      apply Ascii.eqb_eq in E. congruence.
    + rewrite <- IH. reflexivity.
  - simpl in *. destruct (Ascii.eqb d c); rewrite IH; reflexivity.
Qed.

Lemma count_char_strip_by (p : ascii -> bool) (c : ascii) (s : string) :
  p c = false -> count_char c (PyStr.strip_by p s) = count_char c s.
Proof.
  intro Hc. unfold PyStr.strip_by.
  rewrite count_char_rstrip, count_char_lstrip; auto.
Qed.

Lemma split_length (sep : ascii) (s : string) :
  List.length (PyStr.split sep s) = S (count_char sep s).
Proof.
  induction s as [|d s IH]; simpl; auto.
  destruct (Ascii.eqb d sep); simpl.
  - rewrite IH. reflexivity.
  - destruct (PyStr.split sep s) as [|w ws]; simpl in *; [discriminate IH|exact IH].
Qed.

(** The extra rank of a bracketed list is its number of tokens, however
    many brackets the cell itself carried. *)
Lemma extra_rank_bracketed (body : string) :
  Z.of_nat (List.length (PyStr.split "," (PyStr.strip_chars "][" ("[" ++ body ++ "]"))))
  = commaCount body.
Proof.
  unfold commaCount, PyStr.strip_chars.
  rewrite split_length, count_char_strip_by by reflexivity.
  rewrite !count_char_app. simpl. rewrite Nat.add_0_r. reflexivity.
Qed.

Lemma truthy_bracketed (body : string) : truthy (VStr ("[" ++ body ++ "]")) = true.
Proof. reflexivity. Qed.

Lemma RANKS_getitem_baseRank (d : string) (b : Z) :
  baseRank d = Some b -> RANKS_getitem (VStr d) = Ok b.
Proof.
  unfold baseRank, RANKS_getitem. simpl.
  destruct (String.eqb d "MAPL_DimsVertOnly"); [congruence|].
  destruct (String.eqb d "MAPL_DimsHorzOnly"); [congruence|].
  destruct (String.eqb d "MAPL_DimsHorzVert"); [congruence|discriminate].
Qed.

Lemma RANKS_getitem_inv (v : pyval) (b : Z) :
  RANKS_getitem v = Ok b -> exists d, v = VStr d /\ baseRank d = Some b.
Proof.
  unfold RANKS_getitem, baseRank. destruct v as [|d|n]; try discriminate. simpl.
  intro H. exists d. split; [reflexivity|].
  destruct (String.eqb d "MAPL_DimsVertOnly"); [congruence|].
  destruct (String.eqb d "MAPL_DimsHorzOnly"); [congruence|].
  destruct (String.eqb d "MAPL_DimsHorzVert"); [congruence|discriminate].
Qed.

Lemma baseRank_positive (d : string) (b : Z) : baseRank d = Some b -> 1 <= b <= 3.
Proof.
  unfold baseRank.
  destruct (String.eqb d "MAPL_DimsVertOnly"); [intro H; injection H as <-; lia|].
  destruct (String.eqb d "MAPL_DimsHorzOnly"); [intro H; injection H as <-; lia|].
  destruct (String.eqb d "MAPL_DimsHorzVert"); [intro H; injection H as <-; lia|discriminate].
Qed.

(* ================================================================== *)
(** ** Invariants of the column loop *)

Lemma bind_Ok {A B : Type} (r : result A) (k : A -> result B) (b : B) :
  bind r k = Ok b -> exists a, r = Ok a /\ k a = Ok b.
Proof. destruct r as [a|e]; simpl; [eauto|discriminate]. Qed.

(** The shape of one turn of the loop, by the option the column names. *)
Lemma digest_column_cases (st st' : digest_vars) (column cell : string) :
  digest_column st (column, cell) = Ok st' ->
  exists o, Option_getitem (PyStr.upper column) = Ok o /\
    let values := dict_set o (Option_call o cell) (option_values st) in
    (o = SHORT_NAME /\
       st' = mkVars (dict_set INTERNAL_NAME (make_internal_name cell)
                      (dict_set MANGLED_NAME (mangle_name cell) values))
                    (dims st) (ungridded st))
    \/ (o = DIMS /\ st' = mkVars values (DIMS_EMIT cell) (ungridded st))
    \/ (o = UNGRIDDED /\ st' = mkVars values (dims st) (array_emit cell))
    \/ (o <> SHORT_NAME /\ o <> DIMS /\ o <> UNGRIDDED /\
          st' = mkVars values (dims st) (ungridded st)).
Proof.
  unfold digest_column. intro H. apply bind_Ok in H as (o & Ho & H).
  exists o. split; [exact Ho|]. cbv zeta.
  destruct (Option_eqb o SHORT_NAME) eqn:E1.
  { apply Option_eqb_eq in E1. subst o. left. injection H as <-. auto. }
  destruct (Option_eqb o DIMS) eqn:E2.
  { apply Option_eqb_eq in E2. subst o. right. left. injection H as <-. auto. }
  destruct (Option_eqb o UNGRIDDED) eqn:E3.
  { apply Option_eqb_eq in E3. subst o. right. right. left. injection H as <-. auto. }
  right. right. right. injection H as <-.
  apply Option_eqb_neq in E1, E2, E3. auto.
Qed.

Lemma digest_column_tracked (st st' : digest_vars) (col : string * string) :
  tracked st -> digest_column st col = Ok st' -> tracked st'.
Proof.
  destruct col as [column cell]. intros [Hd Hu] H.
  apply digest_column_cases in H as (o & _ & H). cbv zeta in H.
  destruct H as [[-> ->]|[[-> ->]|[[-> ->]|(N1 & N2 & N3 & ->)]]];
    unfold tracked; simpl.
  - rewrite !dict_get_default_set_other by reflexivity. auto.
  - rewrite dict_get_default_set_same.
    rewrite dict_get_default_set_other by reflexivity. auto.
  - rewrite dict_get_default_set_same.
    rewrite dict_get_default_set_other by reflexivity. auto.
  - rewrite !dict_get_default_set_other; auto.
    + apply Option_eqb_neq. congruence.
    + apply Option_eqb_neq. congruence.
Qed.

Lemma digest_columns_tracked (spec : raw_spec) (st st' : digest_vars) :
  tracked st -> digest_columns spec st = Ok st' -> tracked st'.
Proof.
  revert st. induction spec as [|col rest IH]; simpl; intros st T H.
  - injection H as <-. exact T.
  - apply bind_Ok in H as (st1 & H1 & H2).
    eapply IH; [|exact H2]. eapply digest_column_tracked; eauto.
Qed.

Lemma tracked_init : tracked digest_init.
Proof. split; reflexivity. Qed.

Lemma run_emitter_none_or_str (e : emitter) (cell : string) :
  none_or_str (run_emitter e cell).
Proof.
  destruct e; simpl;
    unfold identity_emit, string_emit, array_emit, mangle_name, make_internal_name,
      DIMS_EMIT, VLOCATION_EMIT, RESTART_EMIT, ADD2EXPORT_EMIT, make_entry_emit, string_emit;
    repeat match goal with
           | |- none_or_str (if ?b then _ else _) => destruct b
           | |- none_or_str (match ?x with Some _ => _ | None => _ end) => destruct x
           end;
    try (left; reflexivity); right; eexists; reflexivity.
Qed.

Lemma all_none_or_str_set (k : Option) (v : pyval) (d : dict) :
  none_or_str v -> all_none_or_str d -> all_none_or_str (dict_set k v d).
Proof.
  intros Hv Hd k' v' H. destruct (Option_eqb k' k) eqn:E.
  - apply Option_eqb_eq in E. subst. rewrite dict_get_set_same in H. congruence.
  - rewrite dict_get_set_other in H by assumption. eauto.
Qed.

Lemma digest_columns_none_or_str (spec : raw_spec) (st st' : digest_vars) :
  all_none_or_str (option_values st) ->
  digest_columns spec st = Ok st' -> all_none_or_str (option_values st').
Proof.
  revert st. induction spec as [|[column cell] rest IH]; simpl; intros st T H.
  - injection H as <-. exact T.
  - apply bind_Ok in H as (st1 & H1 & H2).
    eapply IH; [|exact H2].
    apply digest_column_cases in H1 as (o & _ & H1). cbv zeta in H1.
    assert (E : forall o' c, none_or_str (Option_call o' c))
      by (intros; apply run_emitter_none_or_str).
    destruct H1 as [[-> ->]|[[-> ->]|[[-> ->]|(_ & _ & _ & ->)]]]; simpl;
      repeat apply all_none_or_str_set; auto;
      try apply (E INTERNAL_NAME); try apply (E MANGLED_NAME).
Qed.

(* ================================================================== *)
(** ** The stages of [digest] for one row *)

Lemma digest_spec_Ok (spec : raw_spec) (record : dict) :
  digest_spec spec = Ok record ->
  exists st rank,
    digest_columns spec digest_init = Ok st
    /\ check_mandatory get_mandatory_options (option_values st) = Ok tt
    /\ compute_rank (dims st) (ungridded st) = Ok rank
    /\ check_option_values (dict_set RANK (VInt rank) (option_values st)) = Ok tt
    /\ record = dict_set RANK (VInt rank) (option_values st).
Proof.
  unfold digest_spec. intro H.
  apply bind_Ok in H as (st & H1 & H).
  apply bind_Ok in H as ([] & H2 & H).
  apply bind_Ok in H as (rank & H3 & H).
  apply bind_Ok in H as ([] & H4 & H).
  injection H as <-. exists st, rank. auto.
Qed.

Lemma compute_rank_absent (d : string) (b : Z) :
  baseRank d = Some b -> compute_rank (VStr d) VNone = Ok (b + 0).
Proof.
  intro Hb. unfold compute_rank. cbn [truthy bind].
  rewrite (RANKS_getitem_baseRank _ _ Hb). reflexivity.
Qed.

Lemma compute_rank_bracketed (d body : string) (b : Z) :
  baseRank d = Some b ->
  compute_rank (VStr d) (VStr ("[" ++ body ++ "]")) = Ok (b + commaCount body).
Proof.
  intro Hb. unfold compute_rank. rewrite truthy_bracketed.
  cbn [bind]. rewrite (RANKS_getitem_baseRank _ _ Hb). cbn [bind].
  rewrite extra_rank_bracketed. reflexivity.
Qed.

(** C1.  In every digested record whose dims value is one of the three
    long-form tokens, the rank is [baseRank dims] plus the number of
    comma-separated tokens of the bracketed ungridded list, and plus 0 when
    ungridded is absent (no key, or [None]); [baseRank] is 1, 2, 3 for
    vertical-only, horizontal-only, horizontal+vertical.  In particular
    horizontal+vertical without ungridded has rank 3 and vertical-only with
    the two tokens [a,b] has rank 3. *)
Theorem C1_rank_is_baseRank_plus_commaCount :
  (forall (spec : raw_spec) (record : dict) (d : string) (b : Z),
      digest_spec spec = Ok record ->
      dict_get DIMS record = Some (VStr d) ->
      baseRank d = Some b ->
      (dict_get_default UNGRIDDED record = VNone ->
         dict_get RANK record = Some (VInt (b + 0)))
      /\ (forall body : string,
            dict_get UNGRIDDED record = Some (VStr ("[" ++ body ++ "]")) ->
            dict_get RANK record = Some (VInt (b + commaCount body))))
  /\ (baseRank "MAPL_DimsVertOnly" = Some 1 /\ baseRank "MAPL_DimsHorzOnly" = Some 2
      /\ baseRank "MAPL_DimsHorzVert" = Some 3)
  /\ (compute_rank (VStr "MAPL_DimsHorzVert") (VStr "") = Ok 3
      /\ compute_rank (VStr "MAPL_DimsHorzVert") VNone = Ok 3)
  /\ (compute_rank (VStr "MAPL_DimsVertOnly") (VStr "a,b") = Ok 3
      /\ compute_rank (VStr "MAPL_DimsVertOnly") (VStr "[a,b]") = Ok 3).
Proof.
  split; [|repeat split].
  intros spec record d b H Hd Hb.
  apply digest_spec_Ok in H as (st & rank & H1 & _ & H3 & _ & ->).
  destruct (digest_columns_tracked _ _ _ tracked_init H1) as [Td Tu].
  rewrite dict_get_set_same.
  rewrite dict_get_set_other in Hd by reflexivity.
  assert (Ed : dims st = VStr d)
    by (rewrite Td; unfold dict_get_default; rewrite Hd; reflexivity).
  rewrite Ed in H3. split.
  - intro Hu. rewrite dict_get_default_set_other in Hu by reflexivity.
    rewrite <- Tu in Hu. rewrite Hu, (compute_rank_absent _ _ Hb) in H3. congruence.
  - intros body Hu. rewrite dict_get_set_other in Hu by reflexivity.
    assert (Eu : ungridded st = VStr ("[" ++ body ++ "]"))
      by (rewrite Tu; unfold dict_get_default; rewrite Hu; reflexivity).
    rewrite Eu, (compute_rank_bracketed _ _ _ Hb) in H3. congruence.
Qed.

Lemma C1_witness :
  exists record,
    digest_spec row_vert_two_ungridded = Ok record
    /\ dict_get RANK record = Some (VInt (1 + commaCount "a,b"))
    /\ commaCount "a,b" = 2.
Proof.
  destruct (digest_spec row_vert_two_ungridded) as [record|e] eqn:E;
    [|vm_compute in E; discriminate E].
  exists record. split; [reflexivity|]. split; [|reflexivity].
  refine (proj2 (proj1 C1_rank_is_baseRank_plus_commaCount
                   row_vert_two_ungridded record "MAPL_DimsVertOnly" 1 E _ _) "a,b" _).
  - vm_compute in E. injection E as <-. reflexivity.
  - reflexivity.
  - vm_compute in E. injection E as <-. reflexivity.
Defined.

(* ================================================================== *)
(** ** The two validators *)

Lemma pyval_eqb_eq (a b : pyval) : pyval_eqb a b = true <-> a = b.
Proof.
  destruct a, b; simpl; try (split; [discriminate|congruence]).
  - split; reflexivity.
  - rewrite String.eqb_eq. split; congruence.
  - rewrite Z.eqb_eq. split; congruence.
Qed.

Lemma pyval_eqb_neq (a b : pyval) : pyval_eqb a b = false <-> a <> b.
Proof.
  rewrite <- pyval_eqb_eq. destruct (pyval_eqb a b); split; congruence.
Qed.

(** What [check_option_values] does, by the values under [DIMS] and
    [VLOCATION]. *)
Lemma check_option_values_cases (values : dict) (dv : pyval) :
  dict_get DIMS values = Some dv ->
  check_option_values values =
    match dict_get VLOCATION values with
    | None => Raise (KeyError (KOption VLOCATION))
    | Some vv =>
        if (pyval_eqb dv (VStr "MAPL_DimsHorzVert")
            && pyval_eqb vv (VStr "MAPL_VlocationNone"))%bool
        then Raise (RuleViolation HorzVert_None_message)
        else if (pyval_eqb dv (VStr "MAPL_DimsHorzOnly")
                 && negb (pyval_eqb vv (VStr "MAPL_VlocationNone")))%bool
        then Raise (RuleViolation HorzOnly_notNone_message)
        else Ok tt
    end.
Proof.
  intro Hd.
  unfold check_option_values, Rule_init, joiners, bind at 1 2.
  unfold check_rules, Rule_check, rule_HorzVert_None, rule_HorzOnly_notNone.
  cbn [processed_conditions break_on_true joiner rule_joiner rule_loop].
  unfold predicate, relation.
  cbn [c_rel c_option c_expected c_message operand_value].
  unfold dict_getitem. rewrite Hd.
  cbn [bind apply_relop].
  destruct (dict_get VLOCATION values) as [vv|].
  - cbn [bind apply_relop].
    destruct (pyval_eqb dv (VStr "MAPL_DimsHorzVert")) eqn:E1;
      destruct (pyval_eqb vv (VStr "MAPL_VlocationNone")) eqn:E2;
      destruct (pyval_eqb dv (VStr "MAPL_DimsHorzOnly")) eqn:E3;
      try reflexivity.
    all: apply pyval_eqb_eq in E1, E3; congruence.
  - destruct (pyval_eqb dv (VStr "MAPL_DimsHorzVert")); reflexivity.
Qed.

Lemma check_mandatory_Ok (options : list Option) (values : dict) :
  check_mandatory options values = Ok tt ->
  forall o, In o options -> dict_contains o values = true.
Proof.
  induction options as [|o' rest IH]; simpl; intros H o Ho; [contradiction|].
  destruct (dict_contains o' values) eqn:E; [|discriminate].
  destruct Ho as [<-|Ho]; auto.
Qed.

Lemma compute_rank_raises (a b : pyval) (e : exn) :
  compute_rank a b = Raise e -> (exists k, e = KeyError k) \/ e = AttributeError.
Proof.
  unfold compute_rank.
  destruct (truthy b); [destruct b|]; cbn [bind];
    try (intro H; injection H as <-; auto; fail);
    unfold RANKS_getitem;
    (destruct a as [|d|n]; [| destruct (str_lookup d RANKS) |]); cbn [bind];
    intro H; try discriminate H; injection H as <-; eauto.
Qed.

Lemma compute_rank_total (d : string) (b : Z) (u : pyval) :
  baseRank d = Some b -> none_or_str u ->
  exists rank, compute_rank (VStr d) u = Ok rank /\ b <= rank.
Proof.
  intros Hb [->|[s ->]]; unfold compute_rank.
  - cbn [truthy bind]. rewrite (RANKS_getitem_baseRank _ _ Hb). cbn [bind].
    eexists. split; [reflexivity|lia].
  - destruct (truthy (VStr s)); cbn [bind];
      rewrite (RANKS_getitem_baseRank _ _ Hb); cbn [bind];
      eexists; (split; [reflexivity|lia]).
Qed.

Lemma digest_columns_ungridded (spec : raw_spec) (st : digest_vars) :
  digest_columns spec digest_init = Ok st -> none_or_str (ungridded st).
Proof.
  intro H. destruct (digest_columns_tracked _ _ _ tracked_init H) as [_ Tu].
  rewrite Tu. unfold dict_get_default.
  destruct (dict_get UNGRIDDED (option_values st)) as [v|] eqn:E.
  - eapply (digest_columns_none_or_str spec); eauto. intros k v' F. discriminate F.
  - left. reflexivity.
Qed.

Lemma digest_spec_after_mandatory (spec : raw_spec) (st : digest_vars) :
  digest_columns spec digest_init = Ok st ->
  check_mandatory get_mandatory_options (option_values st) = Ok tt ->
  digest_spec spec =
    (rank <- compute_rank (dims st) (ungridded st) ;;
     _ <- check_option_values (dict_set RANK (VInt rank) (option_values st)) ;;
     Ok (dict_set RANK (VInt rank) (option_values st))).
Proof.
  intros H1 H2. unfold digest_spec. rewrite H1. cbn [bind]. rewrite H2. reflexivity.
Qed.

(** A row past the mandatory check, whose dims value is a recognized
    token, reaches the validators. *)
Lemma digest_spec_reaches_rules (spec : raw_spec) (st : digest_vars) (d : string) (b : Z) :
  digest_columns spec digest_init = Ok st ->
  check_mandatory get_mandatory_options (option_values st) = Ok tt ->
  dict_get DIMS (option_values st) = Some (VStr d) ->
  baseRank d = Some b ->
  exists rank, b <= rank /\
    compute_rank (dims st) (ungridded st) = Ok rank /\
    digest_spec spec =
      (_ <- check_option_values (dict_set RANK (VInt rank) (option_values st)) ;;
       Ok (dict_set RANK (VInt rank) (option_values st))).
Proof.
  intros H1 H2 Hd Hb.
  destruct (digest_columns_tracked _ _ _ tracked_init H1) as [Td _].
  assert (Ed : dims st = VStr d)
    by (rewrite Td; unfold dict_get_default; rewrite Hd; reflexivity).
  destruct (@compute_rank_total d b (ungridded st) Hb) as (rank & Hr & Hle).
  { eapply digest_columns_ungridded; eauto. }
  exists rank. rewrite Ed. split; [exact Hle|]. split; [exact Hr|].
  rewrite (digest_spec_after_mandatory _ _ H1 H2), Ed, Hr. reflexivity.
Qed.

Lemma compute_rank_Ok_inv (a u : pyval) (r : Z) :
  compute_rank a u = Ok r ->
  exists d b, a = VStr d /\ baseRank d = Some b /\ b <= r.
Proof.
  unfold compute_rank. intro H.
  apply bind_Ok in H as (extra & He & H).
  apply bind_Ok in H as (base & Hb & H). injection H as <-.
  apply RANKS_getitem_inv in Hb as (d & -> & Hb).
  exists d, base. repeat split; auto.
  assert (0 <= extra).
  { destruct (truthy u); [destruct u|]; try discriminate He; injection He as <-; lia. }
  lia.
Qed.

Lemma In_DIMS_mandatory : In DIMS get_mandatory_options.
Proof. rewrite get_mandatory_options_eq. simpl. auto. Qed.

Lemma digest_spec_cases (spec : raw_spec) (st : digest_vars) :
  digest_columns spec digest_init = Ok st ->
  check_mandatory get_mandatory_options (option_values st) = Ok tt ->
  (exists e,
      digest_spec spec = Raise e
      /\ ((exists k, e = KeyError k) \/ e = AttributeError)
      /\ forall d b, dict_get DIMS (option_values st) = Some (VStr d) ->
                     baseRank d = Some b -> False)
  \/ (exists d b rank,
        dict_get DIMS (option_values st) = Some (VStr d)
        /\ baseRank d = Some b /\ b <= rank
        /\ compute_rank (dims st) (ungridded st) = Ok rank
        /\ digest_spec spec =
             outcome_by_rules d (dict_get VLOCATION (option_values st))
               (dict_set RANK (VInt rank) (option_values st))).
Proof.
  intros H1 H2.
  destruct (digest_columns_tracked _ _ _ tracked_init H1) as [Td _].
  pose proof (check_mandatory_Ok _ _ H2 _ In_DIMS_mandatory) as Hc.
  unfold dict_contains in Hc.
  destruct (dict_get DIMS (option_values st)) as [dv|] eqn:Hd; [clear Hc|discriminate Hc].
  assert (Ed : dims st = dv)
    by (rewrite Td; unfold dict_get_default; rewrite Hd; reflexivity).
  pose proof (digest_spec_after_mandatory _ _ H1 H2) as Hs.
  destruct (compute_rank (dims st) (ungridded st)) as [rank|e] eqn:Hr.
  - right. destruct (compute_rank_Ok_inv _ _ _ Hr) as (d & b & Ea & Hb & Hle).
    assert (Ev : dv = VStr d) by congruence. clear Ed. subst dv.
    exists d, b, rank. repeat split; auto.
    rewrite Hs. cbn [bind].
    rewrite (@check_option_values_cases _ (VStr d))
      by (rewrite dict_get_set_other by reflexivity; exact Hd).
    rewrite dict_get_set_other by reflexivity.
    unfold outcome_by_rules. cbn [pyval_eqb].
    destruct (dict_get VLOCATION (option_values st)) as [vv|]; [|reflexivity].
    destruct (String.eqb d "MAPL_DimsHorzVert" && _)%bool; [reflexivity|].
    destruct (String.eqb d "MAPL_DimsHorzOnly" && _)%bool; reflexivity.
  - left. exists e. rewrite Hs. cbn [bind]. split; [reflexivity|].
    split; [eapply compute_rank_raises; eauto|].
    intros d b Hd' Hb. assert (Ed' : dims st = VStr d) by congruence.
    destruct (@compute_rank_total d b (ungridded st) Hb) as (rank & Hr' & _).
    { eapply digest_columns_ungridded; eauto. }
    rewrite Ed' in Hr. congruence.
Qed.

(** C2.  For a row that is past the mandatory-presence check, digestion
    fails with a rule violation if and only if dims is
    [MAPL_DimsHorzVert] and vlocation is [MAPL_VlocationNone], or dims is
    [MAPL_DimsHorzOnly] and the record's vlocation value is not
    [MAPL_VlocationNone].  In the first case the message is the two
    condition phrases joined by " and "; a record with [MAPL_DimsHorzVert]
    and [MAPL_VlocationCenter] digests successfully.  (A record that holds
    nothing under vlocation never fails with a rule violation.) *)
Theorem C2_rule_violation_iff (spec : raw_spec) (st : digest_vars) :
  digest_columns spec digest_init = Ok st ->
  check_mandatory get_mandatory_options (option_values st) = Ok tt ->
  let values := option_values st in
  ((exists msg, digest_spec spec = Raise (RuleViolation msg)) <->
     (attribute_is DIMS "MAPL_DimsHorzVert" values
      /\ attribute_is VLOCATION "MAPL_VlocationNone" values)
     \/ (attribute_is DIMS "MAPL_DimsHorzOnly" values
         /\ attribute_is_not VLOCATION "MAPL_VlocationNone" values))
  /\ (attribute_is DIMS "MAPL_DimsHorzVert" values
      /\ attribute_is VLOCATION "MAPL_VlocationNone" values ->
      digest_spec spec =
        Raise (RuleViolation
                 ("dims is equal to MAPL_DimsHorzVert" ++ " and "
                  ++ "vlocation is equal to MAPL_VlocationNone")))
  /\ (attribute_is DIMS "MAPL_DimsHorzVert" values
      /\ attribute_is VLOCATION "MAPL_VlocationCenter" values ->
      exists record, digest_spec spec = Ok record)
  /\ (dict_get VLOCATION values = None ->
      forall msg, digest_spec spec <> Raise (RuleViolation msg)).
Proof.
  intros H1 H2 values. unfold attribute_is, attribute_is_not. subst values.
  destruct (digest_spec_cases _ _ H1 H2)
    as [(e & Hs & He & Hn)|(d & b & rank & Hd & Hb & _ & _ & Hs)].
  - (* dims is no token: the rank lookup fails *)
    assert (NV : forall msg, digest_spec spec <> Raise (RuleViolation msg)).
    { intros msg F. rewrite Hs in F. injection F as ->.
      destruct He as [[k Hk]|Hk]; discriminate Hk. }
    split; [split|split; [|split]].
    + intros [msg F]. exfalso. exact (NV msg F).
    + intros [[Hd _]|[Hd _]]; exfalso; eapply Hn; try exact Hd; reflexivity.
    + intros [Hd _]. exfalso. eapply Hn; try exact Hd; reflexivity.
    + intros [Hd _]. exfalso. eapply Hn; try exact Hd; reflexivity.
    + intros _. exact NV.
  - rewrite Hs, Hd. clear Hs. unfold outcome_by_rules.
    split; [split|split; [|split]].
    + intros [msg F].
      destruct (dict_get VLOCATION (option_values st)) as [vv|]; [|discriminate F].
      destruct (String.eqb d "MAPL_DimsHorzVert"
                && pyval_eqb vv (VStr "MAPL_VlocationNone"))%bool eqn:E1.
      { apply andb_true_iff in E1 as [Ea Eb].
        apply String.eqb_eq in Ea. apply pyval_eqb_eq in Eb. subst. left. auto. }
      destruct (String.eqb d "MAPL_DimsHorzOnly"
                && negb (pyval_eqb vv (VStr "MAPL_VlocationNone")))%bool eqn:E2;
        [|discriminate F].
      apply andb_true_iff in E2 as [Ea Eb].
      apply String.eqb_eq in Ea. apply negb_true_iff, pyval_eqb_neq in Eb.
      subst. right. split; [reflexivity|]. exists vv. auto.
    + intros [[Ed Ev]|[Ed (v & Ev & Nv)]]; injection Ed as ->; rewrite Ev.
      * eexists. reflexivity.
      * apply pyval_eqb_neq in Nv. cbn [String.eqb Ascii.eqb Bool.eqb andb].
        rewrite Nv. eexists. reflexivity.
    + intros [Ed Ev]. injection Ed as ->. rewrite Ev. reflexivity.
    + intros [Ed Ev]. injection Ed as ->. rewrite Ev. eexists. reflexivity.
    + intros Ev msg. rewrite Ev. discriminate.
Qed.

Lemma C2_witness :
  digest_spec row_HorzVert_None =
    Raise (RuleViolation
             "dims is equal to MAPL_DimsHorzVert and vlocation is equal to MAPL_VlocationNone").
Proof.
  destruct (digest_columns row_HorzVert_None digest_init) as [st|e] eqn:E;
    [|vm_compute in E; discriminate E].
  refine (proj1 (proj2 (C2_rule_violation_iff row_HorzVert_None st E _)) _).
  - vm_compute in E. injection E as <-. reflexivity.
  - vm_compute in E. injection E as <-. split; reflexivity.
Defined.

(* ================================================================== *)
(** ** The rule engine against its specification *)

Lemma dict_getitem_supplied (o : Option) (values : dict) :
  dict_contains o values = true -> dict_getitem o values = Ok (dict_get_default o values).
Proof.
  unfold dict_contains, dict_getitem, dict_get_default.
  destruct (dict_get o values); [reflexivity|discriminate].
Qed.

Lemma predicate_holds (values : dict) (c : condition) :
  (dict_contains (c_option c) values && supplied values (c_expected c))%bool = true ->
  predicate c values = Ok (holds values c).
Proof.
  intro H. apply andb_true_iff in H as [H1 H2].
  unfold predicate, relation, holds. cbn [operand_value].
  rewrite (dict_getitem_supplied _ _ H1). cbn [bind].
  destruct (c_expected c) as [o|v]; cbn [operand_value operand_denotes supplied] in *.
  - rewrite (dict_getitem_supplied _ _ H2). reflexivity.
  - reflexivity.
Qed.

(** Without a break the loop evaluates every condition. *)
Lemma rule_loop_all (values : dict) (conds : list condition) :
  supplies values conds = true ->
  forall messages results,
    rule_loop conds false values messages results =
      Ok ((messages ++ List.map phrase (List.filter (holds values) conds))%list,
          (results ++ List.map (holds values) conds)%list).
Proof.
  induction conds as [|c rest IH]; cbn [rule_loop supplies forallb]; intros S messages results.
  - cbn [List.filter List.map]. rewrite !app_nil_r. reflexivity.
  - apply andb_true_iff in S as [Sc Sr].
    rewrite (predicate_holds _ _ Sc). cbn [bind List.filter List.map].
    destruct (holds values c) eqn:Hc; rewrite (IH Sr); unfold list_append, phrase;
      cbn [List.map]; rewrite <- !app_assoc; reflexivity.
Qed.

(** With a break the loop evaluates the conditions up to the first one that
    holds, and needs no attribute of the others. *)
Lemma rule_loop_any (values : dict) (conds : list condition) :
  supplies values (upto_first_true values conds) = true ->
  forall messages results,
    rule_loop conds true values messages results =
      Ok ((messages
           ++ List.map phrase (List.filter (holds values) (upto_first_true values conds)))%list,
          (results ++ List.map (holds values) (upto_first_true values conds))%list).
Proof.
  induction conds as [|c rest IH]; cbn [rule_loop upto_first_true]; intros S messages results.
  - cbn [List.filter List.map]. rewrite !app_nil_r. reflexivity.
  - destruct (holds values c) eqn:Hc; cbn [supplies forallb] in S;
      apply andb_true_iff in S as [Sc Sr];
      rewrite (predicate_holds _ _ Sc), Hc; cbn [bind List.filter List.map].
    + rewrite Hc. reflexivity.
    + rewrite Hc, (IH Sr). unfold list_append. rewrite <- !app_assoc. reflexivity.
Qed.

Lemma supplies_upto_first_true (values : dict) (conds : list condition) :
  supplies values conds = true -> supplies values (upto_first_true values conds) = true.
Proof.
  induction conds as [|c rest IH]; cbn [supplies forallb upto_first_true]; auto.
  intro S. apply andb_true_iff in S as [Sc Sr].
  destruct (holds values c); cbn [forallb]; rewrite Sc; cbn [andb]; auto.
Qed.

Lemma forallb_id_map {A : Type} (f : A -> bool) (l : list A) :
  forallb (fun b => b) (List.map f l) = forallb f l.
Proof. induction l as [|a l IH]; simpl; [|rewrite IH]; reflexivity. Qed.

Lemma existsb_id_map {A : Type} (f : A -> bool) (l : list A) :
  existsb (fun b => b) (List.map f l) = existsb f l.
Proof. induction l as [|a l IH]; simpl; [|rewrite IH]; reflexivity. Qed.

Lemma Rule_check_evaluated (conds : list condition) (j : joiner_fn) (k : JoinerKind)
    (values : dict) :
  kind_of j = Some k ->
  supplies values (evaluated k values conds) = true ->
  exists r, Rule_init conds j = Ok r
            /\ Rule_check r values = Rule_check_spec k values conds.
Proof.
  intros Hk S. destruct j; try discriminate Hk; injection Hk as <-;
    (eexists; split; [reflexivity|]);
    unfold Rule_check, Rule_check_spec, aggregate, violation_message;
    cbn [processed_conditions break_on_true joiner rule_joiner evaluated separator] in *.
  - rewrite (rule_loop_all _ _ S). cbn [bind app apply_joiner].
    rewrite forallb_id_map. reflexivity.
  - rewrite (rule_loop_any _ _ S). cbn [bind app apply_joiner].
    rewrite existsb_id_map. reflexivity.
Qed.

(** C3.  A rule built with the joiner [all] (AllMustHold) or [any]
    (AnyMayHold), checked against values that supply every attribute its
    conditions name, behaves as the specification says: the conditions are
    evaluated in order, up to the first true one for AnyMayHold; a violation
    is raised exactly when the aggregate is true, and its message joins the
    phrases (attribute name, blank, message) of the true conditions with
    " and " or " or "; otherwise the check returns.  For AnyMayHold the
    conditions after the first true one are not looked at: their attributes
    need not be supplied. *)
Theorem C3_Rule_check_meets_spec (conds : list condition) (j : joiner_fn) (k : JoinerKind)
    (values : dict) :
  kind_of j = Some k ->
  (supplies values conds = true ->
   exists r, Rule_init conds j = Ok r
             /\ Rule_check r values = Rule_check_spec k values conds)
  /\ (supplies values (upto_first_true values conds) = true ->
      exists r, Rule_init conds py_any = Ok r
                /\ Rule_check r values = Rule_check_spec AnyMayHold values conds).
Proof.
  intro Hk. split; intro S.
  - apply Rule_check_evaluated; [exact Hk|].
    destruct k; cbn [evaluated]; [exact S|apply supplies_upto_first_true; exact S].
  - apply Rule_check_evaluated; [reflexivity|exact S].
Qed.

Lemma C3_witness :
  (exists r, Rule_init rule_HorzVert_None py_all = Ok r
             /\ Rule_check r values_HorzVert_None =
                  Raise (RuleViolation
                    "dims is equal to MAPL_DimsHorzVert and vlocation is equal to MAPL_VlocationNone"))
  /\ (exists r, Rule_init rule_HorzVert_None py_any = Ok r
                /\ Rule_check r values_HorzVert_None =
                     Raise (RuleViolation "dims is equal to MAPL_DimsHorzVert")).
Proof.
  split.
  - exact (proj1 (C3_Rule_check_meets_spec rule_HorzVert_None py_all AllMustHold
                    values_HorzVert_None eq_refl) eq_refl).
  - exact (proj1 (C3_Rule_check_meets_spec rule_HorzVert_None py_any AnyMayHold
                    values_HorzVert_None eq_refl) eq_refl).
Defined.

(* ================================================================== *)
(** ** Which keys a row puts into the record *)

Lemma digest_columns_total (spec : raw_spec) (st : digest_vars) :
  all_resolve spec = true -> exists st', digest_columns spec st = Ok st'.
Proof.
  revert st. induction spec as [|[column cell] rest IH]; cbn [all_resolve forallb fst];
    intros st R.
  - exists st. reflexivity.
  - apply andb_true_iff in R as [Rc Rr]. unfold resolves in Rc.
    cbn [digest_columns]. unfold digest_column.
    destruct (Option_getitem (PyStr.upper column)) as [o|e]; [|discriminate Rc].
    cbn [bind].
    destruct (Option_eqb o SHORT_NAME); [|destruct (Option_eqb o DIMS);
      [|destruct (Option_eqb o UNGRIDDED)]]; cbn [bind]; apply IH; exact Rr.
Qed.

(** A key other than the two derived names is in the dictionary after the
    loop exactly when it was there before or a column names it. *)
Lemma digest_columns_contains (o : Option) (spec : raw_spec) (st st' : digest_vars) :
  Option_eqb o MANGLED_NAME = false -> Option_eqb o INTERNAL_NAME = false ->
  digest_columns spec st = Ok st' ->
  dict_contains o (option_values st')
  = (dict_contains o (option_values st) || has_column o spec)%bool.
Proof.
  intros N1 N2. revert st.
  induction spec as [|[column cell] rest IH]; cbn [digest_columns has_column existsb fst];
    intros st H.
  - injection H as <-. rewrite orb_false_r. reflexivity.
  - apply bind_Ok in H as (st1 & H1 & H2).
    rewrite (IH _ H2). fold (has_column o rest).
    apply digest_column_cases in H1 as (o' & Ho & H1). cbv zeta in H1.
    unfold resolves_to. rewrite Ho. rewrite (Option_eqb_sym o' o).
    assert (E : dict_contains o (option_values st1)
                = (Option_eqb o o' || dict_contains o (option_values st))%bool).
    { destruct H1 as [[-> ->]|[[-> ->]|[[-> ->]|(_ & _ & _ & ->)]]];
        cbn [option_values]; rewrite !dict_contains_set; rewrite ?N1, ?N2; reflexivity. }
    rewrite E. destruct (Option_eqb o o'), (dict_contains o (option_values st));
      reflexivity.
Qed.

Lemma digest_columns_contains_init (o : Option) (spec : raw_spec) (st : digest_vars) :
  Option_eqb o MANGLED_NAME = false -> Option_eqb o INTERNAL_NAME = false ->
  digest_columns spec digest_init = Ok st ->
  dict_contains o (option_values st) = has_column o spec.
Proof.
  intros N1 N2 H. rewrite (digest_columns_contains _ _ _ _ N1 N2 H). reflexivity.
Qed.

Lemma check_mandatory_find (options : list Option) (values : dict) :
  check_mandatory options values =
    match List.find (fun o => negb (dict_contains o values)) options with
    | Some o => Raise (MissingMandatoryOption (name o ++ " is missing from spec."))
    | None => Ok tt
    end.
Proof.
  induction options as [|o rest IH]; cbn [check_mandatory List.find]; [reflexivity|].
  destruct (dict_contains o values); cbn [negb]; [exact IH|reflexivity].
Qed.

Lemma mandatory_not_derived (o : Option) :
  In o get_mandatory_options ->
  Option_eqb o MANGLED_NAME = false /\ Option_eqb o INTERNAL_NAME = false.
Proof.
  rewrite get_mandatory_options_eq. cbn [In].
  intros [<-|[<-|[<-|[<-|[]]]]]; split; reflexivity.
Qed.

Lemma find_ext_in {A : Type} (f g : A -> bool) (l : list A) :
  (forall a, In a l -> f a = g a) -> List.find f l = List.find g l.
Proof.
  induction l as [|a l IH]; cbn [List.find]; intro H; [reflexivity|].
  rewrite (H a (or_introl eq_refl)). rewrite IH; [reflexivity|].
  intros b Hb. apply H. right. exact Hb.
Qed.

(** The mandatory check names the first mandatory option, in schema order,
    that no column of the row names. *)
Lemma check_mandatory_first_missing (spec : raw_spec) (st : digest_vars) :
  digest_columns spec digest_init = Ok st ->
  check_mandatory get_mandatory_options (option_values st) =
    match first_missing get_mandatory_options spec with
    | Some o => Raise (MissingMandatoryOption (name o ++ " is missing from spec."))
    | None => Ok tt
    end.
Proof.
  intro H. rewrite check_mandatory_find. unfold first_missing.
  rewrite (find_ext_in (fun o => negb (dict_contains o (option_values st)))
                       (fun o => negb (has_column o spec))); [reflexivity|].
  intros o Ho. destruct (mandatory_not_derived _ Ho) as [N1 N2].
  rewrite (digest_columns_contains_init _ _ _ N1 N2 H). reflexivity.
Qed.

(* ================================================================== *)
(** ** Mandatory options *)




Lemma digest_spec_missing (spec : raw_spec) (o : Option) :
  all_resolve spec = true ->
  first_missing get_mandatory_options spec = Some o ->
  digest_spec spec = Raise (MissingMandatoryOption (name o ++ " is missing from spec.")).
Proof.
  intros R F. destruct (digest_columns_total spec digest_init R) as [st H].
  unfold digest_spec. rewrite H. cbn [bind].
  rewrite (check_mandatory_first_missing _ _ H), F. reflexivity.
Qed.

Lemma first_missing_Some (options : list Option) (spec : raw_spec) (o : Option) :
  first_missing options spec = Some o -> In o options /\ has_column o spec = false.
Proof.
  unfold first_missing. intro F. apply find_some in F as [Hin Hf].
  apply negb_true_iff in Hf. auto.
Qed.

Lemma first_missing_None (options : list Option) (spec : raw_spec) (o : Option) :
  first_missing options spec = None -> In o options -> has_column o spec = true.
Proof.
  unfold first_missing. intros F Ho.
  pose proof (find_none _ _ F o Ho) as Hf. apply negb_false_iff in Hf. exact Hf.
Qed.

(** C5, counterexample.  A row that omits the units column and the long
    name column fails with the error that names [LONG_NAME], not units. *)
Lemma C5_counterexample : ~ omitted_units_is_named row_no_units_no_long_name.
Proof.
  intro H.
  assert (R : all_resolve row_no_units_no_long_name = true) by (vm_compute; reflexivity).
  assert (U : has_column UNITS row_no_units_no_long_name = false)
    by (vm_compute; reflexivity).
  specialize (H R U). vm_compute in H. discriminate H.
Qed.

(** C5, amended.  A row whose columns all resolve and that omits a
    mandatory column fails with the missing-mandatory-option error that
    names the first mandatory option, in the schema order short name, long
    name, units, dims, that no column of the row names; so it names units
    when the units column is omitted and the short name and long name
    columns are there.  The cells of the row play no part. *)
Theorem C5_first_missing_mandatory_is_named (spec : raw_spec) :
  all_resolve spec = true ->
  (forall o, first_missing get_mandatory_options spec = Some o ->
     digest_spec spec = Raise (MissingMandatoryOption (name o ++ " is missing from spec.")))
  /\ (forall o, In o get_mandatory_options -> has_column o spec = false ->
        exists o', In o' get_mandatory_options /\ has_column o' spec = false
                   /\ digest_spec spec =
                        Raise (MissingMandatoryOption (name o' ++ " is missing from spec.")))
  /\ (has_column UNITS spec = false ->
      has_column SHORT_NAME spec = true -> has_column LONG_NAME spec = true ->
      digest_spec spec = Raise (MissingMandatoryOption "UNITS is missing from spec.")).
Proof.
  intro R. split; [|split].
  - intros o F. apply digest_spec_missing; assumption.
  - intros o Ho Hc.
    destruct (first_missing get_mandatory_options spec) as [o'|] eqn:F.
    + exists o'. destruct (first_missing_Some _ _ _ F) as [Hin Hf].
      split; [exact Hin|]. split; [exact Hf|].
      apply digest_spec_missing; assumption.
    + rewrite (first_missing_None _ _ o F Ho) in Hc. discriminate Hc.
  - intros Hu Hs Hl.
    apply (digest_spec_missing spec UNITS R).
    unfold first_missing. rewrite get_mandatory_options_eq. cbn [List.find].
    rewrite Hs, Hl, Hu. reflexivity.
Qed.

Lemma C5_witness :
  digest_spec row_no_units = Raise (MissingMandatoryOption "UNITS is missing from spec.").
Proof.
  refine (proj2 (proj2 (C5_first_missing_mandatory_is_named row_no_units _)) _ _ _);
    vm_compute; reflexivity.
Defined.

(* ================================================================== *)
(** ** Rows without a vlocation column *)





(* ================================================================== *)
(** ** Boolean canonicalization *)







Lemma isspace_to_lower (c : ascii) : PyStr.isspace (PyStr.to_lower c) = PyStr.isspace c.
Proof. destruct c as [[] [] [] [] [] [] [] []]; reflexivity. Qed.


Lemma contains_In (xs : list string) (x : string) :
  PyStr.contains xs x = true <-> In x xs.
Proof.
  unfold PyStr.contains. rewrite existsb_exists. split.
  - intros (y & Hy & E). apply String.eqb_eq in E. subst. exact Hy.
  - intro H. exists x. split; [exact H|apply String.eqb_refl].
Qed.

Lemma contains_not_In (xs : list string) (x : string) :
  PyStr.contains xs x = false <-> ~ In x xs.
Proof.
  rewrite <- contains_In. destruct (PyStr.contains xs x); split; congruence.
Qed.





(* ================================================================== *)
(** ** Emission: the indent *)

Lemma emit_header_indent (self self' : MAPL_DataSpec.t) (text : string) :
  MAPL_DataSpec.emit_header self = Ok (text, self') ->
  MAPL_DataSpec.indent self'
  = MAPL_DataSpec.indent self + guard_step (MAPL_DataSpec.condition self)
  /\ MAPL_DataSpec.condition self' = MAPL_DataSpec.condition self.
Proof.
  unfold MAPL_DataSpec.emit_header, guard_step.
  destruct (truthy (MAPL_DataSpec.condition self)).
  - intro H. apply bind_Ok in H as (t & _ & H). injection H as _ <-.
    cbn [MAPL_DataSpec.indent MAPL_DataSpec.set_indent]. auto.
  - intro H. injection H as _ <-. split; [lia|reflexivity].
Qed.

Lemma emit_args_indent (self self' : MAPL_DataSpec.t) (text : string) :
  MAPL_DataSpec.emit_args self = Ok (text, self') ->
  MAPL_DataSpec.indent self' = MAPL_DataSpec.indent self
  /\ MAPL_DataSpec.condition self' = MAPL_DataSpec.condition self.
Proof.
  unfold MAPL_DataSpec.emit_args. intro H.
  apply bind_Ok in H as (t & _ & H). injection H as _ <-.
  cbn [MAPL_DataSpec.indent MAPL_DataSpec.set_indent]. split; [lia|reflexivity].
Qed.

Lemma emit_trailer_indent (nullify : bool) (self self' : MAPL_DataSpec.t) (text : string) :
  MAPL_DataSpec.emit_trailer nullify self = Ok (text, self') ->
  MAPL_DataSpec.indent self'
  = MAPL_DataSpec.indent self - guard_step (MAPL_DataSpec.condition self)
  /\ MAPL_DataSpec.condition self' = MAPL_DataSpec.condition self.
Proof.
  unfold MAPL_DataSpec.emit_trailer, guard_step.
  destruct (truthy (MAPL_DataSpec.condition self)).
  - intro H. apply bind_Ok in H as (t & _ & H). injection H as _ <-.
    cbn [MAPL_DataSpec.indent MAPL_DataSpec.set_indent]. auto.
  - intro H. injection H as _ <-. split; [lia|reflexivity].
Qed.

Lemma emit_specs_indent (self self' : MAPL_DataSpec.t) (text : string) :
  MAPL_DataSpec.emit_specs self = Ok (text, self') ->
  MAPL_DataSpec.indent self' = MAPL_DataSpec.indent self.
Proof.
  unfold MAPL_DataSpec.emit_specs. intro H.
  apply bind_Ok in H as ([th s1] & Hh & H).
  apply bind_Ok in H as ([ta s2] & Ha & H).
  apply bind_Ok in H as ([tt s3] & Ht & H).
  cbn [fst snd] in *. injection H as _ <-.
  apply emit_header_indent in Hh as [Ih Eh].
  apply emit_args_indent in Ha as [Ia Ea].
  apply emit_trailer_indent in Ht as [It _].
  rewrite Ea, Eh in It. lia.
Qed.

Lemma emit_declare_pointers_self (self self' : MAPL_DataSpec.t) (text : string) :
  MAPL_DataSpec.emit_declare_pointers self = Ok (text, self') -> self' = self.
Proof.
  unfold MAPL_DataSpec.emit_declare_pointers. intro H.
  apply bind_Ok in H as (rank & _ & H).
  apply bind_Ok in H as (t & _ & H). injection H as _ <-. reflexivity.
Qed.

Lemma emit_get_pointers_indent (self self' : MAPL_DataSpec.t) (text : string) :
  MAPL_DataSpec.emit_get_pointers self = Ok (text, self') ->
  MAPL_DataSpec.indent self' = MAPL_DataSpec.indent self.
Proof.
  unfold MAPL_DataSpec.emit_get_pointers. intro H.
  apply bind_Ok in H as ([th s1] & Hh & H). cbn [fst snd] in H.
  apply bind_Ok in H as (alloc & _ & H).
  apply bind_Ok in H as ([tt s3] & Ht & H).
  apply bind_Ok in H as (t & _ & H).
  cbn [fst snd] in *. injection H as _ <-.
  apply emit_header_indent in Hh as [Ih Eh].
  apply emit_trailer_indent in Ht as [It _].
  rewrite Eh in It. lia.
Qed.

(** C7.  Whichever of the three fragments is emitted for a record, with or
    without a condition, the indent of the object after the emission is the
    indent before it. *)
Theorem C7_indent_restored (self self' : MAPL_DataSpec.t) (text : string) :
  MAPL_DataSpec.emit_specs self = Ok (text, self')
  \/ MAPL_DataSpec.emit_declare_pointers self = Ok (text, self')
  \/ MAPL_DataSpec.emit_get_pointers self = Ok (text, self') ->
  MAPL_DataSpec.indent self' = MAPL_DataSpec.indent self.
Proof.
  intros [H|[H|H]].
  - eapply emit_specs_indent; eauto.
  - apply emit_declare_pointers_self in H. subst. reflexivity.
  - eapply emit_get_pointers_indent; eauto.
Qed.

Lemma C7_witness :
  exists self text self',
    spec_full = Ok self
    /\ MAPL_DataSpec.condition self = VStr "do_it"
    /\ MAPL_DataSpec.emit_get_pointers self = Ok (text, self')
    /\ MAPL_DataSpec.indent self' = MAPL_DataSpec.indent self.
Proof.
  destruct spec_full as [self|e] eqn:E; [|vm_compute in E; discriminate E].
  destruct (MAPL_DataSpec.emit_get_pointers self) as [[text self']|e] eqn:E2.
  - exists self, text, self'. split; [reflexivity|]. split.
    { vm_compute in E. injection E as <-. reflexivity. }
    split; [exact E2|].
    exact (C7_indent_restored self self' text (or_intror (or_intror E2))).
  - exfalso. vm_compute in E. injection E as <-. vm_compute in E2. discriminate E2.
Defined.

(* ================================================================== *)
(** ** Emission: the pointer declaration *)

Lemma join_repeat_cons (n : nat) :
  PyStr.join "," (List.repeat ":" (S n)) = ":" ++ PyStr.repeat ",:" n.
Proof.
  induction n as [|n IH]; [reflexivity|].
  change (List.repeat ":" (S (S n))) with (":" :: List.repeat ":" (S n)).
  change (PyStr.join "," (":" :: List.repeat ":" (S n)))
    with (":" ++ "," ++ PyStr.join "," (List.repeat ":" (S n))).
  rewrite IH. reflexivity.
Qed.

(** [':' + ',:'*(rank-1)] lists [rank] dimensions when [rank] is at least 1. *)
Lemma dimension_of_rank (rank : Z) :
  1 <= rank -> ":" ++ PyStr.mul ",:" (rank - 1) = dimension_list (Z.to_nat rank).
Proof.
  intro H. unfold dimension_list, PyStr.mul.
  replace (Z.to_nat rank) with (S (Z.to_nat (rank - 1))) by lia.
  rewrite join_repeat_cons. reflexivity.
Qed.

Lemma count_dimension_list (n : nat) : count_char ":" (dimension_list n) = n.
Proof.
  destruct n as [|n]; [reflexivity|]. unfold dimension_list.
  rewrite join_repeat_cons. cbn [append count_char Ascii.eqb Bool.eqb].
  f_equal. induction n as [|n IH]; [reflexivity|].
  cbn [PyStr.repeat append count_char Ascii.eqb Bool.eqb]. f_equal. exact IH.
Qed.

Lemma append_assoc (a b c : string) : (a ++ b) ++ c = a ++ b ++ c.
Proof. induction a as [|x a IH]; cbn [append]; [|rewrite IH]; reflexivity. Qed.

Lemma declare_text_lookups (category : string) (values values' : dict) (indent : Z) :
  (forall k, Option_eqb k CONDITION = false -> dict_get k values' = dict_get k values) ->
  declare_text category values' indent = declare_text category values indent.
Proof.
  intro L.
  assert (Lm := L MANGLED_NAME eq_refl). assert (Li := L INTERNAL_NAME eq_refl).
  assert (Lr := L RANK eq_refl). assert (Lp := L PRECISION eq_refl).
  unfold declare_text, MAPL_DataSpec.init, dict_getitem. rewrite Lm, Li.
  destruct (dict_get MANGLED_NAME values) as [m|]; [|reflexivity].
  destruct (dict_get INTERNAL_NAME values) as [i|]; [|reflexivity].
  cbn [bind].
  unfold MAPL_DataSpec.emit_declare_pointers, MAPL_DataSpec.rank_of, dict_getitem,
    dict_contains, dict_get_default, MAPL_DataSpec.newline.
  cbn [MAPL_DataSpec.spec_values MAPL_DataSpec.internal_name MAPL_DataSpec.indent].
  rewrite Lr, Lp.
  destruct (dict_get RANK values) as [[| |n]|]; cbn [bind]; try reflexivity.
  destruct (str_add _ i); reflexivity.
Qed.

(** What a declaration with rank at least 1 and a string for internal
    name looks like, for any object. *)
Lemma emit_declare_pointers_text (self : MAPL_DataSpec.t) (rank : Z) (name : string) :
  dict_get RANK (MAPL_DataSpec.spec_values self) = Some (VInt rank) ->
  1 <= rank ->
  MAPL_DataSpec.internal_name self = VStr name ->
  MAPL_DataSpec.emit_declare_pointers self
  = Ok (MAPL_DataSpec.newline self ++ "real"
        ++ kind_qualifier (MAPL_DataSpec.spec_values self)
        ++ ", pointer, dimension(" ++ dimension_list (Z.to_nat rank) ++ ") :: " ++ name,
        self).
Proof.
  intros Hr Hrank Hname.
  unfold MAPL_DataSpec.emit_declare_pointers, MAPL_DataSpec.rank_of, dict_getitem,
    kind_qualifier, dict_contains, dict_get_default.
  rewrite Hr, Hname. cbn [bind str_add].
  rewrite <- (dimension_of_rank rank Hrank).
  destruct (dict_get PRECISION (MAPL_DataSpec.spec_values self)) as [kind|];
    rewrite ?append_assoc; cbn [append]; rewrite ?append_assoc; reflexivity.
Qed.

(** The rank of a digested record is at least 1. *)
Lemma digested_rank (spec : raw_spec) (record : dict) :
  digest_spec spec = Ok record ->
  exists rank, 1 <= rank /\ dict_get RANK record = Some (VInt rank).
Proof.
  intro H. apply digest_spec_Ok in H as (st & rank & _ & _ & H3 & _ & ->).
  destruct (compute_rank_Ok_inv _ _ _ H3) as (d & b & _ & Hb & Hle).
  pose proof (baseRank_positive _ _ Hb). exists rank.
  split; [lia|apply dict_get_set_same].
Qed.

Lemma init_fields (category : string) (values : dict) (indent : Z)
    (self : MAPL_DataSpec.t) :
  MAPL_DataSpec.init category values indent = Ok self ->
  MAPL_DataSpec.spec_values self = values
  /\ MAPL_DataSpec.category self = category
  /\ MAPL_DataSpec.indent self = indent
  /\ MAPL_DataSpec.condition self = dict_get_default CONDITION values
  /\ dict_get INTERNAL_NAME values = Some (MAPL_DataSpec.internal_name self)
  /\ dict_get MANGLED_NAME values = Some (MAPL_DataSpec.mangled_name self).
Proof.
  unfold MAPL_DataSpec.init, dict_getitem.
  destruct (dict_get MANGLED_NAME values) as [m|]; [|discriminate].
  destruct (dict_get INTERNAL_NAME values) as [i|]; [|discriminate].
  cbn [bind]. intro H. injection H as <-. repeat split.
Qed.

(* ================================================================== *)
(** ** Emission succeeds on digested records *)

Lemma digest_columns_derived_names (spec : raw_spec) (st st' : digest_vars) :
  derived_names_present (option_values st) ->
  digest_columns spec st = Ok st' -> derived_names_present (option_values st').
Proof.
  revert st. induction spec as [|[column cell] rest IH]; cbn [digest_columns]; intros st I H.
  - injection H as <-. exact I.
  - apply bind_Ok in H as (st1 & H1 & H2). apply (IH st1); [|exact H2].
    apply digest_column_cases in H1 as (o & _ & H1). cbv zeta in H1.
    unfold derived_names_present in *.
    destruct H1 as [[-> ->]|[[-> ->]|[[-> ->]|(N & _ & _ & ->)]]]; cbn [option_values];
      rewrite !dict_contains_set.
    + intros _. split; [|reflexivity]. apply orb_true_r.
    + cbn [orb]. change (Option_eqb MANGLED_NAME DIMS) with false.
      change (Option_eqb INTERNAL_NAME DIMS) with false.
      change (Option_eqb SHORT_NAME DIMS) with false. exact I.
    + change (Option_eqb MANGLED_NAME UNGRIDDED) with false.
      change (Option_eqb INTERNAL_NAME UNGRIDDED) with false.
      change (Option_eqb SHORT_NAME UNGRIDDED) with false. exact I.
    + assert (E : Option_eqb SHORT_NAME o = false)
        by (apply Option_eqb_neq; congruence).
      rewrite E. cbn [orb]. intro C. destruct (I C) as [A B].
      rewrite A, B, !orb_true_r. auto.
Qed.

Lemma digested_init (spec : raw_spec) (record : dict) (category : string) (indent : Z) :
  digest_spec spec = Ok record ->
  exists self, MAPL_DataSpec.init category record indent = Ok self
               /\ none_or_str (MAPL_DataSpec.condition self)
               /\ output_values_str (MAPL_DataSpec.spec_values self).
Proof.
  intro H. apply digest_spec_Ok in H as (st & rank & H1 & H2 & _ & _ & ->).
  assert (I : derived_names_present (option_values st)).
  { apply (digest_columns_derived_names spec digest_init); [|exact H1].
    intro C. discriminate C. }
  assert (S : all_none_or_str (option_values st)).
  { apply (digest_columns_none_or_str spec digest_init); [|exact H1].
    intros k v F. discriminate F. }
  assert (Hs : dict_contains SHORT_NAME (option_values st) = true).
  { apply (check_mandatory_Ok _ _ H2). rewrite get_mandatory_options_eq. left. reflexivity. }
  destruct (I Hs) as [Cm Ci]. unfold dict_contains in Cm, Ci.
  unfold MAPL_DataSpec.init, dict_getitem.
  rewrite !dict_get_set_other by reflexivity.
  destruct (dict_get MANGLED_NAME (option_values st)) as [m|]; [|discriminate Cm].
  destruct (dict_get INTERNAL_NAME (option_values st)) as [i|]; [|discriminate Ci].
  cbn [bind]. eexists. split; [reflexivity|].
  cbn [MAPL_DataSpec.condition MAPL_DataSpec.spec_values]. split.
  - unfold dict_get_default. rewrite dict_get_set_other by reflexivity.
    destruct (dict_get CONDITION (option_values st)) as [c|] eqn:Ec.
    + exact (S _ _ Ec).
    + left. reflexivity.
  - intros k v Ho Hk. destruct (Option_eqb k RANK) eqn:E.
    + apply Option_eqb_eq in E. subst k. discriminate Ho.
    + rewrite dict_get_set_other in Hk by exact E. exact (S _ _ Hk).
Qed.

Lemma str_add_truthy (text : string) (v : pyval) :
  none_or_str v -> truthy v = true -> exists t, str_add text v = Ok t.
Proof.
  intros [->|[s ->]] T; [discriminate T|]. eexists. reflexivity.
Qed.

Lemma emit_args_loop_total (self : MAPL_DataSpec.t) (keys : list Option) (text : string) :
  output_values_str (MAPL_DataSpec.spec_values self) ->
  exists t, MAPL_DataSpec.emit_args_loop self keys text = Ok t.
Proof.
  intro S. revert text.
  induction keys as [|k keys IH]; cbn [MAPL_DataSpec.emit_args_loop]; intro text.
  - eexists. reflexivity.
  - destruct (output k) eqn:Ho; [|apply IH].
    unfold MAPL_DataSpec.emit_arg, dict_get_default.
    destruct (dict_get k (MAPL_DataSpec.spec_values self)) as [v|] eqn:Ek;
      [|cbn [truthy bind]; apply IH].
    destruct (truthy v) eqn:T; [|cbn [bind]; apply IH].
    destruct (str_add_truthy (name_key k ++ "=") v (S k v Ho Ek) T) as [t Ht].
    rewrite Ht. cbn [bind]. apply IH.
Qed.

(** The registration fragment is produced for every digested record, and
    the indent is the same before and after. *)
Lemma emit_specs_digested (spec : raw_spec) (record : dict) (category : string)
    (indent : Z) :
  digest_spec spec = Ok record ->
  exists self text self',
    MAPL_DataSpec.init category record indent = Ok self
    /\ MAPL_DataSpec.emit_specs self = Ok (text, self')
    /\ MAPL_DataSpec.indent self' = MAPL_DataSpec.indent self.
Proof.
  intro H. destruct (digested_init spec record category indent H) as (self & Hi & Hc & Hv).
  assert (T : exists text self', MAPL_DataSpec.emit_specs self = Ok (text, self')).
  { unfold MAPL_DataSpec.emit_specs.
    assert (Hh : exists th n, MAPL_DataSpec.emit_header self
                              = Ok (th, MAPL_DataSpec.set_indent self n)).
    { unfold MAPL_DataSpec.emit_header.
      destruct (truthy (MAPL_DataSpec.condition self)) eqn:T.
      - destruct (str_add_truthy (MAPL_DataSpec.newline self ++ "if (") _ Hc T) as [t Ht].
        rewrite Ht. cbn [bind]. eexists. eexists. reflexivity.
      - exists (MAPL_DataSpec.newline self), (MAPL_DataSpec.indent self).
        destruct self; reflexivity. }
    destruct Hh as (th & n & Hh). rewrite Hh. cbn [bind fst snd].
    unfold MAPL_DataSpec.emit_args.
    match goal with
    | |- context [MAPL_DataSpec.emit_args_loop ?s ?ks ?t] =>
        destruct (emit_args_loop_total s ks t Hv) as [ta Ha]; rewrite Ha
    end.
    cbn [bind fst snd]. unfold MAPL_DataSpec.emit_trailer.
    cbn [MAPL_DataSpec.condition MAPL_DataSpec.set_indent].
    destruct (truthy (MAPL_DataSpec.condition self)); cbn [bind fst snd];
      eexists; eexists; reflexivity. }
  destruct T as (text & self' & T). exists self, text, self'.
  split; [exact Hi|]. split; [exact T|].
  eapply emit_specs_indent. exact T.
Qed.

(* ================================================================== *)
(** ** The spellings of a column name *)

Lemma alias_pair_same_option (a b : string) :
  is_alias_pair a b = true -> Option_getitem a = Option_getitem b.
Proof.
  unfold is_alias_pair, alias_pairs. cbn [existsb fst snd]. intro H.
  repeat (apply orb_true_iff in H as [H|H];
          [apply andb_true_iff in H as [Ha Hb];
           apply String.eqb_eq in Ha, Hb; subst; reflexivity|]).
  discriminate H.
Qed.

Lemma same_key_same_option (c1 c2 : string) :
  same_key c1 c2 = true ->
  Option_getitem (PyStr.upper c1) = Option_getitem (PyStr.upper c2).
Proof.
  unfold same_key. intro H.
  apply orb_true_iff in H as [H|H]; [apply orb_true_iff in H as [H|H]|].
  - apply String.eqb_eq in H. rewrite H. reflexivity.
  - apply alias_pair_same_option. exact H.
  - symmetry. apply alias_pair_same_option. exact H.
Qed.

Lemma same_key_digest_column (st : digest_vars) (c1 c2 cell : string) :
  same_key c1 c2 = true -> digest_column st (c1, cell) = digest_column st (c2, cell).
Proof.
  intro H. unfold digest_column. rewrite (same_key_same_option _ _ H). reflexivity.
Qed.

Lemma same_row_digest_columns (spec1 spec2 : raw_spec) :
  same_row spec1 spec2 ->
  forall st, digest_columns spec1 st = digest_columns spec2 st.
Proof.
  induction 1 as [|[c1 v1] [c2 v2] rest1 rest2 [Hk Hv] _ IH]; intro st; [reflexivity|].
  cbn [fst snd] in Hk, Hv. subst v2. cbn [digest_columns].
  rewrite (same_key_digest_column st _ _ v1 Hk).
  destruct (digest_column st (c2, v1)) as [st'|e]; cbn [bind]; [apply IH|reflexivity].
Qed.

(** C9.  Two rows that differ only in the spelling of their column names
    (the long or the short spelling of a key, in any case) digest to the
    same result, hence to identical records: both spellings resolve to the
    same member of the schema, which emits the same value; and a column
    spelled NAME or SHORT_NAME, in any case, also stores the mangled and
    the internal name. *)
Theorem C9_alias_spellings_digest_alike :
  (forall spec1 spec2 : raw_spec,
      same_row spec1 spec2 -> digest_spec spec1 = digest_spec spec2)
  /\ (forall c1 c2 : string,
        same_key c1 c2 = true ->
        Option_getitem (PyStr.upper c1) = Option_getitem (PyStr.upper c2))
  /\ (forall (c cell : string) (st : digest_vars),
        same_key c "SHORT_NAME" = true ->
        digest_column st (c, cell)
        = Ok (mkVars
                (dict_set INTERNAL_NAME (make_internal_name cell)
                   (dict_set MANGLED_NAME (mangle_name cell)
                      (dict_set SHORT_NAME (mangle_name cell) (option_values st))))
                (dims st) (ungridded st)))
  /\ Forall (fun p => exists o, Option_getitem (fst p) = Ok o /\ Option_getitem (snd p) = Ok o)
       alias_pairs.
Proof.
  split; [|split; [|split]].
  - intros spec1 spec2 H. unfold digest_spec.
    rewrite (same_row_digest_columns spec1 spec2 H). reflexivity.
  - exact same_key_same_option.
  - intros c cell st H. rewrite (same_key_digest_column st c "SHORT_NAME" cell H).
    reflexivity.
  - unfold alias_pairs. repeat (constructor; [eexists; split; reflexivity|]).
    constructor.
Qed.

Lemma C9_witness :
  digest_spec row_long_spellings = digest_spec row_short_spellings
  /\ exists record, digest_spec row_short_spellings = Ok record.
Proof.
  split.
  - apply (proj1 C9_alias_spellings_digest_alike).
    unfold row_long_spellings, row_short_spellings.
    repeat (constructor; [split; vm_compute; reflexivity|]). constructor.
  - eexists. vm_compute. reflexivity.
Defined.

(* ================================================================== *)
(** * Further properties of the code *)

(* ================================================================== *)
(** ** The wildcard in the two derived names *)

Lemma count_char_replace (old : ascii) (new s : string) :
  count_char old (PyStr.replace old new s)
  = (count_char old s * count_char old new)%nat.
Proof.
  induction s as [|c s IH]; cbn [PyStr.replace count_char]; [reflexivity|].
  destruct (Ascii.eqb c old) eqn:E.
  - rewrite count_char_app, IH. cbn [Nat.mul]. lia.
  - cbn [count_char]. rewrite E. exact IH.
Qed.

Lemma replace_without (old : ascii) (new s : string) :
  count_char old s = O -> PyStr.replace old new s = s.
Proof.
  induction s as [|c s IH]; cbn [PyStr.replace count_char]; [reflexivity|].
  destruct (Ascii.eqb c old); [discriminate|]. intro H. rewrite (IH H). reflexivity.
Qed.

Lemma length_app (s t : string) :
  String.length (s ++ t) = (String.length s + String.length t)%nat.
Proof. induction s as [|c s IH]; cbn [append String.length]; [|rewrite IH]; reflexivity. Qed.

Lemma length_replace (old : ascii) (new s : string) :
  String.length (PyStr.replace old new s)
  = (String.length s - count_char old s + count_char old s * String.length new)%nat.
Proof.
  induction s as [|c s IH]; cbn [PyStr.replace count_char String.length]; [reflexivity|].
  assert (B : (count_char old s <= String.length s)%nat).
  { clear IH. induction s as [|d s IH]; cbn [count_char String.length]; [lia|].
    destruct (Ascii.eqb d old); lia. }
  destruct (Ascii.eqb c old).
  - rewrite length_app, IH. cbn [Nat.mul]. lia.
  - cbn [String.length]. rewrite IH. lia.
Qed.

Lemma truthy_VStr (s : string) : truthy (VStr s) = true <-> s <> "".
Proof.
  cbn [truthy]. rewrite negb_true_iff. split.
  - intros H E. subst s. discriminate H.
  - intro N. destruct s; [congruence|reflexivity].
Qed.

(** Replacing a character is splitting at it and joining the pieces. *)
Lemma replace_join_split (old : ascii) (new s : string) :
  PyStr.replace old new s = PyStr.join new (PyStr.split old s).
Proof.
  induction s as [|c s IH]; cbn [PyStr.replace PyStr.split]; [reflexivity|].
  destruct (Ascii.eqb c old).
  - rewrite IH. destruct (PyStr.split old s) as [|w ws] eqn:E.
    + destruct s; cbn [PyStr.split] in E; [discriminate E|].
      destruct (Ascii.eqb _ old); [discriminate E|].
      destruct (PyStr.split old s); discriminate E.
    + reflexivity.
  - rewrite IH. destruct (PyStr.split old s) as [|w [|w' ws]]; reflexivity.
Qed.

(** Replacing a character by nothing takes it out. *)
Lemma replace_by_nothing (old : ascii) (s : string) :
  PyStr.replace old "" s = without_char old s.
Proof.
  induction s as [|c s IH]; cbn [PyStr.replace without_char]; [reflexivity|].
  destruct (Ascii.eqb c old); cbn [append]; rewrite IH; reflexivity.
Qed.

(** X1.  [make_internal_name] gives [None] for the empty name and, for any
    other name, the name with its wildcards taken out, that is the pieces
    between the wildcards put together: a text without wildcard, shorter
    than the name by the number of its wildcards, the name itself when it
    has none, and the empty string when it is made of wildcards only. *)
Theorem make_internal_name_drops_wildcards (name : string) :
  (name = "" -> make_internal_name name = VNone)
  /\ (name <> "" ->
      make_internal_name name = VStr (without_char "*" name)
      /\ without_char "*" name = PyStr.join "" (PyStr.split "*" name)
      /\ count_char "*" (without_char "*" name) = O
      /\ (String.length (without_char "*" name) + count_char "*" name
          = String.length name)%nat
      /\ (count_char "*" name = O -> without_char "*" name = name)).
Proof.
  split.
  - intros ->. reflexivity.
  - intro N. unfold make_internal_name. apply truthy_VStr in N. rewrite N.
    rewrite <- !replace_by_nothing.
    split; [reflexivity|]. split; [apply replace_join_split|]. split; [|split].
    + rewrite count_char_replace. cbn [count_char]. lia.
    + rewrite length_replace. cbn [String.length].
      assert (B : (count_char "*" name <= String.length name)%nat).
      { clear N. induction name as [|d s IH]; cbn [count_char String.length]; [lia|].
        destruct (Ascii.eqb d "*"); lia. }
      lia.
    + apply replace_without.
Qed.

(** X2.  [mangle_name] gives [None] for the empty name and, for any other
    name, the quoted text [with_component_name name]: the pieces of the name
    between its wildcards, joined by the expression of the run-time
    component name.  That text holds no wildcard, is longer than the name by
    20 characters for each wildcard, and is the name itself when the name
    has no wildcard; then it is the internal name. *)
Theorem mangle_name_quotes_without_wildcards (name : string) :
  (name = "" -> mangle_name name = VNone)
  /\ (name <> "" ->
      mangle_name name = VStr ("'" ++ with_component_name name ++ "'")
      /\ count_char "*" (with_component_name name) = O
      /\ (String.length (with_component_name name)
          = String.length name + 20 * count_char "*" name)%nat
      /\ (count_char "*" name = O ->
          with_component_name name = name
          /\ make_internal_name name = VStr (with_component_name name))).
Proof.
  split; [intros ->; reflexivity|].
  intro N. pose proof N as T. apply truthy_VStr in T.
  unfold mangle_name, make_internal_name, string_emit, with_component_name. rewrite T.
  rewrite <- replace_join_split.
  set (r := PyStr.replace "*" "'//trim(comp_name)//'" name).
  assert (L : (String.length r
               = String.length name + 20 * count_char "*" name)%nat).
  { unfold r. rewrite length_replace.
    assert (B : (count_char "*" name <= String.length name)%nat).
    { clear. induction name as [|d s IH]; cbn [count_char String.length]; [lia|].
      destruct (Ascii.eqb d "*"); lia. }
    change (String.length "'//trim(comp_name)//'") with 21%nat. lia. }
  assert (R : truthy (VStr r) = true).
  { apply truthy_VStr. intro E. rewrite E in L. cbn [String.length] in L.
    destruct name; [congruence|]. cbn [String.length] in L. lia. }
  rewrite R. split; [reflexivity|]. split; [|split; [exact L|]].
  - unfold r. rewrite count_char_replace. vm_compute (count_char "*" "'//trim(comp_name)//'").
    lia.
  - intro Z. unfold r. rewrite !replace_without by exact Z. auto.
Qed.

Lemma mangle_name_witness : mangle_name "T*" = VStr "'T'//trim(comp_name)//''".
Proof.
  assert (N : "T*" <> "") by discriminate.
  destruct (proj2 (mangle_name_quotes_without_wildcards "T*") N) as (E & _).
  rewrite E. reflexivity.
Defined.

Lemma make_internal_name_witness : make_internal_name "T*" = VStr "T".
Proof.
  assert (N : "T*" <> "") by discriminate.
  destruct (proj2 (make_internal_name_drops_wildcards "T*") N) as (E & _).
  rewrite E. reflexivity.
Defined.

(* ================================================================== *)
(** ** The enumeration and its aliases *)






Lemma distinct_NoDup (l : list string) : distinct l = true -> NoDup l.
Proof.
  induction l as [|x l IH]; cbn [distinct]; intro H; [constructor|].
  apply andb_true_iff in H as [Hx Hl]. apply negb_true_iff, contains_not_In in Hx.
  constructor; auto.
Qed.



(* ================================================================== *)
(** ** Dims codes and ranks *)

(** X4.  Every token that [DIMS_EMIT] emits has a rank in [RANKS], and the rank
    is the number of letters of the dims code ([z], [xy], [xyz]): a
    recognized code never fails the rank lookup. *)
Theorem emitted_dims_have_a_rank (code d : string) :
  DIMS_EMIT code = VStr d ->
  RANKS_getitem (VStr d) = Ok (Z.of_nat (String.length code))
  /\ 1 <= Z.of_nat (String.length code) <= 3.
Proof.
  unfold DIMS_EMIT, make_entry_emit. cbn [DIMS_OPTIONS List.map str_lookup].
  destruct (String.eqb code "z") eqn:E1;
    [|destruct (String.eqb code "xy") eqn:E2;
      [|destruct (String.eqb code "xyz") eqn:E3; [|discriminate]]];
    intro H; injection H as <-;
    match goal with E : String.eqb code _ = true |- _ => apply String.eqb_eq in E; subst code end;
    (split; [reflexivity|cbn [String.length]; lia]).
Qed.

Lemma emitted_dims_witness :
  RANKS_getitem (VStr "MAPL_DimsHorzOnly") = Ok 2.
Proof.
  exact (proj1 (emitted_dims_have_a_rank "xy" "MAPL_DimsHorzOnly" eq_refl)).
Defined.

(** X5.  For a recognized dims token and any non-empty ungridded text, the
    rank is the base rank plus one plus the number of commas of the text:
    brackets play no part, so an ungridded text that is only brackets, as
    the empty list, still counts for one extra dimension. *)
Theorem compute_rank_counts_commas (d u : string) (b : Z) :
  RANKS_getitem (VStr d) = Ok b -> u <> "" ->
  compute_rank (VStr d) (VStr u) = Ok (b + (1 + Z.of_nat (count_char "," u)))
  /\ compute_rank (VStr d) (VStr "[]") = Ok (b + 1)
  /\ compute_rank (VStr d) (VStr "") = Ok (b + 0).
Proof.
  intros Hb N. apply truthy_VStr in N.
  assert (G : forall t, truthy (VStr t) = true ->
                compute_rank (VStr d) (VStr t) = Ok (b + (1 + Z.of_nat (count_char "," t)))).
  { intros t T. unfold compute_rank. rewrite T. cbn [bind]. rewrite Hb. cbn [bind].
    unfold PyStr.strip_chars.
    rewrite split_length, count_char_strip_by by reflexivity.
    f_equal. lia. }
  split; [exact (G u N)|]. split.
  - rewrite (G "[]" eq_refl). reflexivity.
  - unfold compute_rank. cbn [truthy String.eqb negb bind]. rewrite Hb. reflexivity.
Qed.

Lemma compute_rank_counts_commas_witness :
  compute_rank (VStr "MAPL_DimsHorzOnly") (VStr "[nx,ny,nz]") = Ok 5.
Proof.
  assert (N : "[nx,ny,nz]" <> "") by discriminate.
  exact (proj1 (compute_rank_counts_commas "MAPL_DimsHorzOnly" "[nx,ny,nz]" 2
                  eq_refl N)).
Defined.

(** X6.  [compute_rank] fails only on the dims value, and then with the
    [KeyError] of the lookup in [RANKS]: for an ungridded value that is
    [None] or a string, it fails exactly when dims is none of the three
    tokens (so also when the dims cell was not recognized and dims is
    [None]), and the error is the [KeyError] of that value. *)
Theorem compute_rank_fails_on_unknown_dims (dims u : pyval) :
  none_or_str u ->
  ((exists e, compute_rank dims u = Raise e)
   <-> dims <> VStr "MAPL_DimsVertOnly" /\ dims <> VStr "MAPL_DimsHorzOnly"
       /\ dims <> VStr "MAPL_DimsHorzVert")
  /\ (forall e, compute_rank dims u = Raise e -> e = KeyError (KValue dims)).
Proof.
  intro Hu.
  assert (X : exists x, (if truthy u
                         then match u with
                              | VStr t => Ok (Z.of_nat
                                   (List.length (PyStr.split "," (PyStr.strip_chars "][" t))))
                              | _ => Raise AttributeError
                              end
                         else Ok 0) = Ok x).
  { destruct Hu as [->|[t ->]]; [eexists; reflexivity|].
    destruct (truthy (VStr t)); eexists; reflexivity. }
  destruct X as [x Hx]. unfold compute_rank. rewrite Hx. cbn [bind].
  unfold RANKS_getitem. cbn [RANKS DIMS_OPTIONS List.map str_lookup].
  destruct dims as [|d|n].
  - cbn [bind]. split; [split|].
    + intros _. repeat split; discriminate.
    + intros _. eexists. reflexivity.
    + intros e H. injection H as <-. reflexivity.
  - destruct (String.eqb d "MAPL_DimsVertOnly") eqn:E1;
      [|destruct (String.eqb d "MAPL_DimsHorzOnly") eqn:E2;
        [|destruct (String.eqb d "MAPL_DimsHorzVert") eqn:E3]];
      cbn [bind]; (split; [split|]);
      try (intros [e H]; discriminate H);
      try (intros e H; discriminate H);
      try (intros e H; injection H as <-; reflexivity);
      try (intros _; eexists; reflexivity).
    + apply String.eqb_eq in E1. subst d. intros (N & _). congruence.
    + apply String.eqb_eq in E2. subst d. intros (_ & N & _). congruence.
    + apply String.eqb_eq in E3. subst d. intros (_ & _ & N). congruence.
    + intros _. apply String.eqb_neq in E1, E2, E3. repeat split; congruence.
  - cbn [bind]. split; [split|].
    + intros _. repeat split; discriminate.
    + intros _. eexists. reflexivity.
    + intros e H. injection H as <-. reflexivity.
Qed.

Lemma compute_rank_fails_witness :
  compute_rank VNone (VStr "[a]") = Raise (KeyError (KValue VNone)).
Proof.
  assert (Hu : none_or_str (VStr "[a]")) by (right; eexists; reflexivity).
  destruct (compute_rank VNone (VStr "[a]")) as [r|e] eqn:E;
    [vm_compute in E; discriminate E|].
  rewrite (proj2 (compute_rank_fails_on_unknown_dims VNone (VStr "[a]") Hu) e E).
  reflexivity.
Defined.

(* ================================================================== *)
(** ** What a row stores under a key *)

(** One turn of the column loop, seen from a key that is none of the two
    derived names. *)
Lemma digest_column_get (o : Option) (st st' : digest_vars) (column cell : string) :
  Option_eqb o MANGLED_NAME = false -> Option_eqb o INTERNAL_NAME = false ->
  digest_column st (column, cell) = Ok st' ->
  dict_get o (option_values st')
  = if resolves_to o column then Some (Option_call o cell)
    else dict_get o (option_values st).
Proof.
  intros N1 N2 H. apply digest_column_cases in H as (o' & Ho & H). cbv zeta in H.
  unfold resolves_to. rewrite Ho.
  assert (G : dict_get o (dict_set o' (Option_call o' cell) (option_values st))
              = if Option_eqb o' o then Some (Option_call o cell)
                else dict_get o (option_values st)).
  { destruct (Option_eqb o' o) eqn:E.
    - apply Option_eqb_eq in E. subst o'. apply dict_get_set_same.
    - apply dict_get_set_other. rewrite Option_eqb_sym. exact E. }
  destruct H as [[-> ->]|[[-> ->]|[[-> ->]|(_ & _ & _ & ->)]]]; cbn [option_values];
    rewrite ?(dict_get_set_other INTERNAL_NAME o _ _ N2),
            ?(dict_get_set_other MANGLED_NAME o _ _ N1); exact G.
Qed.

Lemma digest_columns_last_cell (o : Option) (spec : raw_spec) :
  Option_eqb o MANGLED_NAME = false -> Option_eqb o INTERNAL_NAME = false ->
  forall st st', digest_columns spec st = Ok st' ->
    dict_get o (option_values st')
    = match last_cell o spec with
      | Some cell => Some (Option_call o cell)
      | None => dict_get o (option_values st)
      end.
Proof.
  intros N1 N2. induction spec as [|[column cell] rest IH];
    cbn [digest_columns last_cell]; intros st st' H.
  - injection H as <-. reflexivity.
  - apply bind_Ok in H as (st1 & H1 & H2). rewrite (IH _ _ H2).
    destruct (last_cell o rest); [reflexivity|].
    rewrite (digest_column_get o st st1 column cell N1 N2 H1).
    destruct (resolves_to o column); reflexivity.
Qed.

(** X7.  In a digested record the value under any key, other than the rank and
    the two derived names, is the emit function of the key applied to the
    cell of the last column that names the key, under any of its
    spellings: a later column overrides an earlier one.  A key that no
    column names is not in the record. *)
Theorem stored_value_is_emit_of_last_cell (spec : raw_spec) (record : dict) (o : Option) :
  digest_spec spec = Ok record ->
  Option_eqb o MANGLED_NAME = false -> Option_eqb o INTERNAL_NAME = false ->
  Option_eqb o RANK = false ->
  dict_get o record = option_map (Option_call o) (last_cell o spec)
  /\ (has_column o spec = false -> dict_get o record = None).
Proof.
  intros H N1 N2 N3.
  apply digest_spec_Ok in H as (st & rank & H1 & _ & _ & _ & ->).
  rewrite dict_get_set_other by exact N3.
  rewrite (digest_columns_last_cell o spec N1 N2 _ _ H1). cbn [digest_init option_values dict_get].
  split.
  - destruct (last_cell o spec); reflexivity.
  - intro Hc. pose proof (digest_columns_contains_init o spec st N1 N2 H1) as C.
    rewrite Hc in C. unfold dict_contains in C.
    rewrite (digest_columns_last_cell o spec N1 N2 _ _ H1) in C.
    destruct (last_cell o spec); [discriminate C|reflexivity].
Qed.

Lemma stored_value_witness :
  exists record,
    digest_spec row_units_twice = Ok record
    /\ dict_get UNITS record = Some (VStr "'degC'").
Proof.
  destruct (digest_spec row_units_twice) as [record|e] eqn:E;
    [|vm_compute in E; discriminate E].
  exists record. split; [reflexivity|].
  rewrite (proj1 (stored_value_is_emit_of_last_cell row_units_twice record UNITS E
                    eq_refl eq_refl eq_refl)).
  reflexivity.
Defined.

(* ================================================================== *)
(** ** The derived names and the rank of a record *)

Lemma digest_column_derived (st st' : digest_vars) (column cell : string) :
  digest_column st (column, cell) = Ok st' ->
  (resolves_to MANGLED_NAME column = false ->
   dict_get MANGLED_NAME (option_values st')
   = if resolves_to SHORT_NAME column then Some (mangle_name cell)
     else dict_get MANGLED_NAME (option_values st))
  /\ (resolves_to INTERNAL_NAME column = false ->
      dict_get INTERNAL_NAME (option_values st')
      = if resolves_to SHORT_NAME column then Some (make_internal_name cell)
        else dict_get INTERNAL_NAME (option_values st)).
Proof.
  intro H. apply digest_column_cases in H as (o & Ho & H). cbv zeta in H.
  unfold resolves_to. rewrite Ho.
  destruct H as [[-> ->]|[[-> ->]|[[-> ->]|(N & _ & _ & ->)]]]; cbn [option_values].
  - split; intros _.
    + rewrite dict_get_set_other by reflexivity. rewrite dict_get_set_same. reflexivity.
    + rewrite dict_get_set_same. reflexivity.
  - split; intros _; rewrite dict_get_set_other by reflexivity; reflexivity.
  - split; intros _; rewrite dict_get_set_other by reflexivity; reflexivity.
  - assert (E : Option_eqb o SHORT_NAME = false) by (apply Option_eqb_neq; exact N).
    rewrite E. split; intro M; rewrite dict_get_set_other; auto;
      rewrite Option_eqb_sym; exact M.
Qed.

Lemma digest_columns_derived (spec : raw_spec) :
  forall st st', digest_columns spec st = Ok st' ->
    (has_column MANGLED_NAME spec = false ->
     dict_get MANGLED_NAME (option_values st')
     = match last_cell SHORT_NAME spec with
       | Some cell => Some (mangle_name cell)
       | None => dict_get MANGLED_NAME (option_values st)
       end)
    /\ (has_column INTERNAL_NAME spec = false ->
        dict_get INTERNAL_NAME (option_values st')
        = match last_cell SHORT_NAME spec with
          | Some cell => Some (make_internal_name cell)
          | None => dict_get INTERNAL_NAME (option_values st)
          end).
Proof.
  induction spec as [|[column cell] rest IH];
    cbn [digest_columns last_cell has_column existsb fst]; intros st st' H.
  - injection H as <-. auto.
  - apply bind_Ok in H as (st1 & H1 & H2).
    destruct (IH _ _ H2) as [A B]. destruct (digest_column_derived _ _ _ _ H1) as [C D].
    split; intro M; apply orb_false_iff in M as [Mc Mr].
    + rewrite (A Mr). destruct (last_cell SHORT_NAME rest); [reflexivity|].
      rewrite (C Mc). destruct (resolves_to SHORT_NAME column); reflexivity.
    + rewrite (B Mr). destruct (last_cell SHORT_NAME rest); [reflexivity|].
      rewrite (D Mc). destruct (resolves_to SHORT_NAME column); reflexivity.
Qed.

(** X8.  Every digested record has a short-name column, and stores the mangled
    form of its last short-name cell under the short name.  Unless the row
    has a column of its own for them, the mangled name is that same value
    and the internal name is the cell without its wildcards. *)
Theorem derived_names_of_last_short_name (spec : raw_spec) (record : dict) :
  digest_spec spec = Ok record ->
  exists cell,
    last_cell SHORT_NAME spec = Some cell
    /\ dict_get SHORT_NAME record = Some (mangle_name cell)
    /\ (has_column MANGLED_NAME spec = false ->
        dict_get MANGLED_NAME record = Some (mangle_name cell))
    /\ (has_column INTERNAL_NAME spec = false ->
        dict_get INTERNAL_NAME record = Some (make_internal_name cell)).
Proof.
  intro H. pose proof H as H'.
  apply digest_spec_Ok in H as (st & rank & H1 & H2 & _ & _ & ->).
  assert (Hs : dict_contains SHORT_NAME (option_values st) = true).
  { apply (check_mandatory_Ok _ _ H2). rewrite get_mandatory_options_eq. left. reflexivity. }
  pose proof (digest_columns_last_cell SHORT_NAME spec eq_refl eq_refl _ _ H1) as L.
  cbn [digest_init option_values dict_get] in L.
  unfold dict_contains in Hs. rewrite L in Hs.
  destruct (last_cell SHORT_NAME spec) as [cell|] eqn:E; [|discriminate Hs].
  exists cell. split; [reflexivity|].
  destruct (digest_columns_derived spec _ _ H1) as [A B]. rewrite E in A, B.
  rewrite !dict_get_set_other by reflexivity. auto.
Qed.

Lemma derived_names_witness :
  exists record cell,
    digest_spec row_full = Ok record
    /\ last_cell SHORT_NAME row_full = Some cell
    /\ dict_get INTERNAL_NAME record = Some (make_internal_name cell).
Proof.
  destruct (digest_spec row_full) as [record|e] eqn:E;
    [|vm_compute in E; discriminate E].
  destruct (derived_names_of_last_short_name row_full record E)
    as (cell & L & _ & _ & I).
  exists record, cell. split; [reflexivity|]. split; [exact L|].
  apply I. vm_compute. reflexivity.
Defined.

(** X9.  The rank of a digested record, from the cells of the row: the rank of
    the token of the last dims cell, which is a recognized code, plus
    nothing when the row has no ungridded column or its last ungridded cell
    is empty, and plus one more than the number of commas of that cell
    otherwise.  A column named RANK in the row has no influence. *)
Theorem rank_from_cells (spec : raw_spec) (record : dict) :
  digest_spec spec = Ok record ->
  exists code d b,
    last_cell DIMS spec = Some code
    /\ DIMS_EMIT code = VStr d
    /\ RANKS_getitem (VStr d) = Ok b /\ 1 <= b <= 3
    /\ dict_get RANK record
       = Some (VInt (b + match last_cell UNGRIDDED spec with
                         | Some u => if String.eqb u "" then 0
                                     else 1 + Z.of_nat (count_char "," u)
                         | None => 0
                         end)).
Proof.
  intro H. apply digest_spec_Ok in H as (st & rank & H1 & _ & H3 & _ & ->).
  destruct (digest_columns_tracked _ _ _ tracked_init H1) as [Td Tu].
  unfold dict_get_default in Td, Tu.
  rewrite (digest_columns_last_cell DIMS spec eq_refl eq_refl _ _ H1) in Td.
  rewrite (digest_columns_last_cell UNGRIDDED spec eq_refl eq_refl _ _ H1) in Tu.
  cbn [digest_init option_values dict_get] in Td, Tu.
  destruct (compute_rank_Ok_inv _ _ _ H3) as (d & b & Ed & Hb & _).
  destruct (last_cell DIMS spec) as [code|]; [|rewrite Td in Ed; discriminate Ed].
  exists code, d, b. split; [reflexivity|].
  split; [rewrite <- Ed, Td; reflexivity|].
  split; [apply RANKS_getitem_baseRank; exact Hb|].
  split; [eapply baseRank_positive; exact Hb|].
  rewrite dict_get_set_same. rewrite Ed in H3. do 2 f_equal.
  destruct (last_cell UNGRIDDED spec) as [u|].
  - change (Option_call UNGRIDDED u) with (array_emit u) in Tu. unfold array_emit in Tu.
    cbn [truthy] in Tu. destruct (String.eqb u "") eqn:Eu; cbn [negb] in Tu; rewrite Tu in H3.
    + rewrite (compute_rank_absent _ _ Hb) in H3. congruence.
    + rewrite (compute_rank_bracketed _ _ _ Hb) in H3. unfold commaCount in H3.
      injection H3 as <-. lia.
  - rewrite Tu, (compute_rank_absent _ _ Hb) in H3. congruence.
Qed.

Lemma rank_from_cells_witness :
  exists record, digest_spec row_full = Ok record
                 /\ dict_get RANK record = Some (VInt 5).
Proof.
  destruct (digest_spec row_full) as [record|e] eqn:E;
    [|vm_compute in E; discriminate E].
  exists record. split; [reflexivity|].
  destruct (rank_from_cells row_full record E) as (code & d & b & L & Ec & Hb & _ & R).
  rewrite R. vm_compute in L. injection L as <-.
  vm_compute in Ec. injection Ec as <-. vm_compute in Hb. injection Hb as <-.
  reflexivity.
Defined.

(* ================================================================== *)
(** ** Digestion as a whole: first error, unknown columns, keys *)

Lemma digest_category_Ok (rows : list raw_spec) (records : list dict) :
  digest_category rows = Ok records <->
  Forall2 (fun row record => digest_spec row = Ok record) rows records.
Proof.
  revert records. induction rows as [|row rows IH]; cbn [digest_category]; intro records.
  - split.
    + intro H. injection H as <-. constructor.
    + intro H. inversion H. reflexivity.
  - split.
    + intro H. apply bind_Ok in H as (r & Hr & H).
      apply bind_Ok in H as (rs & Hrs & H). injection H as <-.
      constructor; [exact Hr|]. apply IH. exact Hrs.
    + intro H. inversion H as [|? r ? rs Hr Hrs]; subst.
      rewrite Hr. cbn [bind]. apply IH in Hrs. rewrite Hrs. reflexivity.
Qed.

Lemma digest_category_Raise (rows : list raw_spec) (e : exn) :
  digest_category rows = Raise e <->
  exists before row after,
    rows = (before ++ row :: after)%list
    /\ Forall (fun r => exists record, digest_spec r = Ok record) before
    /\ digest_spec row = Raise e.
Proof.
  induction rows as [|row rows IH]; cbn [digest_category].
  - split; [discriminate|]. intros (before & r & after & E & _).
    destruct before; discriminate E.
  - split.
    + destruct (digest_spec row) as [record|e'] eqn:Hr; cbn [bind].
      * destruct (digest_category rows) as [rs|e''] eqn:Hrs; cbn [bind]; [discriminate|].
        intro H. injection H as ->.
        destruct (proj1 IH eq_refl) as (before & r & after & -> & F & Hf).
        exists (row :: before), r, after. split; [reflexivity|].
        split; [constructor; eauto|exact Hf].
      * intro H. injection H as ->. exists [], row, rows. auto.
    + intros (before & r & after & E & F & Hf). destruct before as [|b before].
      * cbn [app] in E. injection E as <- <-. rewrite Hf. reflexivity.
      * cbn [app] in E. injection E as <- ->. inversion F as [|? ? [record Hb] F']; subst.
        rewrite Hb. cbn [bind].
        assert (R : digest_category (before ++ r :: after) = Raise e).
        { apply IH. exists before, r, after. auto. }
        rewrite R. reflexivity.
Qed.

Lemma digest_category_app (rows1 rows2 : list raw_spec) :
  digest_category (rows1 ++ rows2) =
    (records1 <- digest_category rows1 ;;
     records2 <- digest_category rows2 ;;
     Ok (records1 ++ records2)%list).
Proof.
  induction rows1 as [|row rows1 IH]; cbn [app digest_category bind].
  - destruct (digest_category rows2); reflexivity.
  - destruct (digest_spec row); cbn [bind]; [|reflexivity].
    rewrite IH. destruct (digest_category rows1); cbn [bind]; [|reflexivity].
    destruct (digest_category rows2); reflexivity.
Qed.

Lemma digest_flat (specs : list (string * list raw_spec)) :
  match digest specs with
  | Ok out => digest_category (List.concat (List.map snd specs))
              = Ok (List.concat (List.map snd out))
  | Raise e => digest_category (List.concat (List.map snd specs)) = Raise e
  end.
Proof.
  induction specs as [|[category rows] specs IH]; cbn [digest List.map snd List.concat].
  - reflexivity.
  - rewrite digest_category_app.
    destruct (digest_category rows) as [records|e]; cbn [bind]; [|reflexivity].
    destruct (digest specs) as [out|e]; cbn [bind List.map snd List.concat];
      rewrite IH; reflexivity.
Qed.

(** X10.  [digest] works row by row and stops at the first row that fails: when
    it returns, the output has the categories of the input, in order, and
    under each the records of its rows, in order; when it fails, the error
    is that of the first row, in the order of the categories and of the
    rows in each, that does not digest, and every row before it digests. *)
Theorem digest_is_rowwise_and_fails_fast (specs : list (string * list raw_spec)) :
  (forall out, digest specs = Ok out <->
     List.map fst out = List.map fst specs
     /\ Forall2 (fun rows records =>
                   Forall2 (fun row record => digest_spec row = Ok record) rows records)
          (List.map snd specs) (List.map snd out))
  /\ (forall e, digest specs = Raise e <->
        exists before row after,
          List.concat (List.map snd specs) = (before ++ row :: after)%list
          /\ Forall (fun r => exists record, digest_spec r = Ok record) before
          /\ digest_spec row = Raise e).
Proof.
  split.
  - induction specs as [|[category rows] specs IH]; intro out; cbn [digest List.map fst snd].
    + split.
      * intro H. injection H as <-. split; [reflexivity|constructor].
      * intros [H1 H2]. destruct out; [reflexivity|discriminate H1].
    + split.
      * intro H. apply bind_Ok in H as (records & Hr & H).
        apply bind_Ok in H as (rest & Hrest & H). injection H as <-.
        apply IH in Hrest as [E F]. cbn [List.map fst snd]. split; [f_equal; exact E|].
        constructor; [apply digest_category_Ok; exact Hr|exact F].
      * intros [H1 H2]. destruct out as [|[c records] out]; [discriminate H1|].
        cbn [List.map fst snd] in H1, H2. injection H1 as -> H1.
        inversion H2 as [|? ? ? ? Hr F]; subst.
        apply digest_category_Ok in Hr. rewrite Hr. cbn [bind].
        assert (R : digest specs = Ok out) by (apply IH; auto).
        rewrite R. reflexivity.
  - intro e. rewrite <- digest_category_Raise.
    pose proof (digest_flat specs) as F.
    destruct (digest specs) as [out|e']; split; intro H.
    + discriminate H.
    + rewrite F in H. discriminate H.
    + injection H as <-. exact F.
    + rewrite F in H. injection H as ->. reflexivity.
Qed.




Lemma dict_set_keys (k : Option) (v : pyval) (d : dict) :
  NoDup (List.map fst d) ->
  NoDup (List.map fst (dict_set k v d))
  /\ forall k', In k' (List.map fst (dict_set k v d)) <-> k' = k \/ In k' (List.map fst d).
Proof.
  induction d as [|[k0 v0] d IH]; cbn [dict_set List.map fst]; intro ND.
  - split; [constructor; [intros []|constructor]|].
    intro k'. cbn [In]. intuition congruence.
  - apply NoDup_cons_iff in ND as [N ND]. destruct (IH ND) as [A B].
    destruct (Option_eqb k k0) eqn:E; cbn [List.map fst].
    + apply Option_eqb_eq in E. subst k0. split; [constructor; assumption|].
      intro k'. cbn [In]. intuition congruence.
    + apply Option_eqb_neq in E. split.
      * constructor; [|exact A]. rewrite B. intros [F|F]; [congruence|exact (N F)].
      * intro k'. cbn [In]. rewrite B. intuition congruence.
Qed.

Lemma is_member_In (members : list Option) (m : Option) :
  is_member members m = true -> In m members.
Proof.
  unfold is_member. rewrite existsb_exists. intros (x & Hx & E).
  apply Option_eqb_eq in E. subst. exact Hx.
Qed.

Lemma Option_getitem_member (n : string) (o : Option) :
  Option_getitem n = Ok o -> In o Option_members.
Proof.
  assert (F : forallb (fun p => is_member Option_members (snd p)) Option_member_map = true)
    by (vm_compute; reflexivity).
  rewrite forallb_forall in F. unfold Option_getitem.
  destruct (str_lookup n Option_member_map) as [m|] eqn:L; [|discriminate].
  intro H. injection H as <-. apply is_member_In.
  assert (I : In (n, m) Option_member_map \/ True) by auto.
  clear I. revert L. generalize Option_member_map F. intros mp Fm.
  induction mp as [|[k x] mp IH]; cbn [str_lookup]; [discriminate|].
  destruct (String.eqb n k).
  - intro H. injection H as <-. apply (Fm (k, x)). left. reflexivity.
  - intro H. apply IH; [|exact H]. intros p Hp. apply Fm. right. exact Hp.
Qed.

(** X12.  The keys of a digested record are members of the enumeration, never a
    second spelling of one, and no key occurs twice; the rank and the two
    derived names are always among them. *)
Theorem record_keys_are_members (spec : raw_spec) (record : dict) :
  digest_spec spec = Ok record ->
  NoDup (List.map fst record)
  /\ (forall k, In k (List.map fst record) -> In k Option_members)
  /\ In RANK (List.map fst record)
  /\ In MANGLED_NAME (List.map fst record)
  /\ In INTERNAL_NAME (List.map fst record).
Proof.
  intro H.
  assert (K : forall spec st st',
             digest_columns spec st = Ok st' ->
             NoDup (List.map fst (option_values st)) ->
             (forall k, In k (List.map fst (option_values st)) -> In k Option_members) ->
             NoDup (List.map fst (option_values st'))
             /\ (forall k, In k (List.map fst (option_values st')) -> In k Option_members)).
  { clear. induction spec as [|[column cell] rest IH]; cbn [digest_columns]; intros st st' H ND M.
    - injection H as <-. auto.
    - apply bind_Ok in H as (st1 & H1 & H2). apply (IH _ _ H2).
      + apply digest_column_cases in H1 as (o & _ & H1). cbv zeta in H1.
        destruct H1 as [[-> ->]|[[-> ->]|[[-> ->]|(_ & _ & _ & ->)]]]; cbn [option_values];
          repeat apply dict_set_keys; exact ND.
      + apply digest_column_cases in H1 as (o & Ho & H1). cbv zeta in H1.
        apply Option_getitem_member in Ho.
        assert (S : forall k v d, NoDup (List.map fst d) ->
                      In k Option_members ->
                      (forall k', In k' (List.map fst d) -> In k' Option_members) ->
                      forall k', In k' (List.map fst (dict_set k v d)) -> In k' Option_members).
        { intros k v d NDd Hk Hd k' Hk'. apply (dict_set_keys k v d NDd) in Hk'.
          destruct Hk' as [->|Hk']; auto. }
        assert (Mm : In MANGLED_NAME Option_members)
          by (apply is_member_In; vm_compute; reflexivity).
        assert (Mi : In INTERNAL_NAME Option_members)
          by (apply is_member_In; vm_compute; reflexivity).
        destruct H1 as [[-> ->]|[[-> ->]|[[-> ->]|(_ & _ & _ & ->)]]]; cbn [option_values];
          repeat (apply S; [repeat apply dict_set_keys; exact ND|assumption|]);
          exact M. }
  pose proof (digested_init spec record "" 0 H) as (self & Hi & _).
  apply init_fields in Hi as (_ & _ & _ & _ & Ii & Im).
  apply digest_spec_Ok in H as (st & rank & H1 & _ & _ & _ & ->).
  destruct (K spec digest_init st H1) as [ND M];
    [constructor|intros k []|].
  pose proof (dict_set_keys RANK (VInt rank) (option_values st) ND) as [A B].
  split; [exact A|]. split.
  - intros k Hk. apply B in Hk as [->|Hk]; [|auto].
    apply is_member_In. vm_compute. reflexivity.
  - assert (G : forall k v, dict_get k (dict_set RANK (VInt rank) (option_values st)) = Some v ->
                  In k (List.map fst (dict_set RANK (VInt rank) (option_values st)))).
    { intros k v. generalize (dict_set RANK (VInt rank) (option_values st)).
      induction d as [|[k0 v0] d IH]; cbn [dict_get List.map fst In]; [discriminate|].
      destruct (Option_eqb k k0) eqn:E.
      - apply Option_eqb_eq in E. auto.
      - intro G. right. auto. }
    split; [apply B; left; reflexivity|]. split; eapply G; eassumption.
Qed.

Lemma record_keys_witness :
  exists record, digest_spec row_full = Ok record /\ NoDup (List.map fst record).
Proof.
  destruct (digest_spec row_full) as [record|e] eqn:E;
    [|vm_compute in E; discriminate E].
  exists record. split; [reflexivity|].
  exact (proj1 (record_keys_are_members row_full record E)).
Defined.

(* ================================================================== *)
(** ** The rule engine: the joiner [any], and missing attributes *)

Lemma upto_first_true_find (values : dict) (conds : list condition) :
  List.filter (holds values) (upto_first_true values conds)
  = match List.find (holds values) conds with
    | Some c => [c]
    | None => []
    end
  /\ existsb (holds values) (upto_first_true values conds)
     = match List.find (holds values) conds with
       | Some _ => true
       | None => false
       end.
Proof.
  induction conds as [|c rest [IH1 IH2]]; cbn [upto_first_true List.find]; [auto|].
  destruct (holds values c) eqn:Hc.
  - cbn [List.filter existsb]. rewrite Hc. auto.
  - cbn [List.filter existsb]. rewrite Hc. auto.
Qed.

(** X13.  A rule with the joiner [any] reports one condition only: when the
    values supply the attributes of the conditions up to the first one
    that holds, the check raises a violation whose message is the phrase
    of that condition alone, and returns when no condition holds.  The
    separator " or " never gets into a message. *)
Theorem any_rule_reports_the_first_true_condition (conds : list condition) (values : dict) :
  supplies values (upto_first_true values conds) = true ->
  exists r,
    Rule_init conds py_any = Ok r
    /\ Rule_check r values
       = match List.find (holds values) conds with
         | Some c => Raise (RuleViolation (name_key (c_option c) ++ " " ++ c_message c))
         | None => Ok tt
         end.
Proof.
  intro S. eexists. split; [reflexivity|].
  unfold Rule_check. cbn [processed_conditions break_on_true joiner rule_joiner].
  rewrite (rule_loop_any _ _ S). cbn [bind app apply_joiner].
  rewrite existsb_id_map.
  destruct (upto_first_true_find values conds) as [F E]. rewrite E, F.
  destruct (List.find (holds values) conds); reflexivity.
Qed.

Lemma any_rule_witness :
  exists r,
    Rule_init rule_any_two py_any = Ok r
    /\ Rule_check r values_HorzVert_None
       = Raise (RuleViolation "dims is equal to MAPL_DimsHorzVert").
Proof.
  exact (any_rule_reports_the_first_true_condition rule_any_two values_HorzVert_None
           eq_refl).
Defined.

Lemma rule_loop_prefix (before rest : list condition) (brk : bool) (values : dict) :
  supplies values before = true ->
  (brk = true -> existsb (holds values) before = false) ->
  forall messages results,
    exists messages' results',
      rule_loop (before ++ rest) brk values messages results
      = rule_loop rest brk values messages' results'.
Proof.
  induction before as [|c before IH]; cbn [app supplies forallb existsb]; intros S B messages results.
  - eexists. eexists. reflexivity.
  - apply andb_true_iff in S as [Sc Sr]. cbn [rule_loop].
    rewrite (predicate_holds _ _ Sc). cbn [bind].
    destruct (holds values c) eqn:Hc.
    + destruct brk.
      * specialize (B eq_refl). discriminate B.
      * apply IH; [exact Sr|discriminate].
    + apply IH; [exact Sr|]. intro Eb. exact (B Eb).
Qed.

(** X14.  A check that reaches a condition whose attribute the values lack
    fails with the [KeyError] of that attribute: with the joiner [all]
    that is the first such condition of the rule, whatever the other
    conditions say; with [any], the first such condition provided no
    condition before it holds. *)
Theorem rule_check_missing_attribute (before after : list condition) (c : condition)
    (j : joiner_fn) (values : dict) :
  supplies values before = true ->
  dict_contains (c_option c) values = false ->
  j = py_all \/ (j = py_any /\ existsb (holds values) before = false) ->
  exists r,
    Rule_init (before ++ c :: after) j = Ok r
    /\ Rule_check r values = Raise (KeyError (KOption (c_option c))).
Proof.
  intros S M J.
  assert (K : forall brk messages results,
             rule_loop (c :: after) brk values messages results
             = Raise (KeyError (KOption (c_option c)))).
  { intros. cbn [rule_loop]. unfold predicate, relation. cbn [operand_value].
    unfold dict_getitem, dict_contains in *.
    destruct (dict_get (c_option c) values); [discriminate M|reflexivity]. }
  destruct J as [->|[-> B]]; (eexists; split; [reflexivity|]);
    unfold Rule_check; cbn [processed_conditions break_on_true joiner rule_joiner].
  - destruct (rule_loop_prefix before (c :: after) false values S
                (fun E => False_ind _ (Bool.diff_false_true E)) [] [])
      as (ms & rs & E).
    rewrite E, K. reflexivity.
  - destruct (rule_loop_prefix before (c :: after) true values S (fun _ => B) [] [])
      as (ms & rs & E).
    rewrite E, K. reflexivity.
Qed.

Lemma rule_check_missing_witness :
  exists r,
    Rule_init rule_HorzOnly_notNone py_all = Ok r
    /\ Rule_check r [(DIMS, VStr "MAPL_DimsVertOnly")]
       = Raise (KeyError (KOption VLOCATION)).
Proof.
  refine (rule_check_missing_attribute
            [mkCondition DIMS equals (Lit (VStr "MAPL_DimsHorzOnly"))
               "is equal to MAPL_DimsHorzOnly"]
            []
            (mkCondition VLOCATION does_not_equal (Lit (VStr "MAPL_VlocationNone"))
               "is not equal to MAPL_VlocationNone")
            py_all [(DIMS, VStr "MAPL_DimsVertOnly")] _ _ _).
  - vm_compute. reflexivity.
  - vm_compute. reflexivity.
  - left. reflexivity.
Defined.

(* ================================================================== *)
(** ** Normalizing a logical: strip and lower *)

Lemma to_lower_idem (c : ascii) : PyStr.to_lower (PyStr.to_lower c) = PyStr.to_lower c.
Proof. destruct c as [[] [] [] [] [] [] [] []]; reflexivity. Qed.

Lemma lower_idem (s : string) : PyStr.lower (PyStr.lower s) = PyStr.lower s.
Proof.
  induction s as [|c s IH]; cbn [PyStr.lower PyStr.map]; [reflexivity|].
  fold (PyStr.lower s). fold (PyStr.lower (PyStr.lower s)).
  rewrite to_lower_idem, IH. reflexivity.
Qed.

Lemma lstrip_lower (s : string) :
  PyStr.lstrip_by PyStr.isspace (PyStr.lower s)
  = PyStr.lower (PyStr.lstrip_by PyStr.isspace s).
Proof.
  induction s as [|c s IH]; cbn [PyStr.lower PyStr.map PyStr.lstrip_by]; [reflexivity|].
  fold (PyStr.lower s). rewrite isspace_to_lower.
  destruct (PyStr.isspace c); [exact IH|reflexivity].
Qed.

Lemma rstrip_lower (s : string) :
  PyStr.rstrip_by PyStr.isspace (PyStr.lower s)
  = PyStr.lower (PyStr.rstrip_by PyStr.isspace s).
Proof.
  induction s as [|c s IH]; cbn [PyStr.lower PyStr.map PyStr.rstrip_by]; [reflexivity|].
  fold (PyStr.lower s). rewrite IH, isspace_to_lower.
  destruct (PyStr.rstrip_by PyStr.isspace s) as [|d r]; cbn [PyStr.lower PyStr.map].
  - destruct (PyStr.isspace c); reflexivity.
  - reflexivity.
Qed.

Lemma strip_lower (s : string) :
  PyStr.strip (PyStr.lower s) = PyStr.lower (PyStr.strip s).
Proof.
  unfold PyStr.strip, PyStr.strip_by. rewrite lstrip_lower, rstrip_lower. reflexivity.
Qed.

Lemma rstrip_by_idem (p : ascii -> bool) (s : string) :
  PyStr.rstrip_by p (PyStr.rstrip_by p s) = PyStr.rstrip_by p s.
Proof.
  induction s as [|c s IH]; cbn [PyStr.rstrip_by]; [reflexivity|].
  destruct (PyStr.rstrip_by p s) as [|d r] eqn:R.
  - destruct (p c) eqn:Pc; cbn [PyStr.rstrip_by]; [reflexivity|]. rewrite Pc. reflexivity.
  - change (PyStr.rstrip_by p (String c (String d r)))
      with (match PyStr.rstrip_by p (String d r) with
            | EmptyString => if p c then EmptyString else String c EmptyString
            | String x y => String c (String x y)
            end).
    rewrite IH. reflexivity.
Qed.

Lemma rstrip_by_head (p : ascii -> bool) (c : ascii) (s : string) :
  p c = false -> exists r, PyStr.rstrip_by p (String c s) = String c r.
Proof.
  intro Pc. cbn [PyStr.rstrip_by]. destruct (PyStr.rstrip_by p s).
  - rewrite Pc. eexists. reflexivity.
  - eexists. reflexivity.
Qed.

Lemma lstrip_by_head (p : ascii -> bool) (s : string) :
  PyStr.lstrip_by p s = ""
  \/ exists c r, PyStr.lstrip_by p s = String c r /\ p c = false.
Proof.
  induction s as [|c s IH]; cbn [PyStr.lstrip_by]; [left; reflexivity|].
  destruct (p c) eqn:Pc; [exact IH|]. right. exists c, s. auto.
Qed.

Lemma strip_by_idem (p : ascii -> bool) (s : string) :
  PyStr.strip_by p (PyStr.strip_by p s) = PyStr.strip_by p s.
Proof.
  unfold PyStr.strip_by.
  destruct (lstrip_by_head p s) as [E|(c & r & E & Pc)]; rewrite E.
  - reflexivity.
  - destruct (rstrip_by_head p c r Pc) as [r' E']. rewrite E'.
    cbn [PyStr.lstrip_by]. rewrite Pc. rewrite <- E'. apply rstrip_by_idem.
Qed.

(** Stripping and lowering a text that was stripped and lowered changes
    nothing. *)
Lemma normalize_idem (s : string) :
  PyStr.lower (PyStr.strip (PyStr.lower (PyStr.strip s))) = PyStr.lower (PyStr.strip s).
Proof.
  rewrite strip_lower, lower_idem. unfold PyStr.strip. rewrite strip_by_idem. reflexivity.
Qed.


(** X15.  [get_fortran_logical] returns one of the two literals or fails; the
    literals are recognized tokens, so canonicalizing a result gives the
    result again; and a text and its stripped, lowered form have the same
    result whenever either has one. *)
Theorem get_fortran_logical_is_idempotent :
  (forall (v : pyval) (r : string),
      get_fortran_logical v = Ok r ->
      (r = ".true." \/ r = ".false.") /\ get_fortran_logical (VStr r) = Ok r)
  /\ (forall s r : string,
        get_fortran_logical (VStr s) = Ok r
        <-> get_fortran_logical (VStr (PyStr.lower (PyStr.strip s))) = Ok r).
Proof.
  split.
  - intros v r H. unfold get_fortran_logical in H. destruct v as [|s|n]; try discriminate H.
    destruct (PyStr.contains TRUE_VALUES (PyStr.lower (PyStr.strip s)));
      [injection H as <-; split; [left|]; reflexivity|].
    destruct (PyStr.contains FALSE_VALUES (PyStr.lower (PyStr.strip s)));
      [injection H as <-; split; [right|]; reflexivity|discriminate H].
  - intros s r. unfold get_fortran_logical. rewrite normalize_idem.
    destruct (PyStr.contains TRUE_VALUES (PyStr.lower (PyStr.strip s))); [reflexivity|].
    destruct (PyStr.contains FALSE_VALUES (PyStr.lower (PyStr.strip s))); [reflexivity|].
    split; discriminate.
Qed.

Lemma get_fortran_logical_idempotent_witness :
  get_fortran_logical (VStr ".true.") = Ok ".true.".
Proof.
  assert (H : get_fortran_logical (VStr " SI ") = Ok ".true.") by reflexivity.
  exact (proj2 (proj1 get_fortran_logical_is_idempotent (VStr " SI ") ".true." H)).
Defined.



(* ================================================================== *)
(** ** Emission: what the registration call shows *)

Lemma append_nil_r (s : string) : s ++ "" = s.
Proof. induction s as [|c s IH]; cbn [append]; [|rewrite IH]; reflexivity. Qed.

Lemma dict_get_In (d : dict) (k : Option) (v : pyval) :
  NoDup (List.map fst d) -> In (k, v) d -> dict_get k d = Some v.
Proof.
  induction d as [|[k0 v0] d IH]; cbn [List.map fst dict_get]; intros ND Hin; [destruct Hin|].
  apply NoDup_cons_iff in ND as [N ND]. destruct Hin as [E|Hin].
  - injection E as -> ->. rewrite Option_eqb_refl. reflexivity.
  - destruct (Option_eqb k k0) eqn:E.
    + apply Option_eqb_eq in E. subst k0. exfalso. apply N.
      apply in_map_iff. exists (k, v). auto.
    + apply IH; assumption.
Qed.

Lemma emit_args_loop_entries (self : MAPL_DataSpec.t) (entries : dict) (text : string) :
  (forall k v, In (k, v) entries -> dict_get k (MAPL_DataSpec.spec_values self) = Some v) ->
  MAPL_DataSpec.emit_args_loop self (List.map fst entries) text
  = args_of_entries (MAPL_DataSpec.continue_line self) entries text.
Proof.
  revert text. induction entries as [|[k v] rest IH]; intros text L;
    cbn [List.map fst MAPL_DataSpec.emit_args_loop args_of_entries]; [reflexivity|].
  assert (Lr : forall k' v', In (k', v') rest ->
                 dict_get k' (MAPL_DataSpec.spec_values self) = Some v')
    by (intros; apply L; right; assumption).
  unfold shown. cbn [fst snd]. destruct (output k); cbn [andb]; [|apply IH; exact Lr].
  unfold MAPL_DataSpec.emit_arg, dict_get_default. rewrite (L k v (or_introl eq_refl)).
  destruct (truthy v).
  - destruct (str_add (name_key k ++ "=") v); cbn [bind]; [apply IH; exact Lr|reflexivity].
  - cbn [bind]. rewrite append_nil_r. apply IH. exact Lr.
Qed.

Lemma args_of_entries_shown (continue_line : string) (entries : dict) (text : string) :
  args_of_entries continue_line (List.filter shown entries) text
  = args_of_entries continue_line entries text.
Proof.
  revert text. induction entries as [|[k v] rest IH]; intro text;
    cbn [List.filter args_of_entries]; [reflexivity|].
  destruct (shown (k, v)) eqn:S; cbn [args_of_entries]; [rewrite S|]; [|apply IH].
  destruct (str_add (name_key k ++ "=") v); cbn [bind]; [apply IH|reflexivity].
Qed.

Lemma NoDup_filter_keys (f : Option * pyval -> bool) (d : dict) :
  NoDup (List.map fst d) -> NoDup (List.map fst (List.filter f d)).
Proof.
  induction d as [|[k v] d IH]; cbn [List.map fst List.filter]; intro ND; [constructor|].
  apply NoDup_cons_iff in ND as [N ND]. destruct (f (k, v)); cbn [List.map fst]; [|auto].
  constructor; [|auto]. intro H. apply N. apply in_map_iff in H as ([k' v'] & E & Hin).
  cbn [fst] in E. subst k'. apply filter_In in Hin as [Hin _].
  apply in_map_iff. exists (k, v'). auto.
Qed.

(** X17.  The argument block of the registration call depends only on the
    entries with an output option and a true value: an object whose
    dictionary keeps only those entries emits the same text.  So the
    options that are not output (condition, alloc, the derived names, the
    rank) and the values that are [None] or empty leave no trace in it. *)
Theorem emit_args_shows_output_entries_only (self : MAPL_DataSpec.t) :
  NoDup (List.map fst (MAPL_DataSpec.spec_values self)) ->
  text_of (MAPL_DataSpec.emit_args
             (with_spec_values self (List.filter shown (MAPL_DataSpec.spec_values self))))
  = text_of (MAPL_DataSpec.emit_args self).
Proof.
  intro ND. unfold text_of, MAPL_DataSpec.emit_args.
  cbn [with_spec_values MAPL_DataSpec.set_indent MAPL_DataSpec.spec_values
       MAPL_DataSpec.indent MAPL_DataSpec.category MAPL_DataSpec.condition
       MAPL_DataSpec.mangled_name MAPL_DataSpec.internal_name].
  rewrite !emit_args_loop_entries.
  - unfold MAPL_DataSpec.continue_line, MAPL_DataSpec.newline.
    cbn [MAPL_DataSpec.indent]. rewrite args_of_entries_shown.
    destruct (args_of_entries _ _ _); reflexivity.
  - intros k v Hin. cbn [MAPL_DataSpec.spec_values]. apply dict_get_In; assumption.
  - intros k v Hin. cbn [MAPL_DataSpec.spec_values].
    apply dict_get_In; [apply NoDup_filter_keys; exact ND|exact Hin].
Qed.

Lemma emit_args_shows_witness :
  exists self,
    spec_full = Ok self
    /\ text_of (MAPL_DataSpec.emit_args
                  (with_spec_values self
                     (List.filter shown (MAPL_DataSpec.spec_values self))))
       = text_of (MAPL_DataSpec.emit_args self).
Proof.
  destruct spec_full as [self|e] eqn:E; [|vm_compute in E; discriminate E].
  exists self. split; [reflexivity|].
  apply emit_args_shows_output_entries_only.
  vm_compute in E. injection E as <-. cbn [MAPL_DataSpec.spec_values List.map fst].
  repeat (constructor; [cbn [In]; intuition discriminate|]). constructor.
Defined.

(* ================================================================== *)
(** ** Emission: the guard around a fragment *)

(** X18.  The registration fragment.  Without a condition it is the argument
    block between two line breaks at the indent of the object.  With a
    condition it is the line [if (condition) then], the argument block that
    an object three columns deeper emits, and the line [endif], all at the
    indent of the object: a guard with no [else]. *)
Theorem emit_specs_guards_the_arguments (self : MAPL_DataSpec.t) :
  let i := MAPL_DataSpec.indent self in
  (truthy (MAPL_DataSpec.condition self) = false ->
   text_of (MAPL_DataSpec.emit_specs self)
   = (args <- text_of (MAPL_DataSpec.emit_args self) ;;
      Ok (newline_at i ++ args ++ newline_at i)))
  /\ (forall c, MAPL_DataSpec.condition self = VStr c -> c <> "" ->
        text_of (MAPL_DataSpec.emit_specs self)
        = (args <- text_of (MAPL_DataSpec.emit_args
                              (MAPL_DataSpec.set_indent self (i + 3))) ;;
           Ok (newline_at i ++ "if (" ++ c ++ ") then" ++ newline_at (i + 3)
               ++ args ++ newline_at i ++ "endif" ++ newline_at i))).
Proof.
  cbv zeta. split.
  - intro T. unfold text_of, MAPL_DataSpec.emit_specs, MAPL_DataSpec.emit_header.
    rewrite T. cbn [bind fst snd].
    destruct (MAPL_DataSpec.emit_args self) as [[args s1]|e] eqn:Ea; cbn [bind fst snd];
      [|reflexivity].
    pose proof (emit_args_indent _ _ _ Ea) as [Ii Ic].
    unfold MAPL_DataSpec.emit_trailer. rewrite Ic, T. cbn [bind fst snd].
    unfold MAPL_DataSpec.newline, newline_at. rewrite Ii. reflexivity.
  - intros c Ec N. apply truthy_VStr in N.
    unfold text_of, MAPL_DataSpec.emit_specs, MAPL_DataSpec.emit_header.
    rewrite Ec, N. cbn [str_add bind fst snd].
    destruct (MAPL_DataSpec.emit_args
                (MAPL_DataSpec.set_indent self (MAPL_DataSpec.indent self + 3)))
      as [[args s1]|e] eqn:Ea; cbn [bind fst snd]; [|reflexivity].
    pose proof (emit_args_indent _ _ _ Ea) as [Ii Ic].
    cbn [MAPL_DataSpec.set_indent MAPL_DataSpec.indent MAPL_DataSpec.condition] in Ii, Ic.
    unfold MAPL_DataSpec.emit_trailer. rewrite Ic, Ec, N. cbn [bind fst snd].
    unfold MAPL_DataSpec.newline, newline_at.
    cbn [MAPL_DataSpec.set_indent MAPL_DataSpec.indent]. rewrite Ii.
    replace (MAPL_DataSpec.indent self + 3 - 3) with (MAPL_DataSpec.indent self) by lia.
    rewrite ?append_assoc. cbn [append]. rewrite ?append_assoc. reflexivity.
Qed.

Lemma emit_specs_guards_witness :
  exists self args,
    spec_full = Ok self
    /\ text_of (MAPL_DataSpec.emit_args (MAPL_DataSpec.set_indent self 6)) = Ok args
    /\ text_of (MAPL_DataSpec.emit_specs self)
       = Ok (newline_at 3 ++ "if (do_it) then" ++ newline_at 6
             ++ args ++ newline_at 3 ++ "endif" ++ newline_at 3).
Proof.
  destruct spec_full as [self|e] eqn:E; [|vm_compute in E; discriminate E].
  assert (Ec : MAPL_DataSpec.condition self = VStr "do_it")
    by (vm_compute in E; injection E as <-; reflexivity).
  assert (Ei : MAPL_DataSpec.indent self = 3)
    by (vm_compute in E; injection E as <-; reflexivity).
  assert (N : "do_it" <> "") by discriminate.
  pose proof (proj2 (emit_specs_guards_the_arguments self) "do_it" Ec N) as H.
  rewrite Ei in H. change (3 + 3) with 6 in H.
  destruct (text_of (MAPL_DataSpec.emit_args (MAPL_DataSpec.set_indent self 6)))
    as [args|e] eqn:Ea.
  - exists self, args. split; [reflexivity|]. split; [exact Ea|]. exact H.
  - exfalso. vm_compute in E. injection E as <-. vm_compute in Ea. discriminate Ea.
Defined.

Lemma as_strs_strings (l : list string) (rest : list pyval) :
  as_strs (List.map VStr l ++ rest)
  = (strs <- as_strs rest ;; Ok (l ++ strs)%list).
Proof.
  induction l as [|s l IH]; cbn [List.map app as_strs].
  - destruct (as_strs rest); reflexivity.
  - rewrite IH. destruct (as_strs rest); reflexivity.
Qed.

(** X19.  The retrieval fragment, for names that are strings and an alloc
    argument list that [emit_pointer_alloc] returns: the call, its
    arguments joined by a comma and a blank, closed by [_RC)].  With a
    condition the call is under [if (condition) then], three columns
    deeper, and is followed by an [else] branch that nullifies the
    internal name, and by [endif]; without one there is no guard. *)
Theorem emit_get_pointers_text (self : MAPL_DataSpec.t) (iname mname : string)
    (alloc : list string) :
  MAPL_DataSpec.internal_name self = VStr iname ->
  MAPL_DataSpec.mangled_name self = VStr mname ->
  MAPL_DataSpec.emit_pointer_alloc self = Ok alloc ->
  let i := MAPL_DataSpec.indent self in
  (truthy (MAPL_DataSpec.condition self) = false ->
   text_of (MAPL_DataSpec.emit_get_pointers self)
   = Ok (PyStr.join ", "
           (List.app
              [newline_at i ++ "call MAPL_GetPointer(" ++ MAPL_DataSpec.category self;
               iname; mname]
              (List.app alloc ["_RC)" ++ newline_at i]))))
  /\ (forall c, MAPL_DataSpec.condition self = VStr c -> c <> "" ->
        text_of (MAPL_DataSpec.emit_get_pointers self)
        = Ok (PyStr.join ", "
                (List.app
                   [newline_at i ++ "if (" ++ c ++ ") then" ++ newline_at (i + 3)
                    ++ "call MAPL_GetPointer(" ++ MAPL_DataSpec.category self;
                    iname; mname]
                   (List.app alloc
                      ["_RC)" ++ newline_at i ++ "else" ++ newline_at i
                       ++ "   nullify(" ++ iname ++ ")" ++ newline_at i
                       ++ "endif" ++ newline_at i])))).
Proof.
  intros Ei Em Ea. cbv zeta.
  assert (A : forall n, MAPL_DataSpec.emit_pointer_alloc (MAPL_DataSpec.set_indent self n)
                        = Ok alloc) by (intro n; exact Ea).
  split.
  - intro T. unfold text_of, MAPL_DataSpec.emit_get_pointers, MAPL_DataSpec.emit_header.
    rewrite T. cbn [bind fst snd]. rewrite Ea. cbn [bind].
    unfold MAPL_DataSpec.emit_trailer. rewrite T. cbn [bind fst snd].
    rewrite Ei, Em. unfold join_values.
    match goal with
    | |- context [as_strs (List.app [VStr ?a; VStr ?b; VStr ?c0]
                             (List.app (List.map VStr alloc) [VStr ?z]))] =>
        change (List.app [VStr a; VStr b; VStr c0] (List.app (List.map VStr alloc) [VStr z]))
          with (List.app (List.map VStr [a; b; c0])
                  (List.app (List.map VStr alloc) [VStr z]))
    end.
    rewrite !as_strs_strings. cbn [as_strs bind]. reflexivity.
  - intros c Ec N. apply truthy_VStr in N.
    unfold text_of, MAPL_DataSpec.emit_get_pointers, MAPL_DataSpec.emit_header.
    rewrite Ec, N. cbn [str_add bind fst snd]. rewrite A. cbn [bind].
    unfold MAPL_DataSpec.emit_trailer.
    cbn [MAPL_DataSpec.set_indent MAPL_DataSpec.condition MAPL_DataSpec.indent
         MAPL_DataSpec.internal_name MAPL_DataSpec.mangled_name MAPL_DataSpec.category].
    rewrite Ec, N, Ei, Em. cbn [str_add bind fst snd]. unfold join_values.
    unfold MAPL_DataSpec.newline, newline_at.
    cbn [MAPL_DataSpec.set_indent MAPL_DataSpec.indent].
    replace (MAPL_DataSpec.indent self + 3 - 3) with (MAPL_DataSpec.indent self) by lia.
    match goal with
    | |- context [as_strs (List.app [VStr ?a; VStr ?b; VStr ?c0]
                             (List.app (List.map VStr alloc) [VStr ?z]))] =>
        change (List.app [VStr a; VStr b; VStr c0] (List.app (List.map VStr alloc) [VStr z]))
          with (List.app (List.map VStr [a; b; c0])
                  (List.app (List.map VStr alloc) [VStr z]))
    end.
    rewrite !as_strs_strings. cbn [as_strs bind].
    rewrite ?append_assoc. cbn [append]. rewrite ?append_assoc. reflexivity.
Qed.

Lemma emit_get_pointers_witness :
  exists self,
    spec_full = Ok self
    /\ text_of (MAPL_DataSpec.emit_get_pointers self)
       = Ok (PyStr.join ", "
               [newline_at 3 ++ "if (do_it) then" ++ newline_at 6
                ++ "call MAPL_GetPointer(export";
                "T"; "'T'//trim(comp_name)//''"; "alloc=.true.";
                "_RC)" ++ newline_at 3 ++ "else" ++ newline_at 3
                ++ "   nullify(T)" ++ newline_at 3 ++ "endif" ++ newline_at 3]).
Proof.
  destruct spec_full as [self|e] eqn:E; [|vm_compute in E; discriminate E].
  exists self. split; [reflexivity|].
  assert (Ei : MAPL_DataSpec.internal_name self = VStr "T")
    by (vm_compute in E; injection E as <-; reflexivity).
  assert (Em : MAPL_DataSpec.mangled_name self = VStr "'T'//trim(comp_name)//''")
    by (vm_compute in E; injection E as <-; reflexivity).
  assert (Ea : MAPL_DataSpec.emit_pointer_alloc self = Ok ["alloc=.true."])
    by (vm_compute in E; injection E as <-; reflexivity).
  assert (Ec : MAPL_DataSpec.condition self = VStr "do_it")
    by (vm_compute in E; injection E as <-; reflexivity).
  assert (N : "do_it" <> "") by discriminate.
  rewrite (proj2 (emit_get_pointers_text self "T" "'T'//trim(comp_name)//''"
                    ["alloc=.true."] Ei Em Ea) "do_it" Ec N).
  vm_compute in E. injection E as <-. reflexivity.
Defined.

(* ================================================================== *)
(** ** From a digested record to its fragments *)

Lemma digested_internal_name (spec : raw_spec) (record : dict) (category : string)
    (indent : Z) (self : MAPL_DataSpec.t) :
  digest_spec spec = Ok record ->
  MAPL_DataSpec.init category record indent = Ok self ->
  none_or_str (MAPL_DataSpec.internal_name self)
  /\ (has_column INTERNAL_NAME spec = false ->
      exists cell, last_cell SHORT_NAME spec = Some cell
                   /\ MAPL_DataSpec.internal_name self = make_internal_name cell).
Proof.
  intros H Hi. apply init_fields in Hi as (_ & _ & _ & _ & Ii & _).
  apply digest_spec_Ok in H as (st & rank & H1 & H2 & _ & _ & ->).
  rewrite dict_get_set_other in Ii by reflexivity.
  split.
  - apply (digest_columns_none_or_str spec digest_init st) with (k := INTERNAL_NAME);
      [intros k v F; discriminate F|exact H1|exact Ii].
  - intro Hc. destruct (digest_columns_derived spec _ _ H1) as [_ B].
    rewrite (B Hc) in Ii.
    destruct (last_cell SHORT_NAME spec) as [cell|]; [|discriminate Ii].
    exists cell. split; [reflexivity|]. congruence.
Qed.

(* ================================================================== *)
(** ** The pointer declaration *)

(** C8, counterexample.  Digestion accepts a row whose short-name cell is
    empty; the internal name of its record is [None], and the declaration
    of its object is not produced: it fails with a [TypeError] at the
    concatenation of the text and the internal name. *)
Lemma C8_counterexample : ~ declaration_is_produced row_empty_name.
Proof.
  intro H.
  destruct (digest_spec row_empty_name) as [record|e] eqn:E;
    [|vm_compute in E; discriminate E].
  destruct (MAPL_DataSpec.init "import" record 3) as [self|e] eqn:Ei;
    [|vm_compute in E; injection E as <-; vm_compute in Ei; discriminate Ei].
  destruct (H record "import" 3 self E Ei) as [text Ht].
  vm_compute in E. injection E as <-. vm_compute in Ei. injection Ei as <-.
  vm_compute in Ht. discriminate Ht.
Qed.

(** C8, amended.  The internal name of the object built from a digested
    record is a string or [None].  When it is a string, the pointer
    declaration is [real], the kind qualifier, [pointer], a dimension list
    of exactly rank-many dimensions (the rank of a digested record is at
    least 1), and the internal name; when it is [None], the declaration
    fails with a [TypeError].  The kind qualifier is there exactly when the
    record has the precision attribute; and the declaration has no guard:
    it is the same, text or failure, whether the record has a condition
    attribute or none. *)
Theorem C8_declare_pointers (spec : raw_spec) (record : dict) (category : string)
    (indent : Z) (self : MAPL_DataSpec.t) :
  digest_spec spec = Ok record ->
  MAPL_DataSpec.init category record indent = Ok self ->
  exists rank : Z,
    1 <= rank /\ dict_get RANK record = Some (VInt rank)
    /\ (MAPL_DataSpec.internal_name self = VNone
        \/ exists name : string, MAPL_DataSpec.internal_name self = VStr name)
    /\ (forall name : string,
          MAPL_DataSpec.internal_name self = VStr name ->
          MAPL_DataSpec.emit_declare_pointers self
          = Ok (MAPL_DataSpec.newline self ++ "real" ++ kind_qualifier record
                ++ ", pointer, dimension(" ++ dimension_list (Z.to_nat rank) ++ ") :: "
                ++ name,
                self))
    /\ (MAPL_DataSpec.internal_name self = VNone ->
        MAPL_DataSpec.emit_declare_pointers self = Raise TypeError)
    /\ count_char ":" (dimension_list (Z.to_nat rank)) = Z.to_nat rank
    /\ (kind_qualifier record <> "" <-> dict_contains PRECISION record = true)
    /\ (forall condition : pyval,
          declare_text category (dict_set CONDITION condition record) indent
          = declare_text category (dict_remove CONDITION record) indent).
Proof.
  intros Hd Hi.
  destruct (digested_rank _ _ Hd) as (rank & Hrank & Hr).
  destruct (digested_internal_name spec record category indent self Hd Hi) as [Hn _].
  destruct (init_fields _ _ _ _ Hi) as (Ev & _).
  exists rank. split; [exact Hrank|]. split; [exact Hr|]. split; [exact Hn|].
  split; [|split; [|split; [|split]]].
  - intros name Hname. rewrite <- Ev in Hr.
    rewrite (emit_declare_pointers_text self rank name Hr Hrank Hname).
    rewrite Ev. reflexivity.
  - intro E. unfold MAPL_DataSpec.emit_declare_pointers, MAPL_DataSpec.rank_of, dict_getitem.
    rewrite Ev, Hr, E. reflexivity.
  - apply count_dimension_list.
  - unfold kind_qualifier, dict_contains.
    destruct (dict_get PRECISION record); split;
      try discriminate; try reflexivity; congruence.
  - intro condition.
    rewrite (declare_text_lookups category record (dict_set CONDITION condition record))
      by (intros k Hk; apply dict_get_set_other; exact Hk).
    rewrite (declare_text_lookups category record (dict_remove CONDITION record))
      by (intros k Hk; apply dict_get_remove_other; exact Hk).
    reflexivity.
Qed.

Lemma C8_witness :
  exists record self,
    digest_spec row_full = Ok record
    /\ MAPL_DataSpec.init "export" record 3 = Ok self
    /\ dict_get RANK record = Some (VInt 5)
    /\ MAPL_DataSpec.emit_declare_pointers self
       = Ok (PyStr.LF ++ "   real(kind=8), pointer, dimension(:,:,:,:,:) :: T", self).
Proof.
  destruct (digest_spec row_full) as [record|e] eqn:E;
    [|vm_compute in E; discriminate E].
  destruct (MAPL_DataSpec.init "export" record 3) as [self|e] eqn:Ei;
    [|vm_compute in E; injection E as <-; vm_compute in Ei; discriminate Ei].
  exists record, self. split; [reflexivity|]. split; [exact Ei|].
  assert (Hn : MAPL_DataSpec.internal_name self = VStr "T")
    by (vm_compute in E; injection E as <-; vm_compute in Ei; injection Ei as <-;
        reflexivity).
  destruct (C8_declare_pointers row_full record "export" 3 self E Ei)
    as (rank & _ & Hr & _ & Ht & _).
  assert (Hr5 : dict_get RANK record = Some (VInt 5))
    by (vm_compute in E; injection E as <-; reflexivity).
  split; [exact Hr5|].
  rewrite (Ht "T" Hn). rewrite Hr5 in Hr. injection Hr as <-.
  vm_compute in E. injection E as <-. vm_compute in Ei. injection Ei as <-.
  reflexivity.
Defined.

(** X20.  For every digested record the generator can build its object, and the
    registration fragment is always produced.  The pointer declaration is
    produced exactly when the internal name is not [None], and fails with a
    [TypeError] when it is; unless the row has an INTERNAL_NAME column of
    its own, that is exactly when the last short-name cell is empty. *)
Theorem fragments_of_a_digested_record (spec : raw_spec) (record : dict)
    (category : string) (indent : Z) :
  digest_spec spec = Ok record ->
  exists self,
    MAPL_DataSpec.init category record indent = Ok self
    /\ (exists text self', MAPL_DataSpec.emit_specs self = Ok (text, self'))
    /\ ((exists text, MAPL_DataSpec.emit_declare_pointers self = Ok (text, self))
        <-> MAPL_DataSpec.internal_name self <> VNone)
    /\ (MAPL_DataSpec.internal_name self = VNone ->
        MAPL_DataSpec.emit_declare_pointers self = Raise TypeError)
    /\ (has_column INTERNAL_NAME spec = false ->
        (MAPL_DataSpec.internal_name self = VNone <-> last_cell SHORT_NAME spec = Some "")).
Proof.
  intro H.
  destruct (emit_specs_digested spec record category indent H)
    as (self & text & self' & Hi & Hs & _).
  exists self. split; [exact Hi|]. split; [eauto|].
  destruct (digested_internal_name spec record category indent self H Hi) as [Hn Hc].
  destruct (digested_rank spec record H) as (rank & Hrank & Hr).
  pose proof (init_fields _ _ _ _ Hi) as (Ev & _).
  assert (F : MAPL_DataSpec.internal_name self = VNone ->
              MAPL_DataSpec.emit_declare_pointers self = Raise TypeError).
  { intro E. unfold MAPL_DataSpec.emit_declare_pointers, MAPL_DataSpec.rank_of, dict_getitem.
    rewrite Ev, Hr, E. reflexivity. }
  split; [split|split; [exact F|]].
  - intros [t Ht] E. rewrite (F E) in Ht. discriminate Ht.
  - intro N. destruct Hn as [E|[name E]]; [contradiction|].
    rewrite <- Ev in Hr.
    rewrite (emit_declare_pointers_text self rank name Hr Hrank E). eauto.
  - intro M. destruct (Hc M) as (cell & L & E). rewrite E, L.
    unfold make_internal_name. cbn [truthy].
    destruct cell as [|c cell]; cbn [String.eqb negb].
    + split; reflexivity.
    + split; intro X; discriminate X.
Qed.

Lemma fragments_witness :
  exists record self,
    digest_spec row_empty_name = Ok record
    /\ MAPL_DataSpec.init "import" record 3 = Ok self
    /\ MAPL_DataSpec.emit_declare_pointers self = Raise TypeError.
Proof.
  destruct (digest_spec row_empty_name) as [record|e] eqn:E;
    [|vm_compute in E; discriminate E].
  destruct (fragments_of_a_digested_record row_empty_name record "import" 3 E)
    as (self & Hi & _ & _ & F & C).
  exists record, self. split; [reflexivity|]. split; [exact Hi|].
  apply F. apply C; vm_compute; reflexivity.
Defined.

(* ================================================================== *)
(** ** Reading the specs *)

Example read_sample :
  read_specs sample_rows
  = Some (Read
      [ ("IMPORT",
         [ [("NAME", "T"); ("UNITS", "K"); ("DIMS", "xyz"); ("VLOC", "C");
            ("LONG NAME", "temperature")];
           [("NAME", "PS"); ("UNITS", "Pa"); ("DIMS", "xy"); ("VLOC", "N")] ]);
        ("EXPORT",
         [ [("NAME", "Q*"); ("UNITS", "1"); ("DIMS", "z"); ("VLOC", "E");
            ("LONG NAME", "humidity"); ("UNGRID", "a,b")] ]) ]).
Proof. vm_compute. reflexivity. Qed.

Lemma csv_record_reader_rest (p : bool) (rows : list csv_row) :
  match csv_record_reader p rows with
  | Yield _ rest => (List.length rest < List.length rows)%nat
  | Stop rest => (List.length rest <= List.length rows)%nat
  end.
Proof.
  induction rows as [|row rows IH]; cbn [csv_record_reader List.length]; [lia|].
  destruct (negb (Nat.eqb (List.length row) 0)).
  - destruct (is_comment row); [|lia].
    destruct (csv_record_reader p rows); lia.
  - destruct (negb p); [lia|]. destruct (csv_record_reader p rows); lia.
Qed.

Lemma records_rest (p : bool) (rows : list csv_row) :
  (List.length (snd (records p rows)) <= List.length rows)%nat.
Proof.
  revert p. induction rows as [|row rows IH]; intro p; cbn [records List.length snd]; [lia|].
  destruct (negb (Nat.eqb (List.length row) 0)).
  - destruct (is_comment row); cbn [snd]; [specialize (IH p)|specialize (IH false)]; lia.
  - destruct (negb p); cbn [snd]; [lia|]. specialize (IH p). lia.
Qed.

(** The rows the loop [for] takes are the rows that [next] gives one by
    one. *)
Lemma records_next (p : bool) (rows : list csv_row) :
  records p rows =
    match csv_record_reader p rows with
    | Yield row rest => (row :: fst (records false rest), snd (records false rest))
    | Stop rest => ([], rest)
    end.
Proof.
  induction rows as [|row rows IH]; cbn [records csv_record_reader]; [reflexivity|].
  destruct (negb (Nat.eqb (List.length row) 0)).
  - destruct (is_comment row); [exact IH|reflexivity].
  - destruct (negb p); [reflexivity|exact IH].
Qed.

(** With more fuel than rows the loop never runs out of fuel, and its
    result does not depend on the fuel. *)
Lemma read_blocks_fuel (fuel fuel' : nat) :
  forall rows specs,
    (List.length rows < fuel)%nat -> (List.length rows < fuel')%nat ->
    read_blocks fuel rows specs = read_blocks fuel' rows specs
    /\ read_blocks fuel rows specs <> None.
Proof.
  revert fuel'. induction fuel as [|fuel IH]; intros fuel' rows specs H H'; [lia|].
  destruct fuel' as [|fuel']; [lia|]. cbn [read_blocks].
  pose proof (csv_record_reader_rest true rows) as L1.
  destruct (csv_record_reader true rows) as [row1 rest1|rest1]; [|split; [reflexivity|discriminate]].
  destruct (read_bind (item row1 0) (fun cell => item (split_ws cell) 1));
    [|split; [reflexivity|discriminate]].
  pose proof (csv_record_reader_rest false rest1) as L2.
  destruct (csv_record_reader false rest1) as [cols rest2|rest2];
    [|split; [reflexivity|discriminate]].
  pose proof (records_rest false rest2) as L3.
  apply IH; lia.
Qed.

Lemma without_comments_length (rows : list csv_row) :
  (List.length (without_comments rows) <= List.length rows)%nat.
Proof.
  induction rows as [|row rows IH]; cbn [without_comments List.filter List.length]; [lia|].
  fold (without_comments rows). destruct (negb (is_comment row)); cbn [List.length]; lia.
Qed.

Lemma is_comment_nonempty (row : csv_row) :
  is_comment row = true -> negb (Nat.eqb (List.length row) 0) = true.
Proof. destruct row; [discriminate|reflexivity]. Qed.

Lemma csv_record_reader_without_comments (p : bool) (rows : list csv_row) :
  csv_record_reader p (without_comments rows) =
    match csv_record_reader p rows with
    | Yield row rest => Yield row (without_comments rest)
    | Stop rest => Stop (without_comments rest)
    end.
Proof.
  induction rows as [|row rows IH]; cbn [without_comments List.filter csv_record_reader];
    [reflexivity|].
  fold (without_comments rows). destruct (is_comment row) eqn:C; cbn [negb].
  - rewrite (is_comment_nonempty row C). exact IH.
  - cbn [csv_record_reader]. rewrite C.
    destruct (negb (Nat.eqb (List.length row) 0)); [reflexivity|].
    destruct (negb p); [reflexivity|exact IH].
Qed.

Lemma records_without_comments (p : bool) (rows : list csv_row) :
  records p (without_comments rows)
  = (fst (records p rows), without_comments (snd (records p rows))).
Proof.
  revert p. induction rows as [|row rows IH]; intro p;
    cbn [without_comments List.filter records]; [reflexivity|].
  fold (without_comments rows). destruct (is_comment row) eqn:C; cbn [negb].
  - rewrite (is_comment_nonempty row C). apply IH.
  - cbn [records]. rewrite C.
    destruct (negb (Nat.eqb (List.length row) 0)).
    + rewrite IH. reflexivity.
    + destruct (negb p); [reflexivity|apply IH].
Qed.

Lemma read_blocks_without_comments (fuel : nat) :
  forall rows specs,
    (List.length rows < fuel)%nat ->
    read_blocks fuel (without_comments rows) specs = read_blocks fuel rows specs.
Proof.
  induction fuel as [|fuel IH]; intros rows specs H; [lia|]. cbn [read_blocks].
  rewrite csv_record_reader_without_comments.
  pose proof (csv_record_reader_rest true rows) as L1.
  destruct (csv_record_reader true rows) as [row1 rest1|rest1]; [|reflexivity].
  destruct (read_bind (item row1 0) (fun cell => item (split_ws cell) 1)); [|reflexivity].
  rewrite csv_record_reader_without_comments.
  pose proof (csv_record_reader_rest false rest1) as L2.
  destruct (csv_record_reader false rest1) as [cols rest2|rest2]; [|reflexivity].
  rewrite records_without_comments. cbn [fst snd].
  pose proof (records_rest false rest2) as L3.
  apply IH. lia.
Qed.

(** X21.  [read_specs] always ends, with the dictionary, a [StopIteration] or an
    [IndexError]; and comment rows, wherever they stand, are as if they
    were not there: the rows without them read to the same result. *)
Theorem read_specs_ignores_comments (rows : list csv_row) :
  read_specs rows <> None
  /\ read_specs (without_comments rows) = read_specs rows.
Proof.
  split.
  - unfold read_specs.
    destruct (csv_record_reader true rows) as [row1 rest1|rest1]; [|discriminate].
    destruct (read_bind (item row1 0) (fun cell => item (PyStr.split " " cell) 1));
      [|discriminate].
    destruct (csv_record_reader false rest1) as [row2 rest2|rest2]; [|discriminate].
    destruct (read_bind (item row2 0) (fun cell => item (PyStr.split " " cell) 1));
      [|discriminate].
    apply (read_blocks_fuel (S (List.length rest2)) (S (List.length rest2))); lia.
  - unfold read_specs. rewrite csv_record_reader_without_comments.
    destruct (csv_record_reader true rows) as [row1 rest1|rest1]; [|reflexivity].
    destruct (read_bind (item row1 0) (fun cell => item (PyStr.split " " cell) 1));
      [|reflexivity].
    rewrite csv_record_reader_without_comments.
    destruct (csv_record_reader false rest1) as [row2 rest2|rest2]; [|reflexivity].
    destruct (read_bind (item row2 0) (fun cell => item (PyStr.split " " cell) 1));
      [|reflexivity].
    pose proof (without_comments_length rest2) as L.
    rewrite (proj1 (read_blocks_fuel (S (List.length (without_comments rest2)))
                      (S (List.length rest2)) (without_comments rest2) [] ltac:(lia) ltac:(lia))).
    apply read_blocks_without_comments. lia.
Qed.

(* ================================================================== *)
(** ** The dictionaries that [read_specs] builds *)

Lemma str_set_keys {A : Type} (k : string) (v : A) (d : list (string * A)) :
  NoDup (List.map fst d) ->
  NoDup (List.map fst (str_set k v d))
  /\ (forall k' v', In (k', v') (str_set k v d) ->
        (k' = k /\ v' = v) \/ In (k', v') d)
  /\ (forall k', In k' (List.map fst (str_set k v d)) <-> k' = k \/ In k' (List.map fst d)).
Proof.
  induction d as [|[k0 v0] d IH]; cbn [str_set List.map fst]; intro ND.
  - split; [constructor; [intros []|constructor]|]. split.
    + intros k' v' [E|[]]. injection E as <- <-. auto.
    + intro k'. cbn [In]. intuition congruence.
  - apply NoDup_cons_iff in ND as [N ND]. destruct (IH ND) as (A1 & A2 & A3).
    destruct (String.eqb k k0) eqn:E; cbn [List.map fst].
    + apply String.eqb_eq in E. subst k0. split; [constructor; assumption|]. split.
      * intros k' v' [X|X]; [injection X as <- <-; auto|right; right; exact X].
      * intro k'. cbn [In]. intuition congruence.
    + apply String.eqb_neq in E. split; [|split].
      * constructor; [|exact A1]. rewrite A3. intros [F|F]; [congruence|exact (N F)].
      * intros k' v' [X|X]; [right; left; exact X|].
        destruct (A2 _ _ X) as [Y|Y]; [left; exact Y|right; right; exact Y].
      * intro k'. cbn [In]. rewrite A3. intuition congruence.
Qed.

Lemma dict_of_pairs_entries (pairs : list (string * string)) :
  NoDup (List.map fst (dict_of_pairs pairs))
  /\ forall k v, In (k, v) (dict_of_pairs pairs) -> In (k, v) pairs.
Proof.
  unfold dict_of_pairs.
  assert (G : forall acc,
             NoDup (List.map fst acc) ->
             NoDup (List.map fst (fold_left (fun d kv => str_set (fst kv) (snd kv) d) pairs acc))
             /\ forall k v,
                  In (k, v) (fold_left (fun d kv => str_set (fst kv) (snd kv) d) pairs acc) ->
                  In (k, v) pairs \/ In (k, v) acc).
  { induction pairs as [|[k0 v0] pairs IH]; cbn [fold_left fst snd]; intros acc ND.
    - auto.
    - destruct (str_set_keys k0 v0 acc ND) as (A1 & A2 & _).
      destruct (IH _ A1) as [B1 B2]. split; [exact B1|].
      intros k v Hin. destruct (B2 k v Hin) as [X|X]; [left; right; exact X|].
      destruct (A2 _ _ X) as [[-> ->]|Y]; [left; left; reflexivity|right; exact Y]. }
  destruct (G [] (NoDup_nil _)) as [A B]. split; [exact A|].
  intros k v Hin. destruct (B k v Hin) as [X|[]]. exact X.
Qed.

Lemma to_upper_idem (c : ascii) : PyStr.to_upper (PyStr.to_upper c) = PyStr.to_upper c.
Proof. destruct c as [[] [] [] [] [] [] [] []]; reflexivity. Qed.

Lemma upper_idem (s : string) : PyStr.upper (PyStr.upper s) = PyStr.upper s.
Proof.
  induction s as [|c s IH]; cbn [PyStr.upper PyStr.map]; [reflexivity|].
  fold (PyStr.upper s). fold (PyStr.upper (PyStr.upper s)).
  rewrite to_upper_idem, IH. reflexivity.
Qed.

Lemma strip_idem (s : string) : PyStr.strip (PyStr.strip s) = PyStr.strip s.
Proof. apply strip_by_idem. Qed.

Lemma records_stripped (p : bool) (rows : list csv_row) :
  Forall (Forall (fun cell => PyStr.strip cell = cell)) (fst (records p rows)).
Proof.
  revert p. induction rows as [|row rows IH]; intro p; cbn [records fst]; [constructor|].
  destruct (negb (Nat.eqb (List.length row) 0)).
  - destruct (is_comment row); cbn [fst]; [apply IH|].
    constructor; [|apply IH]. apply Forall_forall. intros cell Hin.
    apply in_map_iff in Hin as (x & <- & _). apply strip_idem.
  - destruct (negb p); cbn [fst]; [constructor|apply IH].
Qed.

Lemma dataframe_ok (yielded : list csv_row) (bare_columns : list string) :
  Forall (Forall (fun cell => PyStr.strip cell = cell)) yielded ->
  Forall read_row_ok (dataframe yielded (List.map PyStr.upper bare_columns)).
Proof.
  intro S. unfold dataframe. apply Forall_forall. intros row Hin.
  apply in_map_iff in Hin as (cells & <- & Hc).
  rewrite Forall_forall in S. specialize (S cells Hc). rewrite Forall_forall in S.
  destruct (dict_of_pairs_entries (List.combine (List.map PyStr.upper bare_columns) cells))
    as [A B].
  split; [exact A|]. intros k v Hkv. apply B in Hkv.
  pose proof (in_combine_l _ _ _ _ Hkv) as Hk. pose proof (in_combine_r _ _ _ _ Hkv) as Hv.
  apply in_map_iff in Hk as (x & <- & _). split; [apply upper_idem|apply S; exact Hv].
Qed.

Lemma read_blocks_ok (fuel : nat) :
  forall rows specs out,
    read_specs_ok specs -> read_blocks fuel rows specs = Some (Read out) ->
    read_specs_ok out.
Proof.
  induction fuel as [|fuel IH]; intros rows specs out Hs H; [discriminate H|].
  cbn [read_blocks] in H.
  destruct (csv_record_reader true rows) as [row1 rest1|rest1];
    [|injection H as <-; exact Hs].
  destruct (read_bind (item row1 0) (fun cell => item (split_ws cell) 1)) as [category|e];
    [|discriminate H].
  destruct (csv_record_reader false rest1) as [cols rest2|rest2];
    [|injection H as <-; exact Hs].
  cbv zeta in H. apply IH in H; [exact H|].
  destruct Hs as [ND F]. destruct (str_set_keys category
       (dataframe (fst (records false rest2))
          (List.map PyStr.upper (List.map PyStr.strip cols))) specs ND) as (A1 & A2 & _).
  split; [exact A1|]. intros c rs Hin. destruct (A2 _ _ Hin) as [[-> ->]|X].
  - apply dataframe_ok. apply records_stripped.
  - eapply F. exact X.
Qed.

(** X22.  Whatever [read_specs] returns is fit for [digest]: no category occurs
    twice, and in every row dictionary no column occurs twice, the column
    names are in upper case, so that [digest] looks them up as they are,
    and the cells are stripped of surrounding white space. *)
Theorem read_specs_builds_clean_rows (rows : list csv_row) (specs : specs_dict) :
  read_specs rows = Some (Read specs) ->
  NoDup (List.map fst specs)
  /\ forall category dicts row,
       In (category, dicts) specs -> In row dicts ->
       NoDup (List.map fst row)
       /\ forall column cell, In (column, cell) row ->
            PyStr.upper column = column /\ PyStr.strip cell = cell.
Proof.
  intro H. unfold read_specs in H.
  destruct (csv_record_reader true rows) as [row1 rest1|rest1]; [|discriminate H].
  destruct (read_bind (item row1 0) (fun cell => item (PyStr.split " " cell) 1));
    [|discriminate H].
  destruct (csv_record_reader false rest1) as [row2 rest2|rest2]; [|discriminate H].
  destruct (read_bind (item row2 0) (fun cell => item (PyStr.split " " cell) 1));
    [|discriminate H].
  apply read_blocks_ok in H.
  - destruct H as [ND F]. split; [exact ND|]. intros category dicts row Hin Hrow.
    specialize (F _ _ Hin). rewrite Forall_forall in F. exact (F row Hrow).
  - split; [constructor|]. intros c rs [].
Qed.

Lemma read_specs_clean_witness :
  exists specs,
    read_specs sample_rows = Some (Read specs) /\ NoDup (List.map fst specs).
Proof.
  destruct (read_specs sample_rows) as [[specs|e]|] eqn:E;
    try (vm_compute in E; discriminate E).
  exists specs. split; [reflexivity|].
  exact (proj1 (read_specs_builds_clean_rows sample_rows specs E)).
Defined.

(* ================================================================== *)
(** ** The reader at its edges *)




(* ================================================================== *)
(** ** Rows shorter or longer than the header *)

Lemma str_lookup_str_set {A : Type} (k k' : string) (v : A) (d : list (string * A)) :
  str_lookup k' (str_set k v d)
  = if String.eqb k' k then Some v else str_lookup k' d.
Proof.
  induction d as [|[k0 v0] d IH]; cbn [str_set str_lookup].
  - destruct (String.eqb k' k); reflexivity.
  - destruct (String.eqb k k0) eqn:E; cbn [str_lookup].
    + apply String.eqb_eq in E. subst k0. destruct (String.eqb k' k); reflexivity.
    + rewrite IH. destruct (String.eqb k' k0) eqn:E'; [|reflexivity].
      apply String.eqb_eq in E'. subst k0.
      destruct (String.eqb k' k) eqn:E''; [|reflexivity].
      apply String.eqb_eq in E''. subst. rewrite String.eqb_refl in E. discriminate E.
Qed.

Lemma fold_str_set_distinct (pairs acc : list (string * string)) :
  NoDup (List.map fst (acc ++ pairs)) ->
  fold_left (fun d kv => str_set (fst kv) (snd kv) d) pairs acc = (acc ++ pairs)%list.
Proof.
  revert acc. induction pairs as [|[k v] pairs IH]; intros acc ND; cbn [fold_left fst snd].
  - rewrite app_nil_r. reflexivity.
  - assert (E : str_set k v acc = (acc ++ [(k, v)])%list).
    { assert (N : ~ In k (List.map fst acc)).
      { rewrite map_app in ND. cbn [List.map fst] in ND.
        apply NoDup_remove_2 in ND. intro F. apply ND. apply in_app_iff. left. exact F. }
      clear -N. induction acc as [|[k0 v0] acc IHa]; cbn [str_set app]; [reflexivity|].
      destruct (String.eqb k k0) eqn:E.
      - apply String.eqb_eq in E. subst. exfalso. apply N. left. reflexivity.
      - rewrite IHa; [reflexivity|]. intro F. apply N. right. exact F. }
    rewrite E. rewrite IH; rewrite <- app_assoc; [reflexivity|exact ND].
Qed.

Lemma combine_keys {A B : Type} (l : list A) (l' : list B) :
  List.map fst (List.combine l l') = List.firstn (List.length l') l.
Proof.
  revert l'. induction l as [|a l IH]; intros [|b l']; cbn; try reflexivity.
  rewrite IH. reflexivity.
Qed.

Lemma NoDup_firstn {A : Type} (n : nat) (l : list A) : NoDup l -> NoDup (List.firstn n l).
Proof.
  revert n. induction l as [|a l IH]; intros [|n] ND; cbn [List.firstn]; try constructor.
  - apply NoDup_cons_iff in ND as [N ND]. intro F. apply N.
    rewrite <- (firstn_skipn n l). apply in_app_iff. left. exact F.
  - apply IH. apply NoDup_cons_iff in ND. tauto.
Qed.

(** X24.  A row under a header of distinct column names is paired with the
    header cell by cell, up to the shorter of the two: a short row gives a
    dictionary with the first columns only, the cells of a long row beyond
    the header are dropped, and neither is an error.  A column name that
    occurs again in the header keeps its first place and takes the cell of
    its last occurrence. *)
Theorem dataframe_pairs_cells_with_columns (columns : list string) (cells : csv_row) :
  (NoDup columns ->
   dataframe [cells] columns = [List.combine columns cells]
   /\ List.map fst (List.combine columns cells) = List.firstn (List.length cells) columns
   /\ List.length (List.combine columns cells)
      = Nat.min (List.length columns) (List.length cells))
  /\ (forall column cell rest,
        dict_of_pairs (rest ++ [(column, cell)]) = str_set column cell (dict_of_pairs rest)
        /\ str_lookup column (dict_of_pairs (rest ++ [(column, cell)])) = Some cell).
Proof.
  split.
  - intro ND. split; [|split].
    + unfold dataframe, dict_of_pairs. cbn [List.map].
      rewrite (fold_str_set_distinct (List.combine columns cells) []); [reflexivity|].
      cbn [app]. rewrite combine_keys. apply NoDup_firstn. exact ND.
    + apply combine_keys.
    + apply length_combine.
  - intros column cell rest. unfold dict_of_pairs. rewrite fold_left_app.
    cbn [fold_left fst snd]. split; [reflexivity|].
    rewrite str_lookup_str_set, String.eqb_refl. reflexivity.
Qed.

Lemma dataframe_witness :
  dataframe [["PS"; "Pa"]] ["NAME"; "UNITS"; "DIMS"] = [[("NAME", "PS"); ("UNITS", "Pa")]].
Proof.
  assert (ND : NoDup ["NAME"; "UNITS"; "DIMS"])
    by (apply distinct_NoDup; vm_compute; reflexivity).
  exact (proj1 (proj1 (dataframe_pairs_cells_with_columns ["NAME"; "UNITS"; "DIMS"]
                         ["PS"; "Pa"]) ND)).
Defined.

Lemma digest_fails_fast_witness :
  digest [("IMPORT", [row_full; row_no_units; row_unknown_column])]
  = Raise (MissingMandatoryOption "UNITS is missing from spec.").
Proof.
  apply (proj2 (digest_is_rowwise_and_fails_fast
                  [("IMPORT", [row_full; row_no_units; row_unknown_column])])).
  exists [row_full], row_no_units, [row_unknown_column].
  split; [reflexivity|]. split.
  - constructor; [|constructor]. eexists. vm_compute. reflexivity.
  - vm_compute. reflexivity.
Defined.
